(** * pdf2audiobook, annotation tool (apps-script/do_get.gs, do_get.js)

    A shallow embedding of the Apps Script annotation tool: the batch
    download loop, the label reconciliation, the sheet synchronisation, the
    label update and the paragraph dictionary builder, with the properties
    the specification states about them.

    The script is a client of the JavaScript runtime and of the Apps Script
    services (UrlFetchApp, SpreadsheetApp, Utilities, Logger).  Their
    primitives are collected in the class [Host]; the script itself is
    translated function by function over an explicit [world] (the
    spreadsheet, the log of requests, the Logger output). *)

From Stdlib Require Import String Ascii List Bool Arith ZArith NArith QArith Lia.
From Stdlib Require Import Permutation Sorted Lqa.
From stdpp Require Import base list strings.

Import ListNotations.
Local Close Scope Q_scope.
Local Close Scope Z_scope.
Local Close Scope N_scope.
Local Open Scope nat_scope.

(** ** JavaScript strings

    A string is the sequence of its code units; the development keeps to
    the 8-bit range, where [String.length] is JavaScript's [length]. *)

Definition strlen (s : string) : nat := String.length s.

(** [s.substr(0, n)] *)
Definition substr0 (n : nat) (s : string) : string := String.substring 0 n s.

Fixpoint dropStr (n : nat) (s : string) : string :=
  match n, s with
  | S n', String _ s' => dropStr n' s'
  | _, _ => s
  end.

(** [s.slice(-n)]: the last [n] code units, the whole string when it is
    shorter. *)
Definition sliceLast (n : nat) (s : string) : string :=
  dropStr (strlen s - n) s.

(** [s.replace(pat, rep)] with a string pattern: the first occurrence only. *)
Fixpoint replaceFirst (pat rep s : string) : string :=
  if String.prefix pat s then rep +:+ dropStr (strlen pat) s
  else match s with
       | EmptyString => EmptyString
       | String c s' => String c (replaceFirst pat rep s')
       end.

(** [s.includes(pat)] *)
Fixpoint includesStr (pat s : string) : bool :=
  String.prefix pat s ||
  match s with
  | EmptyString => false
  | String _ s' => includesStr pat s'
  end.

Definition lowerAscii (c : ascii) : ascii :=
  let n := nat_of_ascii c in
  if (65 <=? n) && (n <=? 90) then ascii_of_nat (n + 32) else c.

Fixpoint toLowerCase (s : string) : string :=
  match s with
  | EmptyString => EmptyString
  | String c s' => String (lowerAscii c) (toLowerCase s')
  end.

Definition isDigit (c : ascii) : bool :=
  let n := nat_of_ascii c in (48 <=? n) && (n <=? 57).

(** Line terminators of the 8-bit range: the characters [.] does not match. *)
Definition isLineTerminator (c : ascii) : bool :=
  let n := nat_of_ascii c in (n =? 10) || (n =? 13).

Fixpoint allChars (p : ascii -> bool) (s : string) : bool :=
  match s with
  | EmptyString => true
  | String c s' => p c && allChars p s'
  end.

(** The decimal numeral of a natural number, as [ToString] gives it for the
    integers the loop counter takes. *)
Definition digitChar (d : N) : ascii := ascii_of_N (48 + d).

Fixpoint decimalAux (fuel : nat) (n : N) (acc : string) : string :=
  match fuel with
  | O => acc
  | S f =>
      let acc' := String (digitChar (n mod 10)) acc in
      if (n / 10 =? 0)%N then acc' else decimalAux f (n / 10)%N acc'
  end.

Definition decimal (n : N) : string :=
  decimalAux (S (N.to_nat (N.log2 n))) n EmptyString.

(** ** JavaScript values and objects *)

(** What [getValues] hands back for a cell: a number or a string (booleans
    and dates are left out: ids, texts, areas and labels are numbers or
    text).  Numbers are finite doubles; their comparisons agree with the
    comparisons of the rationals they denote. *)
Inductive value : Type :=
  | Num (q : Q)
  | Str (s : string).

(** An object used as a dictionary: its own properties in creation order.
    A property that is read and absent is [undefined], here [None]. *)
Definition obj (V : Type) : Type := list (string * V).

Fixpoint getProp {V} (k : string) (o : obj V) : option V :=
  match o with
  | [] => None
  | (k', v) :: o' => if String.eqb k k' then Some v else getProp k o'
  end.

(** [o[k] = v]: overwrite in place, or create at the end. *)
Fixpoint setProp {V} (k : string) (v : V) (o : obj V) : obj V :=
  match o with
  | [] => [(k, v)]
  | (k', v') :: o' =>
      if String.eqb k k' then (k', v) :: o' else (k', v') :: setProp k v o'
  end.

(** [o[k] = v] on an object made by [new Object()], for a text or a number
    [v].  The key [__proto__] names the accessor of Object.prototype, whose
    setter ignores a value that is neither an object nor null: the
    assignment creates no property.  Every other key is written. *)
Definition assignProp {V} (k : string) (v : V) (o : obj V) : obj V :=
  if String.eqb k "__proto__" then o else setProp k v o.

Definition Qltb (a b : Q) : bool := negb (Qle_bool b a).

(** [arr.indexOf(s)] for a string [s]: strict equality, -1 when absent. *)
Definition strictEqStr (s : string) (v : value) : bool :=
  match v with
  | Str t => String.eqb s t
  | Num _ => false
  end.

Fixpoint indexOfFrom (s : string) (l : list value) (i : Z) : Z :=
  match l with
  | [] => (-1)%Z
  | v :: l' => if strictEqStr s v then i else indexOfFrom s l' (i + 1)%Z
  end.

Definition indexOf (s : string) (l : list value) : Z := indexOfFrom s l 0%Z.

(** [arr.includes(s)] on an array of strings. *)
Definition includes (s : string) (l : list string) : bool :=
  existsb (String.eqb s) l.

(** ** The regular expression of [buildParaDictFromSheet]

    Three groups: any characters (starred dot, greedy), then a dash and the
    digits of the page, then a dash and the digits of the paragraph.

    [spanDigits s] splits off the longest run of digits.  A run [[0-9]+]
    that must be followed by [-] or by nothing more can only be the longest
    one, so the matcher never has to give digits back. *)
Fixpoint spanDigits (s : string) : string * string :=
  match s with
  | EmptyString => (EmptyString, EmptyString)
  | String c s' =>
      if isDigit c
      then let (d, r) := spanDigits s' in (String c d, r)
      else (EmptyString, s)
  end.

(** The part after the first group, at the start of [s]:
    "-([0-9]+)-([0-9]+)". *)
Definition matchTail (s : string) : option (string * string) :=
  match s with
  | String "-"%char s1 =>
      match spanDigits s1 with
      | (String c1 d1, String "-"%char s2) =>
          match spanDigits s2 with
          | (String c2 d2, _) => Some (String c1 d1, String c2 d2)
          | _ => None
          end
      | _ => None
      end
  | _ => None
  end.

(** The whole pattern at the start of [s].  The first group is greedy: it
    first tries to take one more character (never a line terminator) and
    gives it back only when the rest cannot match. *)
Fixpoint matchHere (s : string) : option (string * string * string) :=
  let stop :=
    match matchTail s with
    | Some (page, para) => Some (EmptyString, page, para)
    | None => None
    end in
  match s with
  | EmptyString => stop
  | String c s' =>
      if isLineTerminator c then stop
      else match matchHere s' with
           | Some (g1, page, para) => Some (String c g1, page, para)
           | None => stop
           end
  end.

(** [id.match(re)] for that expression: the match at the leftmost start
    position that has one; the groups m[1], m[2], m[3], or [None] for
    [null]. *)
Fixpoint matchId (s : string) : option (string * string * string) :=
  match matchHere s with
  | Some m => Some m
  | None =>
      match s with
      | EmptyString => None
      | String _ s' => matchId s'
      end
  end.

(** ** [Array.prototype.sort]

    The sort is stable (ECMAScript 2019, the V8 runtime of Apps Script);
    with a consistent comparator every stable sort gives the same array.
    It is modelled as the stable insertion sort: an element goes in front
    of the first one that has to come after it. *)
Section Sort.
Context {A : Type} (cmp : A -> A -> Z).

Fixpoint insertSorted (x : A) (l : list A) : list A :=
  match l with
  | [] => [x]
  | y :: l' =>
      if (0 <? cmp y x)%Z then x :: y :: l' else y :: insertSorted x l'
  end.

Definition sort (l : list A) : list A :=
  fold_left (fun acc x => insertSorted x acc) l [].
End Sort.

(** ** Outcomes and the script monad *)

Inductive exn : Type :=
  | TypeError          (* a property of undefined or null, a call of a non-function *)
  | ReferenceError     (* a variable that is not bound *)
  | ServiceException   (* an exception thrown by an Apps Script service *).

(** How a run ends: a value, an uncaught exception, or a loop that is still
    running when the fuel is used up. *)
Inductive outcome (A : Type) : Type :=
  | Ret (a : A)
  | Raise (e : exn)
  | Spin.
Arguments Ret {A} a.
Arguments Raise {A} e.
Arguments Spin {A}.

Definition obind {A B} (o : outcome A) (k : A -> outcome B) : outcome B :=
  match o with
  | Ret a => k a
  | Raise e => Raise e
  | Spin => Spin
  end.

(** An HTTP request as the script issues it and the response it reads. *)
Record request : Type := mkRequest {
  url : string;
  method : string;
  headers : list (string * string)
}.

Record response : Type := mkResponse {
  getResponseCode : Z;
  getContentText : string
}.

(** A sheet: its name, the grid of its cells (rows of cells, everything
    outside is blank) and the backgrounds that were set. *)
Record sheet : Type := mkSheet {
  getName : string;
  grid : list (list value);
  backgrounds : list (nat * nat * string)
}.

(** The state a run of the script acts on: the sheets of the spreadsheet in
    tab order, the requests sent so far and the Logger output (both oldest
    first). *)
Record world : Type := mkWorld {
  sheets : list sheet;
  requests : list request;
  logs : list string
}.

Definition M (A : Type) : Type := world -> outcome A * world.

Definition ret {A} (a : A) : M A := fun w => (Ret a, w).
Definition raise {A} (e : exn) : M A := fun w => (Raise e, w).
Definition spin {A} : M A := fun w => (Spin, w).
Definition bind {A B} (m : M A) (k : A -> M B) : M B :=
  fun w =>
    match m w with
    | (Ret a, w') => k a w'
    | (Raise e, w') => (Raise e, w')
    | (Spin, w') => (Spin, w')
    end.
Definition liftO {A} (o : outcome A) : M A := fun w => (o, w).

Notation "x <- c1 ;; c2" := (bind c1 (fun x => c2))
  (at level 100, c1 at next level, right associativity).
Notation "c1 ;;; c2" := (bind c1 (fun _ => c2))
  (at level 100, right associativity).

(** The primitives of the JavaScript runtime and of the Apps Script
    services the script calls, the storage it reads and its configuration
    constants. *)
Class Host : Type := {
  (** the configuration at the top of the file *)
  PDF_NAME : string;
  BUCKET_NAME : string;
  (** [ToString] of a number (a numeric header cell used as property key) *)
  NumberToString : Q -> string;
  (** [ToNumber] of a string, [None] for NaN *)
  StringToNumber : string -> option Q;
  (** [JSON.stringify] of a paragraph dictionary *)
  JSON_stringify : obj (list (obj value)) -> string;
  (** [(new Date()).toLocaleTimeString()] at the time of the run *)
  toLocaleTimeString : string;
  (** [UrlFetchApp.fetch] with muteHttpExceptions: the storage's answer *)
  UrlFetchApp_fetch : request -> response;
  (** the global [storageService] that authFetch reads: the access token it
      hands out, [None] when the script project binds no such global (the
      files at hand declare it inside doGet only) *)
  storageService : option string;
  (** [Utilities.parseCsv], [None] when it throws *)
  parseCsv : string -> option (list (list string));
  (** the cell value Sheets stores for a string written into a cell *)
  cellOfString : string -> value;
  (** the text Sheets displays for a numeric cell *)
  displayNumber : Q -> string;
  (** the name [insertSheet()] gives a new sheet, from the names in use *)
  defaultSheetName : list string -> string
}.

(** ** The spreadsheet service

    Rows and columns are counted from 1, as the service does.  A sheet is
    handled through its position in the spreadsheet; sheets are only ever
    added at the end, so a position stays valid.  The grid of a sheet is
    not bounded (the script writes into new sheets, below the rows it has
    inserted, and reads one row past the last row with content), and of the
    rules for sheet names only the one the script can run into is kept: two
    sheets never have the same name. *)

Definition blank : value := Str "".

Definition isBlank (v : value) : bool :=
  match v with
  | Str s => String.eqb s ""
  | Num _ => false
  end.

(** Position (from 1) of the last element that satisfies [p], 0 if none. *)
Fixpoint lastIndex {A} (p : A -> bool) (l : list A) : nat :=
  match l with
  | [] => 0
  | x :: l' =>
      match lastIndex p l' with
      | 0 => if p x then 1 else 0
      | S k => S (S k)
      end
  end.

Definition rowWidth (row : list value) : nat :=
  lastIndex (fun v => negb (isBlank v)) row.

(** [getLastRow()] and [getLastColumn()]: the last row and the last column
    that have content. *)
Definition gridLastRow (g : list (list value)) : nat :=
  lastIndex (fun row => 0 <? rowWidth row) g.

Definition gridLastColumn (g : list (list value)) : nat :=
  max_list (map rowWidth g).

Definition cellAt (g : list (list value)) (r c : nat) : value :=
  match g !! (r - 1) with
  | Some row => default blank (row !! (c - 1))
  | None => blank
  end.

Definition readRange (g : list (list value)) (r c nr nc : nat)
  : list (list value) :=
  map (fun i => map (fun j => cellAt g (r + i) (c + j)) (seq 0 nc)) (seq 0 nr).

Definition padTo {A} (n : nat) (d : A) (l : list A) : list A :=
  l ++ replicate (n - length l) d.

(** Writing one cell; the grid grows when the cell lies outside. *)
Definition setCell (r c : nat) (v : value) (g : list (list value))
  : list (list value) :=
  let g' := padTo r [] g in
  match g' !! (r - 1) with
  | Some row => <[r - 1 := <[c - 1 := v]> (padTo c blank row)]> g'
  | None => g'
  end.

Fixpoint writeRow (r c : nat) (vs : list value) (g : list (list value))
  : list (list value) :=
  match vs with
  | [] => g
  | v :: vs' => writeRow r (S c) vs' (setCell r c v g)
  end.

Fixpoint writeRows (r c : nat) (data : list (list value))
  (g : list (list value)) : list (list value) :=
  match data with
  | [] => g
  | vs :: data' => writeRows (S r) c data' (writeRow r c vs g)
  end.

(** A range: the sheet it belongs to and its rectangle. *)
Record range : Type := mkRange {
  rangeSheet : nat;
  getRow : nat;
  getColumn : nat;
  getNumRows : nat;
  getNumColumns : nat
}.

Fixpoint findIndex {A} (p : A -> bool) (l : list A) : option nat :=
  match l with
  | [] => None
  | x :: l' => if p x then Some 0 else option_map S (findIndex p l')
  end.

(** The first cell of a row, then of a grid, that satisfies [p], in reading
    order. *)
Fixpoint findCell (p : value -> bool) (g : list (list value)) (r : nat)
  : option (nat * nat) :=
  match g with
  | [] => None
  | row :: g' =>
      match findIndex p row with
      | Some j => Some (r, S j)
      | None => findCell p g' (S r)
      end
  end.

Definition setSheetName (n : string) (s : sheet) : sheet :=
  mkSheet n (grid s) (backgrounds s).
Definition setSheetGrid (g : list (list value)) (s : sheet) : sheet :=
  mkSheet (getName s) g (backgrounds s).
Definition setSheetBackgrounds (b : list (nat * nat * string)) (s : sheet)
  : sheet :=
  mkSheet (getName s) (grid s) b.

Definition setSheets (f : list sheet -> list sheet) (w : world) : world :=
  mkWorld (f (sheets w)) (requests w) (logs w).

Definition isNamed (n : string) (s : sheet) : bool := String.eqb (getName s) n.

Section Script.
Context `{Host}.

(** *** Service calls *)

Definition Logger_log (msg : string) : M unit :=
  fun w => (Ret tt, mkWorld (sheets w) (requests w) (logs w ++ [msg])).

(** [getSheetByName(n)]: the sheet of that name, or null. *)
Definition getSheetByName (n : string) : M (option nat) :=
  fun w => (Ret (findIndex (isNamed n) (sheets w)), w).

Definition theSheet (h : nat) : M sheet :=
  fun w =>
    match sheets w !! h with
    | Some s => (Ret s, w)
    | None => (Raise ServiceException, w)
    end.

Definition modifySheet (h : nat) (f : sheet -> sheet) : M unit :=
  fun w => (Ret tt, setSheets (alter f h) w).

Definition sheet_getLastRow (h : nat) : M nat :=
  s <- theSheet h ;; ret (gridLastRow (grid s)).

Definition sheet_getLastColumn (h : nat) : M nat :=
  s <- theSheet h ;; ret (gridLastColumn (grid s)).

(** [sheet.getRange(row, column, numRows, numColumns)]: a rectangle that
    does not start at row and column 1 or later, or that has no row or no
    column, is refused. *)
Definition sheet_getRange (h r c nr nc : nat) : M range :=
  if (1 <=? r) && (1 <=? c) && (1 <=? nr) && (1 <=? nc)
  then ret (mkRange h r c nr nc)
  else raise ServiceException.

Definition range_getValues (rg : range) : M (list (list value)) :=
  s <- theSheet (rangeSheet rg) ;;
  ret (readRange (grid s) (getRow rg) (getColumn rg)
         (getNumRows rg) (getNumColumns rg)).

(** [range.setValues(data)]: the data must have the dimensions of the
    range. *)
Definition range_setValues (rg : range) (data : list (list string))
  : M unit :=
  if (length data =? getNumRows rg) &&
     forallb (fun row => length row =? getNumColumns rg) data
  then modifySheet (rangeSheet rg)
         (fun s => setSheetGrid
            (writeRows (getRow rg) (getColumn rg)
               (map (map cellOfString) data) (grid s)) s)
  else raise ServiceException.

(** [range.setValue(s)] and [range.setBackground(colour)], on the one-cell
    ranges the script uses them on. *)
Definition range_setValue (rg : range) (s : string) : M unit :=
  modifySheet (rangeSheet rg)
    (fun sh => setSheetGrid
       (setCell (getRow rg) (getColumn rg) (cellOfString s) (grid sh)) sh).

Definition range_setBackground (rg : range) (colour : string) : M unit :=
  modifySheet (rangeSheet rg)
    (fun sh => setSheetBackgrounds
       ((getRow rg, getColumn rg, colour) ::
        filter (fun b => negb ((b.1.1 =? getRow rg) && (b.1.2 =? getColumn rg)))
               (backgrounds sh)) sh).

(** [sheet.setName(n)]: refused when another sheet has that name. *)
Definition sheet_setName (h : nat) (n : string) : M unit :=
  fun w =>
    match findIndex (isNamed n) (delete h (sheets w)) with
    | Some _ => (Raise ServiceException, w)
    | None => modifySheet h (setSheetName n) w
    end.

(** [insertSheet()]: a new, blank sheet under a default name. *)
Definition insertSheet : M nat :=
  fun w =>
    (Ret (length (sheets w)),
     setSheets (fun ss => ss ++ [mkSheet (defaultSheetName (map getName ss)) [] []]) w).

(** [sheet.insertRows(rowIndex, n)]: [n] blank rows in front of row
    [rowIndex]; content and backgrounds from there on move down.  A call
    for no rows is refused. *)
Definition sheet_insertRows (h rowIndex n : nat) : M unit :=
  if (1 <=? rowIndex) && (1 <=? n)
  then modifySheet h
         (fun s => mkSheet (getName s)
            (take (rowIndex - 1) (grid s) ++ replicate n [] ++
             drop (rowIndex - 1) (grid s))
            (map (fun b => if rowIndex <=? b.1.1
                           then (b.1.1 + n, b.1.2, b.2) else b)
                 (backgrounds s)))
  else raise ServiceException.

Definition displayValue (v : value) : string :=
  match v with
  | Str s => s
  | Num q => displayNumber q
  end.

(** [sheet.createTextFinder(text).findNext()] on a new finder with its
    default options (no match of the entire cell, no match of the case):
    the first cell in reading order whose displayed text contains [text],
    whatever the case of the letters; null if there is none. *)
Definition containsText (text : string) (v : value) : bool :=
  negb (isBlank v) &&
  includesStr (toLowerCase text) (toLowerCase (displayValue v)).

Definition textFinder_findNext (h : nat) (text : string)
  : M (option range) :=
  s <- theSheet h ;;
  ret (option_map (fun rc => mkRange h rc.1 rc.2 1 1)
         (findCell (containsText text) (grid s) 1)).

(** *** do_get.gs: configuration and sheet access *)

Definition pdfId : string := substr0 4 (replaceFirst ".pdf" "" PDF_NAME).
Definition bucketUrl : string :=
  "https://storage.googleapis.com/" +:+ BUCKET_NAME +:+ "/".
Definition imageUrl : string := bucketUrl +:+ pdfId +:+ "-images/%%page%%.png".

Definition getSheet : M (option nat) := getSheetByName pdfId.

(** The range has one row; [getValues()[0]] is that row. *)
Definition getHeaderList : M (list value) :=
  sheet <- getSheet ;;
  match sheet with
  | None => raise TypeError
  | Some h =>
      lc <- sheet_getLastColumn h ;;
      rg <- sheet_getRange h 1 1 1 lc ;;
      vals <- range_getValues rg ;;
      match vals with
      | row :: _ => ret row
      | [] => raise TypeError
      end
  end.

Definition getImageUrl : M string :=
  Logger_log "Image URL returned." ;;; ret imageUrl.

(** *** downloadLabels *)

(** [authFetch(url, objectSource)]: the headers are built first, from the
    access token of [storageService], then the request is sent. *)
Definition authFetch (u : string) (objectSource : option string)
  : M response :=
  match storageService with
  | None => raise ReferenceError
  | Some token =>
      let rq :=
        match objectSource with
        | None => mkRequest u "GET" [("Authorization", "Bearer " +:+ token)]
        | Some src =>
            mkRequest u "PUT" [("Authorization", "Bearer " +:+ token);
                               ("x-goog-copy-source", src)]
        end in
      fun w => (Ret (UrlFetchApp_fetch rq),
                mkWorld (sheets w) (requests w ++ [rq]) (logs w))
  end.

(** [('000' + i).slice(-3)] *)
Definition batchSuffix (i : N) : string := sliceLast 3 ("000" +:+ decimal i).

Definition urlFeature (i : N) : string :=
  bucketUrl +:+ (pdfId +:+ "-" +:+ batchSuffix i) +:+ "-features.csv".
Definition urlLabel (i : N) : string :=
  bucketUrl +:+ (pdfId +:+ "-" +:+ batchSuffix i) +:+ "-labels.csv".

(** The loop [for (var i = 1; true; i += 100)], one iteration per unit of
    fuel; it ends by [break] with the text collected so far. *)
Fixpoint downloadLoop (fuel : nat) (i : N) (csv : string) : M string :=
  match fuel with
  | O => spin
  | S fuel' =>
      respFeature <- authFetch (urlFeature i) None ;;
      respLabel <- authFetch (urlLabel i) None ;;
      if (getResponseCode respLabel =? 200)%Z then
        downloadLoop fuel' (i + 100)%N (csv +:+ getContentText respLabel)
      else if (getResponseCode respFeature =? 200)%Z then
        downloadLoop fuel' (i + 100)%N (csv +:+ getContentText respFeature)
      else
        Logger_log (getContentText respLabel) ;;;
        Logger_log (getContentText respFeature) ;;;
        ret csv
  end.

(** The callback of [labelData.map]: push the synthesized label. *)
Definition pushLabel (x : list string) : outcome (list string) :=
  match x !! 1 with
  | Some text => Ret (x ++ [if 100 <? strlen text then "body" else "other"])
  | None => Raise TypeError
  end.

Fixpoint mapRows (f : list string -> outcome (list string))
  (rows : list (list string)) : outcome (list (list string)) :=
  match rows with
  | [] => Ret []
  | x :: rows' =>
      obind (f x) (fun x' => obind (mapRows f rows') (fun r => Ret (x' :: r)))
  end.

(** The reconciliation step: add a 'label' column if it does not exist. *)
Definition addLabelColumn (labelData : list (list string))
  : outcome (list (list string)) :=
  match labelData with
  | [] => Raise TypeError
  | header :: _ =>
      if negb (includes "label" header) then
        obind (mapRows pushLabel labelData) (fun rows =>
          match rows with
          | header' :: rest =>
              Ret (<[length header' - 1 := "label"]> header' :: rest)
          | [] => Ret []
          end)
      else Ret labelData
  end.

(** The synchronisation step, in the two parts the source marks: rename
    the old sheet if needed; create the new sheet and fill it with the label
    data. *)
Definition archiveOldSheet : M unit :=
  oldSheet <- getSheet ;;
  match oldSheet with
  | Some h =>
      old <- theSheet h ;;
      sheet_setName h (getName old +:+ ".old." +:+ toLocaleTimeString)
  | None => ret tt
  end.

Definition fillNewSheet (labelData : list (list string)) : M unit :=
  sheet <- insertSheet ;;
  sheet_setName sheet pdfId ;;;
  sheet_insertRows sheet 1 (length labelData) ;;;
  match labelData with
  | [] => raise TypeError
  | header :: _ =>
      rg <- sheet_getRange sheet 1 1 (length labelData) (length header) ;;
      range_setValues rg labelData
  end ;;;
  Logger_log "Labels CSV downloaded.".

Definition syncSheet (labelData : list (list string)) : M unit :=
  archiveOldSheet ;;; fillNewSheet labelData.

Definition Utilities_parseCsv (csv : string) : M (list (list string)) :=
  match parseCsv csv with
  | Some rows => ret rows
  | None => raise ServiceException
  end.

Definition downloadLabels (fuel : nat) : M unit :=
  csv <- downloadLoop fuel 1%N "" ;;
  labelData <- Utilities_parseCsv csv ;;
  labelData <- liftO (addLabelColumn labelData) ;;
  syncSheet labelData.

(** *** updateLabel *)

Definition updateLabel (id label : string) : M unit :=
  sheet <- getSheet ;;
  match sheet with
  | None => raise TypeError
  | Some h =>
      idRange <- textFinder_findNext h id ;;
      match idRange with
      | None => raise TypeError
      | Some idRange =>
          let idRow := getRow idRange in
          headerList <- getHeaderList ;;
          let labelColumn := (indexOf "label" headerList + 1)%Z in
          sheet' <- getSheet ;;
          match sheet' with
          | None => raise TypeError
          | Some h' =>
              labelRange <- sheet_getRange h' idRow (Z.to_nat labelColumn) 1 1 ;;
              range_setValue labelRange label ;;;
              range_setBackground labelRange "wheat"
          end
      end
  end.

(** *** buildParaDictFromSheet and getParaDict *)

Definition propertyKey (v : value) : string :=
  match v with
  | Str s => s
  | Num q => NumberToString q
  end.

(** [for (var i in row) features[headerList[i]] = row[i]] *)
Fixpoint fillFeatures (headerList : list value) (i : nat) (row : list value)
  (features : obj value) : obj value :=
  match row with
  | [] => features
  | v :: row' =>
      let key := match headerList !! i with
                 | Some h => propertyKey h
                 | None => "undefined"
                 end in
      fillFeatures headerList (S i) row' (assignProp key v features)
  end.

Definition toNumber (v : option value) : option Q :=
  match v with
  | Some (Num q) => Some q
  | Some (Str s) => StringToNumber s
  | None => None
  end.

(** [a < b] *)
Definition lessThan (a b : option value) : bool :=
  match a, b with
  | Some (Str s), Some (Str t) => String.ltb s t
  | _, _ =>
      match toNumber a, toNumber b with
      | Some x, Some y => Qltb x y
      | _, _ => false
      end
  end.

(** [a == b] *)
Definition looseEq (a b : option value) : bool :=
  match a, b with
  | None, None => true
  | Some (Str s), Some (Str t) => String.eqb s t
  | Some _, Some _ =>
      match toNumber a, toNumber b with
      | Some x, Some y => Qeq_bool x y
      | _, _ => false
      end
  | _, _ => false
  end.

(** The comparator of the sort by area. *)
Definition byArea (a b : obj value) : Z :=
  if lessThan (getProp "area" a) (getProp "area" b) then 1%Z
  else if looseEq (getProp "area" a) (getProp "area" b) then 0%Z
  else (-1)%Z.

Record buildState : Type := mkBuildState {
  paraDict : obj (list (obj value));
  pageCount : N;
  paraCount : N
}.

(** The callback of [vals.forEach]. *)
Definition addRow (headerList : list value) (st : buildState)
  (row : list value) : outcome buildState :=
  let features := fillFeatures headerList 0 row [] in
  match getProp "id" features with
  | Some (Str id) =>
      match matchId id with
      | None => Ret st
      | Some (pdfName, page, para) =>
          let st1 :=
            match getProp page (paraDict st) with
            | Some _ => st
            | None =>
                mkBuildState (setProp page [] (paraDict st))
                  (pageCount st + 1)%N (paraCount st)
            end in
          let pushed := default [] (getProp page (paraDict st1)) ++ [features] in
          Ret (mkBuildState (setProp page (sort byArea pushed) (paraDict st1))
                 (pageCount st1) (paraCount st1 + 1)%N)
      end
  | _ => Raise TypeError
  end.

Fixpoint forEachRow (headerList : list value) (vals : list (list value))
  (st : buildState) : outcome buildState :=
  match vals with
  | [] => Ret st
  | row :: vals' =>
      obind (addRow headerList st row) (forEachRow headerList vals')
  end.

Definition builtMessage (st : buildState) : string :=
  "Built paraDict with " +:+ decimal (pageCount st) +:+ " pages, " +:+
  decimal (paraCount st) +:+ " paragraphs.".

Definition buildParaDictFromSheet : M (obj (list (obj value))) :=
  sheet <- getSheet ;;
  headerList <- getHeaderList ;;
  match sheet with
  | None => raise TypeError
  | Some h =>
      lr <- sheet_getLastRow h ;;
      lc <- sheet_getLastColumn h ;;
      rg <- sheet_getRange h 2 1 lr lc ;;
      vals <- range_getValues rg ;;
      st <- liftO (forEachRow headerList vals (mkBuildState [] 0 0)) ;;
      Logger_log (builtMessage st) ;;;
      ret (paraDict st)
  end.

(** Returns the dictionary as a JSON string, [None] for null. *)
Definition getParaDict : M (option string) :=
  sheet <- getSheet ;;
  match sheet with
  | None =>
      Logger_log ("The sheet for " +:+ pdfId +:+ " is not available") ;;;
      ret None
  | Some _ =>
      paraDict <- buildParaDictFromSheet ;;
      Logger_log "paraDict returned." ;;;
      ret (Some (JSON_stringify paraDict))
  end.
End Script.

(** *** do_get.js: the variant without the features fallback and without
    the reconciliation step; everything else is the same code. *)
Module DoGetJs.
Section Variant.
Context `{Host}.

Definition fetchMuted (u : string) : M response :=
  let rq := mkRequest u "GET" [] in
  fun w => (Ret (UrlFetchApp_fetch rq),
            mkWorld (sheets w) (requests w ++ [rq]) (logs w)).

Fixpoint downloadLoop (fuel : nat) (i : N) (csv : string) : M string :=
  match fuel with
  | O => spin
  | S fuel' =>
      resp <- fetchMuted (urlLabel i) ;;
      if (getResponseCode resp =? 200)%Z then
        downloadLoop fuel' (i + 100)%N (csv +:+ getContentText resp)
      else ret csv
  end.

Definition downloadLabels (fuel : nat) : M unit :=
  csv <- downloadLoop fuel 1%N "" ;;
  labelData <- Utilities_parseCsv csv ;;
  syncSheet labelData.
End Variant.
End DoGetJs.

(** ** A concrete host

    A small host on which the script can be run: integers for numbers, CSV
    without quoting, a storage given as a function of the URL.  The
    document is "abcd.pdf", so that the document id is "abcd". *)
Module Demo.

Fixpoint digitsValue (s : string) (acc : N) : N :=
  match s with
  | EmptyString => acc
  | String c s' => digitsValue s' (10 * acc + (N_of_ascii c - 48))%N
  end.

Definition parseNat (s : string) : option N :=
  match s with
  | EmptyString => None
  | _ => if allChars isDigit s then Some (digitsValue s 0%N) else None
  end.

Definition numberOfString (s : string) : option Q :=
  option_map (fun n => inject_Z (Z.of_N n)) (parseNat s).

Definition stringOfNumber (q : Q) : string :=
  decimal (Z.to_N (Qnum q / Zpos (Qden q))).

Definition cellOfText (s : string) : value :=
  match numberOfString s with
  | Some q => Num q
  | None => Str s
  end.

Fixpoint splitOn (sep : ascii) (s : string) : list string :=
  match s with
  | EmptyString => [EmptyString]
  | String c s' =>
      if Ascii.eqb c sep then EmptyString :: splitOn sep s'
      else match splitOn sep s' with
           | h :: t => String c h :: t
           | [] => [String c EmptyString]
           end
  end.

Definition csvRows (csv : string) : list (list string) :=
  map (splitOn ",")
      (filter (fun l => l ≠ EmptyString) (splitOn (ascii_of_nat 10) csv)).

Definition quote (s : string) : string :=
  String (ascii_of_nat 34) (s +:+ String (ascii_of_nat 34) EmptyString).

Fixpoint joinWith (sep : string) (l : list string) : string :=
  match l with
  | [] => EmptyString
  | [x] => x
  | x :: l' => x +:+ sep +:+ joinWith sep l'
  end.

Definition jsonValue (v : value) : string :=
  match v with
  | Num q => stringOfNumber q
  | Str s => quote s
  end.

Definition jsonObject {V} (f : V -> string) (o : obj V) : string :=
  "{" +:+ joinWith "," (map (fun kv => quote kv.1 +:+ ":" +:+ f kv.2) o) +:+ "}".

Definition jsonDict (d : obj (list (obj value))) : string :=
  jsonObject (fun l => "[" +:+ joinWith "," (map (jsonObject jsonValue) l) +:+ "]") d.

Definition host (storage : string -> response) : Host := {|
  PDF_NAME := "abcd.pdf";
  BUCKET_NAME := "bucket";
  NumberToString := stringOfNumber;
  StringToNumber := numberOfString;
  JSON_stringify := jsonDict;
  toLocaleTimeString := "10:15:30 AM";
  UrlFetchApp_fetch := fun rq => storage (url rq);
  storageService := Some "token";
  parseCsv := fun csv => Some (csvRows csv);
  cellOfString := cellOfText;
  displayNumber := stringOfNumber;
  defaultSheetName := fun names => "Sheet" +:+ decimal (N.of_nat (S (length names)))
|}.

Definition notFound : response := mkResponse 404 "NoSuchKey".

(** A bucket that holds nothing. *)
Definition emptyBucket (u : string) : response := notFound.

(** A bucket with the labels of batch 1 and the features of batch 101. *)
Definition twoBatches (u : string) : response :=
  if String.eqb u "https://storage.googleapis.com/bucket/abcd-001-labels.csv"
  then mkResponse 200 ("id,text,area,label" +:+ String (ascii_of_nat 10)
                       ("abcd-3-1,Chapter one,50,other" +:+ String (ascii_of_nat 10) ""))
  else if String.eqb u "https://storage.googleapis.com/bucket/abcd-101-features.csv"
  then mkResponse 200 ("abcd-3-2,It was a dark night,200,body" +:+ String (ascii_of_nat 10) "")
  else notFound.

(** A bucket with the labels of the batches 1 and 101. *)
Definition labelBatches (u : string) : response :=
  if String.eqb u "https://storage.googleapis.com/bucket/abcd-001-labels.csv"
  then mkResponse 200 ("id,text,area,label" +:+ String (ascii_of_nat 10)
                       ("abcd-3-1,Chapter one,50,other" +:+ String (ascii_of_nat 10) ""))
  else if String.eqb u "https://storage.googleapis.com/bucket/abcd-101-labels.csv"
  then mkResponse 200 ("abcd-3-2,It was a dark night,200,body" +:+ String (ascii_of_nat 10) "")
  else notFound.

(** A bucket with the features of batch 1 only: no label column yet. *)
Definition featuresOnly (u : string) : response :=
  if String.eqb u "https://storage.googleapis.com/bucket/abcd-001-features.csv"
  then mkResponse 200 ("id,text,area" +:+ String (ascii_of_nat 10)
                       ("abcd-3-1,Chapter one,50" +:+ String (ascii_of_nat 10) ""))
  else notFound.

(** A bucket that answers every request with the same file. *)
Definition fullBucket (u : string) : response :=
  mkResponse 200 ("abcd-1-1,text,5,other" +:+ String (ascii_of_nat 10) "").

Definition noSheets : world := mkWorld [] [] [].

(** Two rows of label data, and a spreadsheet that already has a sheet
    for the document, with one label edited by hand. *)
Definition someRows : list (list string) :=
  [["id"; "text"; "area"; "label"]; ["abcd-3-1"; "Chapter one"; "50"; "other"]].

Definition currentSheet : sheet :=
  mkSheet "abcd"
    [[Str "id"; Str "text"; Str "area"; Str "label"];
     [Str "abcd-3-1"; Str "Chapter one"; Num 50; Str "body"]]
    [(2, 4, "wheat")].

Definition oneSheet : world := mkWorld [currentSheet] [] [].

(** The same spreadsheet after an earlier download at the same time of
    day: the archival name is taken. *)
Definition archivedSheet : sheet :=
  mkSheet "abcd.old.10:15:30 AM"
    [[Str "id"; Str "text"; Str "area"; Str "label"]] [].

Definition clashingSheets : world := mkWorld [currentSheet; archivedSheet] [] [].

(** A sheet in which paragraph 10 of page 1 stands above paragraph 1, as
    after sorting the sheet by area. *)
Definition sortedByArea : world :=
  mkWorld
    [mkSheet "abcd"
       [[Str "id"; Str "text"; Str "area"; Str "label"];
        [Str "abcd-1-10"; Str "A long paragraph"; Num 900; Str "body"];
        [Str "abcd-1-1"; Str "Page 1"; Num 20; Str "body"]]
       []]
    [] [].

(** The sheet of the specification's example: doc-3-1 (area 50), doc-3-2
    (area 200), doc-4-1 (area 10); the same with a row whose id is
    malformed_id; and a sheet that has no id column. *)
Definition record (id : string) (area : Z) : obj value :=
  [("id", Str id); ("area", Num (inject_Z area))].

Definition threeRecords : world :=
  mkWorld
    [mkSheet "abcd"
       [[Str "id"; Str "area"];
        [Str "doc-3-1"; Num 50];
        [Str "doc-3-2"; Num 200];
        [Str "doc-4-1"; Num 10]]
       []]
    [] [].

Definition withMalformed : world :=
  mkWorld
    [mkSheet "abcd"
       [[Str "id"; Str "area"];
        [Str "doc-3-1"; Num 50];
        [Str "malformed_id"; Num 70];
        [Str "doc-3-2"; Num 200];
        [Str "doc-4-1"; Num 10]]
       []]
    [] [].

Definition noIdColumn : world :=
  mkWorld
    [mkSheet "abcd" [[Str "name"; Str "area"]; [Str "doc-3-1"; Num 50]] []]
    [] [].

(** A sheet whose one id cell holds a number, and label data whose second
    row is shorter than the header. *)
Definition numericId : world :=
  mkWorld
    [mkSheet "abcd" [[Str "id"; Str "area"]; [Num 42; Num 50]] []]
    [] [].

Definition raggedRows : list (list string) :=
  [["id"; "text"; "area"; "label"]; ["abcd-3-1"; "Chapter one"]].

(** The same host in a script project that binds no global
    [storageService]. *)
Definition unbound (storage : string -> response) : Host := {|
  PDF_NAME := "abcd.pdf";
  BUCKET_NAME := "bucket";
  NumberToString := stringOfNumber;
  StringToNumber := numberOfString;
  JSON_stringify := jsonDict;
  toLocaleTimeString := "10:15:30 AM";
  UrlFetchApp_fetch := fun rq => storage (url rq);
  storageService := None;
  parseCsv := fun csv => Some (csvRows csv);
  cellOfString := cellOfText;
  displayNumber := stringOfNumber;
  defaultSheetName := fun names => "Sheet" +:+ decimal (N.of_nat (S (length names)))
|}.

(** A spreadsheet whose sheet for the document has its header row only. *)
Definition headerOnly : world :=
  mkWorld [mkSheet "abcd" [[Str "id"; Str "text"; Str "area"; Str "label"]] []]
    [] [].
End Demo.

(** ** Vocabulary of the statements *)

(** The three digits the batch suffix is made of. *)
Definition lastThreeDigits (i : N) : string :=
  String (digitChar ((i / 100) mod 10))
    (String (digitChar ((i / 10) mod 10))
       (String (digitChar (i mod 10)) "")).

(** The batch index of the iteration [k] of the loop: 1, 101, 201, ... *)
Definition batchIndex (k : nat) : N := (1 + 100 * N.of_nat k)%N.

Section LoaderVocabulary.
Context `{Host}.

(** The access token, when [storageService] is bound. *)
Definition accessToken : string := default "" storageService.
Definition tokenBound : Prop := storageService <> None.

(** The two requests of an iteration of do_get.gs and their answers. *)
Definition featureRequest (i : N) : request :=
  mkRequest (urlFeature i) "GET" [("Authorization", "Bearer " +:+ accessToken)].
Definition labelRequest (i : N) : request :=
  mkRequest (urlLabel i) "GET" [("Authorization", "Bearer " +:+ accessToken)].

Definition labelFound (i : N) : bool :=
  (getResponseCode (UrlFetchApp_fetch (labelRequest i)) =? 200)%Z.
Definition featureFound (i : N) : bool :=
  (getResponseCode (UrlFetchApp_fetch (featureRequest i)) =? 200)%Z.

(** A batch is present when its labels file or its features file is. *)
Definition batchPresent (i : N) : bool := labelFound i || featureFound i.

(** The body a present batch contributes: the labels file, or else the
    features file. *)
Definition batchBody (i : N) : string :=
  if labelFound i then getContentText (UrlFetchApp_fetch (labelRequest i))
  else getContentText (UrlFetchApp_fetch (featureRequest i)).

(** The bodies and the requests of [k] iterations from index [i] on. *)
Fixpoint loadedText (i : N) (k : nat) : string :=
  match k with
  | O => ""
  | S k' => batchBody i +:+ loadedText (i + 100)%N k'
  end.

Fixpoint sentRequests (i : N) (k : nat) : list request :=
  match k with
  | O => []
  | S k' => featureRequest i :: labelRequest i :: sentRequests (i + 100)%N k'
  end.

(** The same for do_get.js, which asks for the labels file only. *)
Definition plainRequest (i : N) : request := mkRequest (urlLabel i) "GET" [].
Definition plainFound (i : N) : bool :=
  (getResponseCode (UrlFetchApp_fetch (plainRequest i)) =? 200)%Z.

Fixpoint plainText (i : N) (k : nat) : string :=
  match k with
  | O => ""
  | S k' => getContentText (UrlFetchApp_fetch (plainRequest i)) +:+
            plainText (i + 100)%N k'
  end.

Fixpoint plainRequests (i : N) (k : nat) : list request :=
  match k with
  | O => []
  | S k' => plainRequest i :: plainRequests (i + 100)%N k'
  end.
End LoaderVocabulary.

(** The label the reconciliation step synthesizes from the text field, and
    a data row with that label pushed. *)
Definition labelFor (text : string) : string :=
  if 100 <? strlen text then "body" else "other".

Definition withLabel (x : list string) : list string :=
  x ++ [labelFor (default "" (x !! 1))].

(** A row sequence [setValues] accepts: a header row with at least one
    cell and every row as long as the header row. *)
Definition rectangular (rows : list (list string)) : bool :=
  match rows with
  | [] => false
  | header :: _ =>
      (1 <=? length header) &&
      forallb (fun row => length row =? length header) rows
  end.

Section SheetVocabulary.
Context `{Host}.

(** The name the old sheet is archived under. *)
Definition archivalName : string :=
  pdfId +:+ ".old." +:+ toLocaleTimeString.

(** The sheet downloadLabels creates from the rows. *)
Definition newSheet (rows : list (list string)) : sheet :=
  mkSheet pdfId (map (map cellOfString) rows) [].
End SheetVocabulary.

(** A numeral: one digit or more.  A text without line break. *)
Definition isNumeral (s : string) : bool :=
  negb (String.eqb s "") && allChars isDigit s.

Definition noLineBreak (s : string) : bool :=
  allChars (fun c => negb (isLineTerminator c)) s.

(** An id of the form name-page-paragraph, for the page [page]. *)
Definition hasPage (id page : string) : Prop :=
  exists name para,
    id = name +:+ "-" +:+ page +:+ "-" +:+ para /\
    noLineBreak name = true /\ isNumeral page = true /\ isNumeral para = true.

Fixpoint dashes (s : string) : nat :=
  match s with
  | EmptyString => 0
  | String c s' => (if Ascii.eqb c "-" then 1 else 0) + dashes s'
  end.

(** The area of a record as a number, and the records that have one. *)
Definition areaOf (r : obj value) : Q :=
  match getProp "area" r with
  | Some (Num q) => q
  | _ => 0%Q
  end.

Definition numericArea (r : obj value) : Prop :=
  exists q, getProp "area" r = Some (Num q).

(** A record with a well-formed id of page [page] and a numeric area. *)
Definition wellFormedRecord (r : obj value) (page : string) : Prop :=
  (exists id, getProp "id" r = Some (Str id) /\ hasPage id page) /\
  numericArea r.

(** The records of a page, in the order they were met. *)
Definition onPage (page : string) (recs : list (obj value * string))
  : list (obj value) :=
  map fst (List.filter (fun rp => String.eqb rp.2 page) recs).

Definition descendingArea (l : list (obj value)) : Prop :=
  StronglySorted (fun a b => (areaOf b <= areaOf a)%Q) l.

Definition sameArea (q : Q) (r : obj value) : bool := Qeq_bool (areaOf r) q.

Section BuilderVocabulary.
Context `{Host}.

Definition featuresOf (headerList row : list value) : obj value :=
  fillFeatures headerList 0 row [].

(** The header and the data rows (rows 2 to the last row with content) of
    a sheet, as the builder reads them. *)
Definition sheetHeader (s : sheet) : list value :=
  map (fun j => cellAt (grid s) 1 (1 + j)) (seq 0 (gridLastColumn (grid s))).

Definition sheetDataRows (s : sheet) : list (list value) :=
  readRange (grid s) 2 1 (gridLastRow (grid s) - 1) (gridLastColumn (grid s)).

Definition headerHasId (headerList : list value) : Prop :=
  exists c, c ∈ headerList /\ propertyKey c = "id".

(** What the builder has in the bucket of a page after the records
    [recs]. *)
Definition bucketOf (page : string) (recs : list (obj value * string))
  : option (list (obj value)) :=
  match onPage page recs with
  | [] => None
  | l => Some (sort byArea l)
  end.

Definition emptyBuild : buildState := mkBuildState [] 0 0.

(** The property key the builder uses for column [j] of the header. *)
Definition keyAt (headerList : list value) (j : nat) : string :=
  match headerList !! j with
  | Some h => propertyKey h
  | None => "undefined"
  end.

(** A row whose id is text that the pattern does not match. *)
Definition unmatchedId (headerList row : list value) : bool :=
  match getProp "id" (featuresOf headerList row) with
  | Some (Str id) =>
      match matchId id with
      | None => true
      | Some _ => false
      end
  | _ => false
  end.

(** A row whose id is text. *)
Definition textId (headerList row : list value) : Prop :=
  exists id, getProp "id" (featuresOf headerList row) = Some (Str id).

(** The rows the builder reads: one row more than the data rows. *)
Definition sheetVals (s : sheet) : list (list value) :=
  readRange (grid s) 2 1 (gridLastRow (grid s)) (gridLastColumn (grid s)).

Definition logged (msg : string) (w : world) : world :=
  mkWorld (sheets w) (requests w) (logs w ++ [msg]).


(** The column updateLabel computes from the header. *)
Definition labelColumnOf (s : sheet) : nat :=
  Z.to_nat (indexOf "label" (sheetHeader s) + 1).
End BuilderVocabulary.

(** A text without full stop. *)
Definition noDot (s : string) : bool :=
  allChars (fun c => negb (Ascii.eqb c ".")) s.

(** A sheet as a download leaves it: its cells and its backgrounds as they
    were, its name as it was or with the archival ending. *)
Definition keptAs `{Host} (s s' : sheet) : Prop :=
  grid s' = grid s /\ backgrounds s' = backgrounds s /\
  (getName s' = getName s \/
   getName s' = getName s +:+ ".old." +:+ toLocaleTimeString).

(** A text that starts with a digit. *)
Definition startsWithDigit (s : string) : bool :=
  match s with
  | String c _ => isDigit c
  | EmptyString => false
  end.

(** The number of records in a paragraph dictionary. *)
Definition totalRecords (d : obj (list (obj value))) : nat :=
  sum_list (map (fun kv => length kv.2) d).

(** The counts of a build state are those of its dictionary, and the
    dictionary has one bucket, not empty, for each of its page numbers. *)
Definition countsAgree (st : buildState) : Prop :=
  pageCount st = N.of_nat (length (paraDict st)) /\
  paraCount st = N.of_nat (totalRecords (paraDict st)) /\
  NoDup (map fst (paraDict st)) /\
  Forall (fun kv => isNumeral kv.1 = true /\ kv.2 <> []) (paraDict st).

(** A world that differs from another by lines added to the log only. *)
Definition onlyLogs (w w' : world) : Prop :=
  sheets w' = sheets w /\ requests w' = requests w /\
  exists l, logs w' = logs w ++ l.

Section UpdateVocabulary.
Context `{Host}.

(** The sheet after updateLabel has written the label into row [r]: the
    cell of that row in the label column holds the label and has the wheat
    background. *)
Definition labelled (s : sheet) (r : nat) (label : string) : sheet :=
  mkSheet (getName s)
    (setCell r (labelColumnOf s) (cellOfString label) (grid s))
    ((r, labelColumnOf s, "wheat") ::
     filter (fun b => negb ((b.1.1 =? r) && (b.1.2 =? labelColumnOf s)))
            (backgrounds s)).
End UpdateVocabulary.

(** The rows the reconciliation step hands on. *)
Definition reconciled (parsed : list (list string)) : list (list string) :=
  match parsed with
  | header :: rest =>
      if includes "label" header then parsed
      else (header ++ ["label"]) :: map withLabel rest
  | [] => []
  end.

(** Rows the reconciliation step completes on: the header row has a label
    column, or else a cell at column index 1. *)
Definition labelledOrWide (parsed : list (list string)) : bool :=
  match parsed with
  | header :: _ => includes "label" header || (2 <=? length header)
  | [] => false
  end.

(** The sheets after the old sheet of the document, if there is one, has
    got its archival name. *)
Definition archived `{Host} (ss : list sheet) : list sheet :=
  match findIndex (isNamed pdfId) ss with
  | Some h => alter (setSheetName archivalName) h ss
  | None => ss
  end.

(** The page number the builder reads off the id of a record. *)
Definition pageOf (r : obj value) : string :=
  match getProp "id" r with
  | Some (Str id) =>
      match matchId id with
      | Some (_, page, _) => page
      | None => ""
      end
  | _ => ""
  end.

(** Records no two of which have the same area. *)
Definition distinctAreas (l : list (obj value)) : Prop :=
  ForallOrdPairs (fun a b => ~ (areaOf a == areaOf b)%Q) l.

(** * Properties *)

(** ** Strings and numerals *)

Example decimal_examples :
  decimal 0 = "0" /\ decimal 7 = "7" /\ decimal 101 = "101" /\
  decimal 1001 = "1001" /\ decimal 123456789 = "123456789".
Proof. repeat split; reflexivity. Qed.

Example batchSuffix_examples :
  batchSuffix 1 = "001" /\ batchSuffix 101 = "101" /\ batchSuffix 901 = "901" /\
  batchSuffix 1001 = "001".
Proof. repeat split; reflexivity. Qed.

Example pdfId_example : @pdfId (Demo.host Demo.emptyBucket) = "abcd".
Proof. reflexivity. Qed.

Example matchId_examples :
  matchId "doc-3-1" = Some ("doc", "3", "1") /\
  matchId "my-doc-12-34" = Some ("my-doc", "12", "34") /\
  matchId "doc-3-1-2-5" = Some ("doc-3-1", "2", "5") /\
  matchId "doc-3-1x" = Some ("doc", "3", "1") /\
  matchId "malformed_id" = None /\ matchId "" = None.
Proof. repeat split; reflexivity. Qed.

Example sort_example :
  sort (fun a b => if (a <? b)%Z then 1 else if (a =? b)%Z then 0 else -1)%Z
       [50; 200; 10; 200]%Z = [200; 200; 50; 10]%Z.
Proof. reflexivity. Qed.

Lemma app_String (c : ascii) (s t : string) :
  String c s +:+ t = String c (s +:+ t).
Proof. reflexivity. Qed.

Lemma app_empty_l (s : string) : "" +:+ s = s.
Proof. reflexivity. Qed.

Lemma app_assoc_str (s t u : string) : (s +:+ t) +:+ u = s +:+ (t +:+ u).
Proof.
  induction s as [|c s IH]; [reflexivity|].
  rewrite !app_String. now rewrite IH.
Qed.

Lemma strlen_app (s t : string) : strlen (s +:+ t) = strlen s + strlen t.
Proof.
  induction s as [|c s IH]; [reflexivity|].
  rewrite app_String. unfold strlen in *. simpl. now rewrite IH.
Qed.

Lemma dropStr_app (s t : string) : dropStr (strlen s) (s +:+ t) = t.
Proof.
  induction s as [|c s IH].
  - rewrite app_empty_l. now destruct t.
  - rewrite app_String. unfold strlen in *. simpl. exact IH.
Qed.

Lemma sliceLast_app (n : nat) (s t : string) :
  strlen t = n -> sliceLast n (s +:+ t) = t.
Proof.
  intros Ht. unfold sliceLast. rewrite strlen_app, Ht.
  replace (strlen s + n - n) with (strlen s) by lia.
  apply dropStr_app.
Qed.

Lemma decimalAux_acc (f : nat) : forall (n : N) (acc : string),
  decimalAux f n acc = decimalAux f n "" +:+ acc.
Proof.
  induction f as [|f IH]; intros n acc; [reflexivity|].
  simpl. destruct (n / 10 =? 0)%N; [reflexivity|].
  rewrite IH. rewrite (IH _ (String _ "")).
  now rewrite app_assoc_str.
Qed.

Lemma log2_fuel (n : N) (k : nat) :
  (2 ^ N.of_nat k <= n)%N -> exists m, N.to_nat (N.log2 n) = k + m.
Proof.
  intros Hle.
  assert (Hk : (N.of_nat k <= N.log2 n)%N).
  { rewrite <- (N.log2_pow2 (N.of_nat k)) by lia. now apply N.log2_le_mono. }
  exists (N.to_nat (N.log2 n) - k). lia.
Qed.

Lemma decimal_suffix (i : N) :
  exists pre, "000" +:+ decimal i = pre +:+ lastThreeDigits i.
Proof.
  unfold decimal, lastThreeDigits.
  destruct (N.eqb_spec (i / 10) 0) as [H1|H1].
  { exists "0". simpl. rewrite H1. simpl.
    replace (i / 100)%N with 0%N; [reflexivity|].
    symmetry. apply N.div_small. apply N.div_small_iff in H1; lia. }
  assert (Hi : (10 <= i)%N).
  { destruct (N.le_gt_cases 10 i) as [|Hlt]; [assumption|].
    apply N.div_small in Hlt. contradiction. }
  destruct (log2_fuel i 2) as [m Hm]; [simpl; lia|].
  rewrite Hm. simpl.
  destruct (N.eqb_spec (i / 10) 0) as [|_]; [contradiction|].
  replace (i / 10 / 10)%N with (i / 100)%N
    by (rewrite N.Div0.div_div; reflexivity).
  destruct (N.eqb_spec (i / 100) 0) as [H2|H2].
  { exists "00". rewrite H2. reflexivity. }
  replace (i / 100 / 10)%N with (i / 1000)%N
    by (rewrite N.Div0.div_div; reflexivity).
  destruct (N.eqb_spec (i / 1000) 0) as [H3|H3].
  { exists "000". reflexivity. }
  rewrite decimalAux_acc.
  exists ("000" +:+ decimalAux m (i / 1000) "").
  now rewrite app_assoc_str.
Qed.

Lemma app_empty_r (s : string) : s +:+ "" = s.
Proof. induction s as [|c s IH]; [reflexivity|]. now rewrite app_String, IH. Qed.

Lemma lastThreeDigits_period (i : N) :
  lastThreeDigits (i + 1000) = lastThreeDigits i.
Proof.
  unfold lastThreeDigits.
  replace ((i + 1000) / 100)%N with (i / 100 + 10)%N
    by (symmetry; apply (N.div_add i 10 100); lia).
  replace ((i + 1000) / 10)%N with (i / 10 + 100)%N
    by (symmetry; apply (N.div_add i 100 10); lia).
  replace ((i / 100 + 10) mod 10)%N with ((i / 100) mod 10)%N
    by (symmetry; apply (N.Div0.mod_add (i / 100) 1 10)).
  replace ((i / 10 + 100) mod 10)%N with ((i / 10) mod 10)%N
    by (symmetry; apply (N.Div0.mod_add (i / 10) 10 10)).
  replace ((i + 1000) mod 10)%N with (i mod 10)%N
    by (symmetry; apply (N.Div0.mod_add i 100 10)).
  reflexivity.
Qed.

Lemma lastThreeDigits_batch (k : nat) :
  lastThreeDigits (batchIndex k) =
  String (digitChar (N.of_nat k mod 10)) "01".
Proof.
  unfold lastThreeDigits, batchIndex.
  set (n := N.of_nat k).
  replace ((1 + 100 * n) / 100)%N with n.
  2:{ rewrite N.mul_comm, N.div_add by lia. reflexivity. }
  replace ((1 + 100 * n) / 10)%N with (10 * n)%N.
  2:{ replace (100 * n)%N with ((10 * n) * 10)%N by lia.
      rewrite N.div_add by lia. reflexivity. }
  replace ((10 * n) mod 10)%N with 0%N.
  2:{ rewrite N.mul_comm. symmetry. apply N.Div0.mod_mul. }
  replace ((1 + 100 * n) mod 10)%N with 1%N.
  2:{ replace (100 * n)%N with ((10 * n) * 10)%N by lia.
      rewrite N.Div0.mod_add. reflexivity. }
  reflexivity.
Qed.

Section LoaderFacts.
Context `{Host}.

Lemma batchSuffix_digits (i : N) : batchSuffix i = lastThreeDigits i.
Proof.
  unfold batchSuffix. destruct (decimal_suffix i) as [pre ->].
  now apply sliceLast_app.
Qed.

Lemma batchSuffix_period (i : N) : batchSuffix (i + 1000) = batchSuffix i.
Proof. rewrite !batchSuffix_digits. apply lastThreeDigits_period. Qed.

Lemma batchSuffix_batch (k : nat) :
  batchSuffix (batchIndex k) = String (digitChar (N.of_nat k mod 10)) "01".
Proof. rewrite batchSuffix_digits. apply lastThreeDigits_batch. Qed.

(** The requests of an iteration depend on its suffix only. *)
Lemma requests_by_suffix (i j : N) :
  batchSuffix i = batchSuffix j ->
  featureRequest i = featureRequest j /\ labelRequest i = labelRequest j /\
  plainRequest i = plainRequest j.
Proof.
  intros E. unfold featureRequest, labelRequest, plainRequest, urlFeature, urlLabel.
  now rewrite E.
Qed.

Lemma batchIndex_mod10 (k : nat) :
  batchSuffix (batchIndex k) = batchSuffix (batchIndex (k mod 10)).
Proof.
  rewrite !batchSuffix_batch. do 2 f_equal.
  rewrite Nat2N.inj_mod. change (N.of_nat 10) with 10%N.
  now rewrite N.Div0.mod_mod.
Qed.

Lemma batchIndex_next (i : N) (k : nat) :
  (i + 100 + 100 * N.of_nat k = i + 100 * N.of_nat (S k))%N.
Proof. lia. Qed.

(** One iteration of the loop of do_get.gs. *)
Lemma downloadLoop_step (fuel : nat) (i : N) (csv : string) (w : world) :
  tokenBound ->
  downloadLoop (S fuel) i csv w =
  let w' := mkWorld (sheets w)
              (requests w ++ [featureRequest i; labelRequest i]) (logs w) in
  if batchPresent i
  then downloadLoop fuel (i + 100)%N (csv +:+ batchBody i) w'
  else (Ret csv,
        mkWorld (sheets w) (requests w')
          (logs w ++ [getContentText (UrlFetchApp_fetch (labelRequest i));
                      getContentText (UrlFetchApp_fetch (featureRequest i))])).
Proof.
  intros Hbound.
  unfold batchPresent, batchBody, labelFound, featureFound,
    featureRequest, labelRequest, accessToken.
  cbn [downloadLoop]. unfold bind at 1. unfold authFetch at 1.
  unfold bind at 1. unfold authFetch at 1.
  unfold tokenBound in Hbound.
  destruct storageService as [token|]; [|congruence].
  cbn [sheets requests logs default from_option]. unfold id.
  rewrite <- (app_assoc (requests w)). cbn [app].
  set (rqF := mkRequest (urlFeature i) _ _). set (rqL := mkRequest (urlLabel i) _ _).
  destruct (getResponseCode (UrlFetchApp_fetch rqL) =? 200)%Z; cbn [orb];
    [reflexivity|].
  destruct (getResponseCode (UrlFetchApp_fetch rqF) =? 200)%Z; [reflexivity|].
  unfold bind, Logger_log, ret. cbn [sheets requests logs].
  now rewrite <- (app_assoc (logs w)).
Qed.

(** Without a bound [storageService] the first fetch raises. *)
Lemma downloadLoop_unbound (fuel : nat) (i : N) (csv : string) (w : world) :
  storageService = None ->
  downloadLoop (S fuel) i csv w = (Raise ReferenceError, w).
Proof.
  intros Hnone. cbn [downloadLoop]. unfold bind at 1. unfold authFetch at 1.
  now rewrite Hnone.
Qed.
End LoaderFacts.

(** ** The download loop *)

Section DownloadLoop.
Context `{Host}.

(** The loop runs through the present batches and ends at the first
    missing one, from any start index and with any text collected so
    far. *)
Lemma downloadLoop_runs (k : nat) : forall fuel i csv w,
  tokenBound ->
  (forall j, j < k -> batchPresent (i + 100 * N.of_nat j) = true) ->
  batchPresent (i + 100 * N.of_nat k) = false ->
  k < fuel ->
  downloadLoop fuel i csv w =
  (Ret (csv +:+ loadedText i k),
   mkWorld (sheets w) (requests w ++ sentRequests i (S k))
     (logs w ++
      [getContentText (UrlFetchApp_fetch (labelRequest (i + 100 * N.of_nat k)));
       getContentText (UrlFetchApp_fetch (featureRequest (i + 100 * N.of_nat k)))])).
Proof.
  induction k as [|k IH]; intros fuel i csv w Hbound Hpresent Hmissing Hfuel;
    (destruct fuel as [|fuel]; [lia|]);
    rewrite downloadLoop_step by assumption; cbn zeta.
  - replace (i + 100 * N.of_nat 0)%N with i in * by lia.
    rewrite Hmissing. cbn [loadedText sentRequests requests].
    now rewrite app_empty_r.
  - assert (H0 : batchPresent i = true).
    { specialize (Hpresent 0 ltac:(lia)).
      now replace (i + 100 * N.of_nat 0)%N with i in Hpresent by lia. }
    rewrite H0.
    rewrite (IH fuel (i + 100)%N).
    + cbn [sheets requests logs loadedText sentRequests].
      rewrite batchIndex_next, app_assoc_str.
      now rewrite <- (app_assoc (requests w)).
    + assumption.
    + intros j Hj. rewrite batchIndex_next. apply Hpresent. lia.
    + now rewrite batchIndex_next.
    + lia.
Qed.

(** With every batch present the loop is still running whatever the
    fuel. *)
Lemma downloadLoop_spins (fuel : nat) : forall i csv w,
  tokenBound ->
  (forall j, batchPresent (i + 100 * N.of_nat j) = true) ->
  fst (downloadLoop fuel i csv w) = Spin.
Proof.
  induction fuel as [|fuel IH]; intros i csv w Hbound Hall; [reflexivity|].
  rewrite downloadLoop_step by assumption; cbn zeta.
  assert (H0 : batchPresent i = true).
  { specialize (Hall 0). now replace (i + 100 * N.of_nat 0)%N with i in Hall by lia. }
  rewrite H0. apply IH; [assumption|].
  intros j. rewrite batchIndex_next. apply Hall.
Qed.

(** Whatever happens, the loop has sent the requests of some number of
    iterations, in order, and has touched no sheet. *)
Lemma downloadLoop_requests (fuel : nat) : forall i csv w,
  exists n,
    requests (snd (downloadLoop fuel i csv w)) = requests w ++ sentRequests i n /\
    sheets (snd (downloadLoop fuel i csv w)) = sheets w.
Proof.
  induction fuel as [|fuel IH]; intros i csv w.
  - exists 0. cbn. now rewrite app_nil_r.
  - destruct storageService as [token|] eqn:Htoken.
    2:{ rewrite downloadLoop_unbound by assumption.
        exists 0. cbn. now rewrite app_nil_r. }
    rewrite downloadLoop_step by (unfold tokenBound; congruence); cbn zeta.
    destruct (batchPresent i).
    + destruct (IH (i + 100)%N (csv +:+ batchBody i)
                  (mkWorld (sheets w)
                     (requests w ++ [featureRequest i; labelRequest i]) (logs w)))
        as [n [Hr Hs]].
      exists (S n). rewrite Hr, Hs. cbn [sheets requests sentRequests].
      now rewrite <- (app_assoc (requests w)).
    + exists 1. now cbn.
Qed.

Lemma batchPresent_by_suffix (i j : N) :
  batchSuffix i = batchSuffix j -> batchPresent i = batchPresent j.
Proof.
  intros E. destruct (requests_by_suffix i j E) as (Ef & El & _).
  unfold batchPresent, labelFound, featureFound. now rewrite Ef, El.
Qed.

Lemma sentRequests_batches (n : nat) : forall k0 rq,
  rq ∈ sentRequests (batchIndex k0) n ->
  exists k, k < 10 /\
    (rq = featureRequest (batchIndex k) \/ rq = labelRequest (batchIndex k)).
Proof.
  induction n as [|n IH]; intros k0 rq Hin; cbn [sentRequests] in Hin.
  - now apply elem_of_nil in Hin.
  - destruct (requests_by_suffix _ _ (batchIndex_mod10 k0)) as (Ef & El & _).
    assert (Hlt : k0 mod 10 < 10) by (apply Nat.mod_upper_bound; lia).
    apply elem_of_cons in Hin as [->|Hin]; [exists (k0 mod 10); auto|].
    apply elem_of_cons in Hin as [->|Hin]; [exists (k0 mod 10); auto|].
    apply (IH (S k0)).
    replace (batchIndex (S k0)) with (batchIndex k0 + 100)%N
      by (unfold batchIndex; lia).
    exact Hin.
Qed.
End DownloadLoop.

Section DownloadLoopJs.
Context `{Host}.

Lemma js_downloadLoop_step (fuel : nat) (i : N) (csv : string) (w : world) :
  DoGetJs.downloadLoop (S fuel) i csv w =
  let w' := mkWorld (sheets w) (requests w ++ [plainRequest i]) (logs w) in
  if plainFound i
  then DoGetJs.downloadLoop fuel (i + 100)%N
         (csv +:+ getContentText (UrlFetchApp_fetch (plainRequest i))) w'
  else (Ret csv, w').
Proof.
  cbn [DoGetJs.downloadLoop]. unfold bind at 1. unfold DoGetJs.fetchMuted at 1.
  cbn [sheets requests logs]. unfold plainFound. fold (plainRequest i).
  now destruct (getResponseCode (UrlFetchApp_fetch (plainRequest i)) =? 200)%Z.
Qed.

(** do_get.js: the loop ends at the first index whose labels file is
    missing, with the bodies before it. *)
Lemma js_downloadLoop_runs (k : nat) : forall fuel i csv w,
  (forall j, j < k -> plainFound (i + 100 * N.of_nat j) = true) ->
  plainFound (i + 100 * N.of_nat k) = false ->
  k < fuel ->
  DoGetJs.downloadLoop fuel i csv w =
  (Ret (csv +:+ plainText i k),
   mkWorld (sheets w) (requests w ++ plainRequests i (S k)) (logs w)).
Proof.
  induction k as [|k IH]; intros fuel i csv w Hpresent Hmissing Hfuel;
    (destruct fuel as [|fuel]; [lia|]); rewrite js_downloadLoop_step; cbn zeta.
  - replace (i + 100 * N.of_nat 0)%N with i in * by lia.
    rewrite Hmissing. cbn [plainText plainRequests].
    now rewrite app_empty_r.
  - assert (H0 : plainFound i = true).
    { specialize (Hpresent 0 ltac:(lia)).
      now replace (i + 100 * N.of_nat 0)%N with i in Hpresent by lia. }
    rewrite H0.
    rewrite (IH fuel (i + 100)%N).
    + cbn [sheets requests logs plainText plainRequests].
      rewrite app_assoc_str.
      now rewrite <- (app_assoc (requests w)).
    + intros j Hj. rewrite batchIndex_next. apply Hpresent. lia.
    + now rewrite batchIndex_next.
    + lia.
Qed.

Lemma js_downloadLoop_spins (fuel : nat) : forall i csv w,
  (forall j, plainFound (i + 100 * N.of_nat j) = true) ->
  fst (DoGetJs.downloadLoop fuel i csv w) = Spin.
Proof.
  induction fuel as [|fuel IH]; intros i csv w Hall; [reflexivity|].
  rewrite js_downloadLoop_step; cbn zeta.
  assert (H0 : plainFound i = true).
  { specialize (Hall 0). now replace (i + 100 * N.of_nat 0)%N with i in Hall by lia. }
  rewrite H0. apply IH.
  intros j. rewrite batchIndex_next. apply Hall.
Qed.
Lemma js_downloadLoop_requests (fuel : nat) : forall i csv w,
  exists n,
    requests (snd (DoGetJs.downloadLoop fuel i csv w)) =
    requests w ++ plainRequests i n.
Proof.
  induction fuel as [|fuel IH]; intros i csv w.
  - exists 0. cbn. now rewrite app_nil_r.
  - rewrite js_downloadLoop_step; cbn zeta.
    destruct (plainFound i).
    + destruct (IH (i + 100)%N
                  (csv +:+ getContentText (UrlFetchApp_fetch (plainRequest i)))
                  (mkWorld (sheets w) (requests w ++ [plainRequest i]) (logs w)))
        as [n Hr].
      exists (S n). rewrite Hr. cbn [requests plainRequests].
      now rewrite <- (app_assoc (requests w)).
    + exists 1. now cbn.
Qed.

Lemma plainRequests_batches (n : nat) : forall k0 rq,
  rq ∈ plainRequests (batchIndex k0) n ->
  exists k, k < 10 /\ rq = plainRequest (batchIndex k).
Proof.
  induction n as [|n IH]; intros k0 rq Hin; cbn [plainRequests] in Hin.
  - now apply elem_of_nil in Hin.
  - destruct (requests_by_suffix _ _ (batchIndex_mod10 k0)) as (_ & _ & Ep).
    assert (Hlt : k0 mod 10 < 10) by (apply Nat.mod_upper_bound; lia).
    apply elem_of_cons in Hin as [->|Hin]; [exists (k0 mod 10); auto|].
    apply (IH (S k0)).
    replace (batchIndex (S k0)) with (batchIndex k0 + 100)%N
      by (unfold batchIndex; lia).
    exact Hin.
Qed.
End DownloadLoopJs.

(** The loader in a project that binds [storageService], and the loader of
    do_get.js.  It asks for the batches 1, 101, 201, ... in order (in
    do_get.gs the features file, then the labels file of each; in do_get.js
    the labels file), stops at the first batch of which no file answers 200,
    sends no request after those of that batch, and returns the bodies of
    the batches before it joined in batch order (in do_get.gs of each batch
    the labels file, or else the features file).  With batches 1 and 101
    present and batch 201 missing the text is the body of batch 1 followed
    by the body of batch 101. *)
Theorem downloadLoop_stops_at_first_missing_batch `{Host} :
  (tokenBound ->
   forall (k fuel : nat) (w : world),
      (forall j, j < k -> batchPresent (batchIndex j) = true) ->
      batchPresent (batchIndex k) = false ->
      k < fuel ->
      downloadLoop fuel 1 "" w =
      (Ret (loadedText 1 k),
       mkWorld (sheets w) (requests w ++ sentRequests 1 (S k))
         (logs w ++
          [getContentText (UrlFetchApp_fetch (labelRequest (batchIndex k)));
           getContentText (UrlFetchApp_fetch (featureRequest (batchIndex k)))]))) /\
  (tokenBound ->
   forall (fuel : nat) (w : world),
      batchPresent 1 = true -> batchPresent 101 = true ->
      batchPresent 201 = false -> 2 < fuel ->
      fst (downloadLoop fuel 1 "" w) = Ret (batchBody 1 +:+ batchBody 101)) /\
  (forall (k fuel : nat) (w : world),
      (forall j, j < k -> plainFound (batchIndex j) = true) ->
      plainFound (batchIndex k) = false ->
      k < fuel ->
      DoGetJs.downloadLoop fuel 1 "" w =
      (Ret (plainText 1 k),
       mkWorld (sheets w) (requests w ++ plainRequests 1 (S k)) (logs w))) /\
  (forall (fuel : nat) (w : world),
      plainFound 1 = true -> plainFound 101 = true ->
      plainFound 201 = false -> 2 < fuel ->
      fst (DoGetJs.downloadLoop fuel 1 "" w) =
      Ret (getContentText (UrlFetchApp_fetch (plainRequest 1)) +:+
           getContentText (UrlFetchApp_fetch (plainRequest 101)))).
Proof.
  split; [|split; [|split]].
  - intros Hbound k fuel w Hpresent Hmissing Hfuel.
    now rewrite (downloadLoop_runs k fuel 1%N "" w).
  - intros Hbound fuel w H1 H101 H201 Hfuel.
    rewrite (downloadLoop_runs 2 fuel 1%N "" w Hbound); [| |assumption|assumption].
    + cbn. now rewrite app_empty_r.
    + intros [|[|j]] Hj; [assumption|assumption|lia].
  - intros k fuel w Hpresent Hmissing Hfuel.
    now rewrite (js_downloadLoop_runs k fuel 1%N "" w).
  - intros fuel w H1 H101 H201 Hfuel.
    rewrite (js_downloadLoop_runs 2 fuel 1%N "" w); [| |assumption|assumption].
    + cbn. now rewrite app_empty_r.
    + intros [|[|j]] Hj; [assumption|assumption|lia].
Qed.

Lemma downloadLoop_stops_at_first_missing_batch_witness :
  fst (@downloadLoop (Demo.host Demo.twoBatches) 5 1 "" Demo.noSheets) =
  Ret (@batchBody (Demo.host Demo.twoBatches) 1 +:+
       @batchBody (Demo.host Demo.twoBatches) 101) /\
  fst (@DoGetJs.downloadLoop (Demo.host Demo.labelBatches) 5 1 "" Demo.noSheets) =
  Ret (getContentText (Demo.labelBatches
         "https://storage.googleapis.com/bucket/abcd-001-labels.csv") +:+
       getContentText (Demo.labelBatches
         "https://storage.googleapis.com/bucket/abcd-101-labels.csv")).
Proof.
  split.
  - apply (proj1 (proj2 (@downloadLoop_stops_at_first_missing_batch
                           (Demo.host Demo.twoBatches)))
             ltac:(discriminate) 5 Demo.noSheets);
      [vm_compute; reflexivity | vm_compute; reflexivity
      | vm_compute; reflexivity | lia].
  - apply (proj2 (proj2 (proj2 (@downloadLoop_stops_at_first_missing_batch
                                  (Demo.host Demo.labelBatches))))
             5 Demo.noSheets);
      [vm_compute; reflexivity | vm_compute; reflexivity
      | vm_compute; reflexivity | lia].
Defined.

(** C2, evaluated on the code.  authFetch of do_get.gs reads the global
    [storageService], and the script files bind no such global (doGet has a
    local variable of that name).  So with the labels files of batches 1 and
    101 in the bucket and none for batch 201, where the specification wants
    the two bodies joined, the loader of do_get.gs raises a ReferenceError at
    its first authFetch call: it has sent no request and returns no text,
    and downloadLabels ends with that error, the spreadsheet untouched.  On
    the same bucket the loader of do_get.js, which fetches without a token,
    asks for the labels files of batches 1, 101 and 201 in that order, for
    nothing else, and returns the body of batch 1 followed by the body of
    batch 101. *)
Theorem downloadLoop_raises_at_first_authFetch `{Host} (fuel : nat) (w : world) :
  storageService = None ->
  plainFound 1 = true -> plainFound 101 = true -> plainFound 201 = false ->
  2 < fuel ->
  downloadLoop fuel 1 "" w = (Raise ReferenceError, w) /\
  downloadLabels fuel w = (Raise ReferenceError, w) /\
  DoGetJs.downloadLoop fuel 1 "" w =
  (Ret (getContentText (UrlFetchApp_fetch (plainRequest 1)) +:+
        getContentText (UrlFetchApp_fetch (plainRequest 101))),
   mkWorld (sheets w)
     (requests w ++ [plainRequest 1; plainRequest 101; plainRequest 201])
     (logs w)).
Proof.
  intros Hnone H1 H101 H201 Hfuel.
  destruct fuel as [|fuel]; [lia|].
  pose proof (downloadLoop_unbound fuel 1%N "" w Hnone) as Hraise.
  split; [exact Hraise|]. split.
  - unfold downloadLabels. unfold bind at 1. now rewrite Hraise.
  - rewrite (js_downloadLoop_runs 2 (S fuel) 1%N "" w);
      [| |assumption|lia].
    + cbn. now rewrite app_empty_r.
    + intros [|[|j]] Hj; [assumption|assumption|lia].
Qed.

Lemma downloadLoop_raises_at_first_authFetch_witness :
  @downloadLoop (Demo.unbound Demo.labelBatches) 5 1 "" Demo.oneSheet =
    (Raise ReferenceError, Demo.oneSheet) /\
  @downloadLabels (Demo.unbound Demo.labelBatches) 5 Demo.oneSheet =
    (Raise ReferenceError, Demo.oneSheet) /\
  @DoGetJs.downloadLoop (Demo.unbound Demo.labelBatches) 5 1 "" Demo.oneSheet =
  (Ret (getContentText (Demo.labelBatches
          "https://storage.googleapis.com/bucket/abcd-001-labels.csv") +:+
        getContentText (Demo.labelBatches
          "https://storage.googleapis.com/bucket/abcd-101-labels.csv")),
   mkWorld [Demo.currentSheet]
     [mkRequest "https://storage.googleapis.com/bucket/abcd-001-labels.csv" "GET" [];
      mkRequest "https://storage.googleapis.com/bucket/abcd-101-labels.csv" "GET" [];
      mkRequest "https://storage.googleapis.com/bucket/abcd-201-labels.csv" "GET" []]
     []).
Proof.
  apply (@downloadLoop_raises_at_first_authFetch (Demo.unbound Demo.labelBatches)
           5 Demo.oneSheet);
    [reflexivity | vm_compute; reflexivity | vm_compute; reflexivity
    | vm_compute; reflexivity | lia].
Defined.

(** The loop of do_get.gs in a project that binds [storageService]: when
    the ten batches 1, 101, ..., 901 are all present the loop, and
    downloadLabels with it, is still running whatever the number of
    iterations allowed. *)
Lemma downloadLabels_spins `{Host} :
  tokenBound ->
  (forall k, k < 10 -> batchPresent (batchIndex k) = true) ->
  forall fuel w,
    fst (downloadLoop fuel 1 "" w) = Spin /\ fst (downloadLabels fuel w) = Spin.
Proof.
  intros Hbound Hten fuel w.
  assert (Hall : forall j, batchPresent (1 + 100 * N.of_nat j) = true).
  { intros j. rewrite (batchPresent_by_suffix _ (batchIndex (j mod 10))).
    - apply Hten. apply Nat.mod_upper_bound. lia.
    - apply (batchIndex_mod10 j). }
  pose proof (downloadLoop_spins fuel 1%N "" w Hbound Hall) as Hspin.
  split; [exact Hspin|].
  unfold downloadLabels, bind.
  destruct (downloadLoop fuel 1%N "" w) as [[csv| |] w']; cbn in *;
    [discriminate Hspin|discriminate Hspin|reflexivity].
Qed.

(** C9, evaluated on the code.  The file suffix of batch index i is the
    last three characters of "000" followed by the decimal numeral of i,
    that is the last three digits of i, so the suffix of i + 1000 is the
    suffix of i; batch index 1001 asks for the URLs of batch index 1; every
    request the loop sends is a request of one of the ten batches 1, 101,
    ..., 901, whose suffixes are 001, 101, ..., 901.  With those ten batches
    all present the loop of do_get.js, and its downloadLabels, is still
    running whatever the number of iterations allowed.  The loop of
    do_get.gs is not: authFetch reads the global [storageService], which the
    script files bind nowhere, so the first iteration raises a ReferenceError
    before any request and downloadLabels ends with it, whatever the bucket
    holds. *)
Theorem batch_suffix_wraps_around `{Host} :
  (forall i, batchSuffix i = sliceLast 3 ("000" +:+ decimal i) /\
             batchSuffix i = lastThreeDigits i) /\
  (forall i, batchSuffix (i + 1000) = batchSuffix i) /\
  (urlFeature 1001 = urlFeature 1 /\ urlLabel 1001 = urlLabel 1) /\
  (forall k, k < 10 ->
      batchSuffix (batchIndex k) = String (digitChar (N.of_nat k)) "01") /\
  (forall fuel w rq,
      rq ∈ requests (snd (downloadLoop fuel 1 "" w)) ->
      rq ∈ requests w \/
      exists k, k < 10 /\
        (rq = featureRequest (batchIndex k) \/ rq = labelRequest (batchIndex k))) /\
  (forall fuel w rq,
      rq ∈ requests (snd (DoGetJs.downloadLoop fuel 1 "" w)) ->
      rq ∈ requests w \/ exists k, k < 10 /\ rq = plainRequest (batchIndex k)) /\
  ((forall k, k < 10 -> plainFound (batchIndex k) = true) ->
   forall fuel w,
     fst (DoGetJs.downloadLoop fuel 1 "" w) = Spin /\
     fst (DoGetJs.downloadLabels fuel w) = Spin) /\
  (storageService = None ->
   forall fuel w,
     downloadLoop (S fuel) 1 "" w = (Raise ReferenceError, w) /\
     downloadLabels (S fuel) w = (Raise ReferenceError, w)).
Proof.
  assert (Hjs : (forall k, k < 10 -> plainFound (batchIndex k) = true) ->
                forall j, plainFound (1 + 100 * N.of_nat j) = true).
  { intros Hten j. unfold plainFound.
    destruct (requests_by_suffix _ _ (batchIndex_mod10 j)) as (_ & _ & E).
    change (1 + 100 * N.of_nat j)%N with (batchIndex j). rewrite E.
    apply Hten. apply Nat.mod_upper_bound. lia. }
  split; [|split; [|split; [|split; [|split; [|split; [|split]]]]]].
  - intros i. split; [reflexivity|apply batchSuffix_digits].
  - apply batchSuffix_period.
  - unfold urlFeature, urlLabel. change 1001%N with (1 + 1000)%N.
    now rewrite (batchSuffix_period 1).
  - intros k Hk. rewrite batchSuffix_batch. do 2 f_equal.
    apply N.mod_small. lia.
  - intros fuel w rq Hin.
    destruct (downloadLoop_requests fuel 1%N "" w) as [n [Hr _]].
    rewrite Hr in Hin. apply elem_of_app in Hin as [Hin|Hin]; [now left|right].
    now apply (sentRequests_batches n 0).
  - intros fuel w rq Hin.
    destruct (js_downloadLoop_requests fuel 1%N "" w) as [n Hr].
    rewrite Hr in Hin. apply elem_of_app in Hin as [Hin|Hin]; [now left|right].
    now apply (plainRequests_batches n 0).
  - intros Hten fuel w.
    pose proof (js_downloadLoop_spins fuel 1%N "" w (Hjs Hten)) as Hspin.
    split; [exact Hspin|].
    unfold DoGetJs.downloadLabels, bind.
    destruct (DoGetJs.downloadLoop fuel 1%N "" w) as [[csv| |] w']; cbn in *;
      [discriminate Hspin|discriminate Hspin|reflexivity].
  - intros Hnone fuel w.
    pose proof (downloadLoop_unbound fuel 1%N "" w Hnone) as Hraise.
    split; [exact Hraise|].
    unfold downloadLabels. unfold bind at 1. now rewrite Hraise.
Qed.

Lemma batch_suffix_wraps_around_witness :
  (fst (@DoGetJs.downloadLoop (Demo.unbound Demo.fullBucket) 40 1 "" Demo.noSheets) = Spin /\
   fst (@DoGetJs.downloadLabels (Demo.unbound Demo.fullBucket) 40 Demo.noSheets) = Spin) /\
  (@downloadLoop (Demo.unbound Demo.fullBucket) 40 1 "" Demo.noSheets =
     (Raise ReferenceError, Demo.noSheets) /\
   @downloadLabels (Demo.unbound Demo.fullBucket) 40 Demo.noSheets =
     (Raise ReferenceError, Demo.noSheets)).
Proof.
  split.
  - apply (proj1 (proj2 (proj2 (proj2 (proj2 (proj2 (proj2
             (@batch_suffix_wraps_around (Demo.unbound Demo.fullBucket))))))))).
    intros k Hk. vm_compute. reflexivity.
  - apply (proj2 (proj2 (proj2 (proj2 (proj2 (proj2 (proj2
             (@batch_suffix_wraps_around (Demo.unbound Demo.fullBucket))))))))
             eq_refl 39 Demo.noSheets).
Defined.

(** ** The reconciliation step *)

Lemma pushLabel_withLabel (x : list string) :
  2 <= length x -> pushLabel x = Ret (withLabel x).
Proof.
  intros Hlen. unfold pushLabel, withLabel, labelFor.
  destruct x as [|a [|text x]]; cbn in *; [lia|lia|reflexivity].
Qed.

Lemma mapRows_pushLabel (rows : list (list string)) :
  Forall (fun x => 2 <= length x) rows ->
  mapRows pushLabel rows = Ret (map withLabel rows).
Proof.
  induction 1 as [|x rows Hx _ IH]; [reflexivity|].
  cbn [mapRows map]. rewrite (pushLabel_withLabel x Hx). cbn [obind].
  now rewrite IH.
Qed.

Lemma insert_at_length {A} (l : list A) (v x : A) :
  <[length l := x]> (l ++ [v]) = l ++ [x].
Proof. induction l as [|a l IH]; [reflexivity|]. simpl. f_equal. exact IH. Qed.

Lemma insert_last {A} (l : list A) (v x : A) :
  <[length (l ++ [v]) - 1 := x]> (l ++ [v]) = l ++ [x].
Proof.
  rewrite length_app. cbn [length].
  replace (length l + 1 - 1) with (length l) by lia.
  apply insert_at_length.
Qed.

Lemma includes_true (s : string) (l : list string) :
  includes s l = true <-> s ∈ l.
Proof.
  unfold includes. rewrite existsb_exists. split.
  - intros (t & Hin & Heq). apply String.eqb_eq in Heq. subst.
    now apply list_elem_of_In.
  - intros Hin. exists s. split; [now apply list_elem_of_In|apply String.eqb_refl].
Qed.

Lemma mapRows_length (f : list string -> outcome (list string)) rows :
  forall rows', mapRows f rows = Ret rows' -> length rows' = length rows.
Proof.
  induction rows as [|x rows IH]; intros rows' E; cbn in E.
  - now inversion E.
  - destruct (f x) as [x'| |]; cbn in E; try discriminate.
    destruct (mapRows f rows) as [r| |]; cbn in E; try discriminate.
    inversion E. cbn. now rewrite (IH r).
Qed.

(** Whenever the step completes, the header it hands on has a 'label'
    column. *)
Lemma addLabelColumn_has_label (labelData rows : list (list string)) :
  addLabelColumn labelData = Ret rows ->
  exists header rest, rows = header :: rest /\ "label" ∈ header /\
                      length rows = length labelData.
Proof.
  unfold addLabelColumn. destruct labelData as [|header rest]; [discriminate|].
  destruct (includes "label" header) eqn:Hinc; cbn [negb].
  - intros E. inversion E. subst. exists header, rest.
    split; [reflexivity|]. split; [now apply includes_true|reflexivity].
  - destruct (mapRows pushLabel (header :: rest)) as [rs| |] eqn:Hmap;
      cbn [obind]; try discriminate.
    pose proof (mapRows_length _ _ _ Hmap) as Hlen.
    cbn [mapRows] in Hmap. unfold pushLabel at 1 in Hmap.
    destruct (header !! 1) as [text|]; cbn [obind] in Hmap; [|discriminate].
    destruct (mapRows pushLabel rest) as [r| |]; cbn [obind] in Hmap;
      try discriminate.
    inversion Hmap. subst rs. intros E. inversion E. subst rows.
    eexists _, r. split; [reflexivity|]. split.
    + rewrite insert_last. apply elem_of_app. right. apply list_elem_of_singleton.
      reflexivity.
    + cbn in *. lia.
Qed.

Lemma mapRows_pushLabel_inv (rows rs : list (list string)) :
  mapRows pushLabel rows = Ret rs ->
  rs = map withLabel rows /\ Forall (fun x => 2 <= length x) rows.
Proof.
  revert rs. induction rows as [|x rows IH]; intros rs E; cbn in E.
  - inversion E. split; [reflexivity|constructor].
  - unfold pushLabel at 1 in E.
    destruct (x !! 1) as [text|] eqn:Hx; cbn [obind] in E; [|discriminate].
    destruct (mapRows pushLabel rows) as [r| |]; cbn [obind] in E; try discriminate.
    destruct (IH r eq_refl) as [-> Hall]. inversion E. split.
    + cbn. f_equal. unfold withLabel, labelFor. now rewrite Hx.
    + constructor; [|exact Hall]. apply lookup_lt_Some in Hx. lia.
Qed.

(** The rows the step hands on, when the header has no label column. *)
Lemma addLabelColumn_adds (header : list string) (rest rows : list (list string)) :
  includes "label" header = false ->
  addLabelColumn (header :: rest) = Ret rows ->
  rows = (header ++ ["label"]) :: map withLabel rest /\ 2 <= length header.
Proof.
  intros Hno. unfold addLabelColumn. rewrite Hno. cbn [negb].
  destruct (mapRows pushLabel (header :: rest)) as [rs| |] eqn:Hmap;
    cbn [obind]; try discriminate.
  destruct (mapRows_pushLabel_inv _ _ Hmap) as [-> Hall].
  apply Forall_cons in Hall as [Hhd _]. cbn [map].
  unfold withLabel at 1 2. rewrite insert_last.
  intros E. now inversion E.
Qed.

(** C3, as the code has it.  For every parsed row sequence whose header
    row has no column named label and whose rows all have a cell at column
    index 1, the reconciliation step appends exactly one cell to every row:
    label to the header row and, to every data row, "body" if its cell at
    column index 1 is longer than 100 characters and "other" otherwise.  For
    every row sequence whose header row has a label column the step returns
    the rows unchanged. *)
Theorem addLabelColumn_reconciles :
  (forall (header : list string) (rest : list (list string)),
      includes "label" header = false ->
      Forall (fun x => 2 <= length x) (header :: rest) ->
      addLabelColumn (header :: rest) =
      Ret ((header ++ ["label"]) :: map withLabel rest)) /\
  (forall text,
      (labelFor text = "body" <-> 100 < strlen text) /\
      (labelFor text = "other" <-> strlen text <= 100)) /\
  (forall (header : list string) (rest : list (list string)),
      includes "label" header = true ->
      addLabelColumn (header :: rest) = Ret (header :: rest)).
Proof.
  split; [|split].
  - intros header rest Hno Hlen. unfold addLabelColumn. rewrite Hno. cbn [negb].
    rewrite (mapRows_pushLabel _ Hlen). cbn [obind map].
    unfold withLabel at 1. unfold withLabel at 1. now rewrite insert_last.
  - intros text. unfold labelFor.
    destruct (Nat.ltb_spec 100 (strlen text)); split; split;
      try discriminate; try lia; reflexivity.
  - intros header rest Hyes. unfold addLabelColumn. now rewrite Hyes.
Qed.

Lemma addLabelColumn_reconciles_witness :
  addLabelColumn [["id"; "text"]; ["abcd-1-1"; "Chapter one"]] =
  Ret [["id"; "text"; "label"]; ["abcd-1-1"; "Chapter one"; "other"]] /\
  addLabelColumn [["id"; "label"]; ["abcd-1-1"; "body"]] =
  Ret [["id"; "label"]; ["abcd-1-1"; "body"]].
Proof.
  split.
  - apply (proj1 addLabelColumn_reconciles ["id"; "text"] [["abcd-1-1"; "Chapter one"]]).
    + reflexivity.
    + repeat constructor.
  - apply (proj2 (proj2 addLabelColumn_reconciles) ["id"; "label"] [["abcd-1-1"; "body"]]).
    reflexivity.
Defined.

(** C3 as the specification states it fails on a row sequence with a row
    of one cell: reading the length of the missing cell at column index 1
    raises a TypeError, and no column is appended. *)
Lemma addLabelColumn_short_row_counterexample :
  includes "label" ["id"] = false /\
  addLabelColumn [["id"]; ["abcd-1-1"]] = Raise TypeError /\
  ~ (exists rows, addLabelColumn [["id"]; ["abcd-1-1"]] = Ret rows).
Proof.
  split; [reflexivity|]. split; [reflexivity|].
  intros [rows E]. discriminate E.
Qed.

(** ** Lists, grids and sheets *)

Lemma findIndex_None {A} (p : A -> bool) (l : list A) :
  findIndex p l = None <-> (forall x, x ∈ l -> p x = false).
Proof.
  induction l as [|a l IH]; cbn.
  - split; [|reflexivity]. intros _ x Hin. now apply elem_of_nil in Hin.
  - destruct (p a) eqn:Ha.
    + split; [discriminate|]. intros Hall.
      rewrite (Hall a) in Ha; [discriminate|]. apply elem_of_cons. now left.
    + destruct (findIndex p l) as [i|]; cbn.
      * split; [discriminate|]. intros Hall.
        assert (Hn : Some i = None); [|discriminate Hn].
        apply IH. intros x Hin. apply Hall. apply elem_of_cons. now right.
      * split; [|reflexivity]. intros _ x Hin.
        apply elem_of_cons in Hin as [->|Hin]; [assumption|].
        now apply IH.
Qed.

Lemma findIndex_Some {A} (p : A -> bool) (l : list A) : forall i,
  findIndex p l = Some i ->
  exists x, l !! i = Some x /\ p x = true /\
            forall j y, j < i -> l !! j = Some y -> p y = false.
Proof.
  induction l as [|a l IH]; intros i E; cbn in E; [discriminate|].
  destruct (p a) eqn:Ha.
  - inversion E. subst. exists a. split; [reflexivity|]. split; [assumption|].
    intros j y Hj. lia.
  - destruct (findIndex p l) as [k|]; cbn in E; [|discriminate].
    inversion E. subst. destruct (IH k eq_refl) as (x & Hx & Hp & Hbefore).
    exists x. split; [exact Hx|]. split; [exact Hp|].
    intros [|j] y Hj Hy; cbn in Hy.
    + now inversion Hy; subst.
    + apply (Hbefore j); [lia|assumption].
Qed.

Lemma findIndex_unique {A} (p : A -> bool) (l : list A) : forall i x,
  l !! i = Some x -> p x = true ->
  (forall j y, l !! j = Some y -> p y = true -> j = i) ->
  findIndex p l = Some i.
Proof.
  induction l as [|a l IH]; intros i x Hx Hp Huniq; [discriminate|].
  cbn. destruct (p a) eqn:Ha.
  - f_equal. now apply (Huniq 0 a).
  - destruct i as [|i]; cbn in Hx.
    + inversion Hx; subst. congruence.
    + rewrite (IH i x Hx Hp); [reflexivity|].
      intros j y Hy Hpy. specialize (Huniq (S j) y Hy Hpy). lia.
Qed.

Lemma elem_of_delete_other {A} (l : list A) (i j : nat) (y : A) :
  l !! j = Some y -> j <> i -> y ∈ delete i l.
Proof.
  intros Hy Hne. apply list_elem_of_lookup.
  destruct (Nat.lt_ge_cases j i) as [Hlt|Hge].
  - exists j. now rewrite list_lookup_delete_lt.
  - exists (j - 1). rewrite list_lookup_delete_ge by lia.
    now replace (S (j - 1)) with j by lia.
Qed.

Lemma elem_of_delete {A} (l : list A) (i : nat) (y : A) :
  y ∈ delete i l -> exists j, j <> i /\ l !! j = Some y.
Proof.
  intros Hin. apply list_elem_of_lookup in Hin as [k Hk].
  destruct (Nat.lt_ge_cases k i) as [Hlt|Hge].
  - exists k. rewrite list_lookup_delete_lt in Hk by assumption. split; [lia|assumption].
  - exists (S k). rewrite list_lookup_delete_ge in Hk by assumption. split; [lia|assumption].
Qed.

Lemma delete_last {A} (l : list A) (x : A) : delete (length l) (l ++ [x]) = l.
Proof. rewrite delete_middle. apply app_nil_r. Qed.

Lemma alter_last {A} (f : A -> A) (l : list A) (x : A) :
  alter f (length l) (l ++ [x]) = l ++ [f x].
Proof.
  rewrite alter_app_r_alt by lia. now replace (length l - length l) with 0 by lia.
Qed.

Lemma lastIndex_lookup {A} (p : A -> bool) (l : list A) : forall j x,
  l !! j = Some x -> p x = true -> j < lastIndex p l.
Proof.
  induction l as [|a l IH]; intros j x Hx Hp; [discriminate|].
  cbn. destruct j as [|j]; cbn in Hx.
  - inversion Hx; subst. rewrite Hp. destruct (lastIndex p l); lia.
  - specialize (IH j x Hx Hp). destruct (lastIndex p l); lia.
Qed.

Lemma gridLastColumn_lookup (g : list (list value)) (i j : nat) row v :
  g !! i = Some row -> row !! j = Some v -> isBlank v = false ->
  j < gridLastColumn g.
Proof.
  intros Hrow Hv Hnb. unfold gridLastColumn.
  assert (Hw : j < rowWidth row).
  { apply (lastIndex_lookup _ row j v Hv). now rewrite Hnb. }
  assert (Hin : rowWidth row ∈ map rowWidth g).
  { apply list_elem_of_In, in_map, list_elem_of_In.
    apply list_elem_of_lookup. now exists i. }
  apply max_list_elem_of_le in Hin. lia.
Qed.

Lemma gridLastRow_lookup (g : list (list value)) (i j : nat) row v :
  g !! i = Some row -> row !! j = Some v -> isBlank v = false ->
  i < gridLastRow g.
Proof.
  intros Hrow Hv Hnb. unfold gridLastRow.
  apply (lastIndex_lookup _ g i row Hrow).
  apply Nat.ltb_lt.
  assert (Hw : j < rowWidth row); [|lia].
  apply (lastIndex_lookup _ row j v Hv). now rewrite Hnb.
Qed.

(** Writing into a blank part of a grid: the cells come to stand one after
    the other. *)
Lemma setCell_fresh (r c : nat) (v : value) (g : list (list value)) pre :
  1 <= r -> 1 <= c -> g !! (r - 1) = Some pre -> length pre = c - 1 ->
  setCell r c v g = <[r - 1 := pre ++ [v]]> g.
Proof.
  intros Hr Hc Hrow Hlen. unfold setCell, padTo.
  assert (Hlt : r - 1 < length g) by (eapply lookup_lt_Some; eassumption).
  replace (r - length g) with 0 by lia. cbn [replicate]. rewrite app_nil_r.
  rewrite Hrow. replace (c - length pre) with 1 by lia. cbn [replicate].
  rewrite <- Hlen. now rewrite insert_at_length.
Qed.

Lemma writeRow_fresh (r : nat) (vs : list value) : forall c pre g,
  1 <= r -> 1 <= c -> g !! (r - 1) = Some pre -> length pre = c - 1 ->
  writeRow r c vs g = <[r - 1 := pre ++ vs]> g.
Proof.
  induction vs as [|v vs IH]; intros c pre g Hr Hc Hrow Hlen; cbn [writeRow].
  - rewrite app_nil_r. symmetry. now apply list_insert_id.
  - rewrite (setCell_fresh r c v g pre) by assumption.
    assert (Hlt : r - 1 < length g) by (eapply lookup_lt_Some; eassumption).
    rewrite (IH (S c) (pre ++ [v])).
    + rewrite list_insert_insert_eq. now rewrite <- app_assoc.
    + assumption.
    + lia.
    + now apply list_lookup_insert_eq.
    + rewrite length_app. cbn. lia.
Qed.

Lemma writeRows_fresh (data : list (list value)) : forall done,
  writeRows (S (length done)) 1 data (done ++ replicate (length data) []) =
  done ++ data.
Proof.
  induction data as [|vs data IH]; intros done; cbn [writeRows length replicate].
  - reflexivity.
  - rewrite (writeRow_fresh (S (length done)) vs 1 []); cbn; try lia.
    + replace (length done - 0) with (length done) by lia.
      rewrite insert_app_r_alt by lia.
      replace (length done - length done) with 0 by lia. cbn.
      specialize (IH (done ++ [vs])).
      rewrite length_app in IH. cbn in IH.
      replace (length done + 1) with (S (length done)) in IH by lia.
      rewrite <- !app_assoc in IH. exact IH.
    + replace (length done - 0) with (length done) by lia.
      now rewrite list_lookup_middle.
Qed.

Lemma indexOfFrom_found (s : string) (l : list value) : forall i,
  Str s ∈ l -> (i <= indexOfFrom s l i)%Z.
Proof.
  induction l as [|v l IH]; intros i Hin; [now apply elem_of_nil in Hin|].
  cbn. destruct (strictEqStr s v) eqn:Hv; [lia|].
  apply elem_of_cons in Hin as [<-|Hin].
  - cbn in Hv. now rewrite String.eqb_refl in Hv.
  - specialize (IH (i + 1)%Z Hin). lia.
Qed.

Lemma app_str_id (s t : string) : s +:+ t = s -> t = "".
Proof.
  induction s as [|c s IH]; [now rewrite app_empty_l|].
  rewrite app_String. intros E. injection E as E. now apply IH.
Qed.

Lemma readRow_all (row : list value) :
  map (fun j => default blank (row !! j)) (seq 0 (length row)) = row.
Proof.
  apply list_eq. intros j.
  change (map ?f ?l) with (f <$> l). rewrite list_lookup_fmap.
  destruct (Nat.lt_ge_cases j (length row)) as [Hlt|Hge].
  - rewrite lookup_seq_lt by assumption. cbn.
    destruct (lookup_lt_is_Some_2 row j Hlt) as [v Hv]. now rewrite Hv.
  - rewrite lookup_seq_ge by assumption. cbn. symmetry.
    now apply lookup_ge_None.
Qed.

(** Reading back the rectangle a grid fills gives the grid. *)
Lemma readRange_all (g : list (list value)) (m : nat) :
  Forall (fun row => length row = m) g ->
  readRange g 1 1 (length g) m = g.
Proof.
  intros Hall. unfold readRange. apply list_eq. intros i.
  change (map ?f ?l) with (f <$> l). rewrite list_lookup_fmap.
  destruct (Nat.lt_ge_cases i (length g)) as [Hlt|Hge].
  - rewrite lookup_seq_lt by assumption. cbn.
    destruct (lookup_lt_is_Some_2 g i Hlt) as [row Hrow]. rewrite Hrow.
    f_equal. unfold cellAt. replace (S i - 1) with i by lia. rewrite Hrow.
    rewrite Forall_forall in Hall.
    rewrite <- (Hall row) by (apply list_elem_of_lookup; now exists i).
    cbn. rewrite <- (readRow_all row) at 2.
    apply map_ext. intros j. now replace (j - 0) with j by lia.
  - rewrite lookup_seq_ge by assumption. cbn. symmetry.
    now apply lookup_ge_None.
Qed.

(** ** The synchronisation step *)

Section Sync.
Context `{Host}.

Lemma modifySheet_run (h : nat) (f : sheet -> sheet) (w : world) :
  modifySheet h f w =
  (Ret tt, mkWorld (alter f h (sheets w)) (requests w) (logs w)).
Proof. reflexivity. Qed.

Lemma insertSheet_run (w : world) :
  insertSheet w =
  (Ret (length (sheets w)),
   mkWorld (sheets w ++ [mkSheet (defaultSheetName (map getName (sheets w))) [] []])
     (requests w) (logs w)).
Proof. reflexivity. Qed.

Lemma sheet_setName_run (h : nat) (n : string) (w : world) :
  sheet_setName h n w =
  match findIndex (isNamed n) (delete h (sheets w)) with
  | Some _ => (Raise ServiceException, w)
  | None =>
      (Ret tt, mkWorld (alter (setSheetName n) h (sheets w)) (requests w) (logs w))
  end.
Proof. reflexivity. Qed.

Lemma archiveOldSheet_run (w : world) :
  archiveOldSheet w =
  match findIndex (isNamed pdfId) (sheets w) with
  | None => (Ret tt, w)
  | Some h =>
      match sheets w !! h with
      | None => (Raise ServiceException, w)
      | Some old =>
          let n := getName old +:+ ".old." +:+ toLocaleTimeString in
          match findIndex (isNamed n) (delete h (sheets w)) with
          | Some _ => (Raise ServiceException, w)
          | None =>
              (Ret tt,
               mkWorld (alter (setSheetName n) h (sheets w)) (requests w) (logs w))
          end
      end
  end.
Proof.
  unfold archiveOldSheet, bind, getSheet, getSheetByName.
  fold (isNamed pdfId). destruct (findIndex (isNamed pdfId) (sheets w)) as [h|];
    [|reflexivity].
  unfold theSheet. destruct (sheets w !! h) as [old|]; [|reflexivity].
  now rewrite sheet_setName_run.
Qed.

(** With no sheet named like the document and rows that form a rectangle,
    the second part adds the new sheet, filled with the rows. *)
Lemma fillNewSheet_ok (rows : list (list string)) (w : world) :
  findIndex (isNamed pdfId) (sheets w) = None ->
  rectangular rows = true ->
  fillNewSheet rows w =
  (Ret tt, mkWorld (sheets w ++ [newSheet rows]) (requests w)
             (logs w ++ ["Labels CSV downloaded."])).
Proof.
  intros Hfree Hrect.
  unfold fillNewSheet. unfold bind at 1. rewrite insertSheet_run.
  unfold bind at 1. rewrite sheet_setName_run. cbn [sheets requests logs].
  rewrite delete_last, Hfree, alter_last.
  destruct rows as [|header rest]; [discriminate|].
  cbn [rectangular] in Hrect. apply andb_true_iff in Hrect as [Hhd Hall].
  unfold bind at 1. unfold sheet_insertRows. cbn [length Nat.leb andb].
  rewrite modifySheet_run. cbn [sheets requests logs].
  rewrite alter_last.
  unfold bind at 1. unfold bind at 1.
  unfold sheet_getRange. rewrite Hhd. cbn [Nat.leb andb ret].
  unfold range_setValues.
  cbn [getNumRows getNumColumns rangeSheet getRow getColumn].
  rewrite Nat.eqb_refl. rewrite Hall. cbn [andb].
  rewrite modifySheet_run. cbn [sheets requests logs].
  rewrite alter_last.
  unfold Logger_log. cbn [sheets requests logs].
  unfold setSheetGrid, setSheetName, newSheet.
  cbn [getName grid backgrounds map take drop app Nat.sub].
  rewrite app_nil_r.
  pose proof (writeRows_fresh (map (map cellOfString) (header :: rest)) []) as Hw.
  cbn [length app] in Hw. rewrite length_map in Hw. cbn [length] in Hw.
  cbn [map] in Hw |- *. rewrite Hw. reflexivity.
Qed.

(** In every other case the second part raises, with one sheet added. *)
Lemma fillNewSheet_ko (rows : list (list string)) (w : world) :
  findIndex (isNamed pdfId) (sheets w) <> None \/ rectangular rows = false ->
  exists e x,
    fillNewSheet rows w =
    (Raise e, mkWorld (sheets w ++ [x]) (requests w) (logs w)).
Proof.
  intros Hko.
  unfold fillNewSheet. unfold bind at 1. rewrite insertSheet_run.
  unfold bind at 1. rewrite sheet_setName_run. cbn [sheets requests logs].
  rewrite delete_last.
  destruct (findIndex (isNamed pdfId) (sheets w)) as [k|] eqn:Hfree;
    [do 2 eexists; reflexivity|].
  destruct Hko as [Hko|Hrect]; [congruence|].
  rewrite alter_last.
  destruct rows as [|header rest]; [do 2 eexists; reflexivity|].
  cbn [rectangular] in Hrect.
  unfold bind at 1. unfold sheet_insertRows. cbn [length Nat.leb andb].
  rewrite modifySheet_run. cbn [sheets requests logs].
  rewrite alter_last.
  unfold bind at 1. unfold bind at 1.
  unfold sheet_getRange.
  destruct (1 <=? length header) eqn:Hhd; cbn [Nat.leb andb];
    [|do 2 eexists; reflexivity].
  cbn [andb] in Hrect. cbn [ret].
  unfold range_setValues.
  cbn [getNumRows getNumColumns rangeSheet getRow getColumn].
  rewrite Nat.eqb_refl, Hrect. do 2 eexists; reflexivity.
Qed.

(** In every case the second part adds one sheet and touches no other; it
    completes only in the case of [fillNewSheet_ok]. *)
Lemma fillNewSheet_adds (rows : list (list string)) (w : world) :
  (exists x, sheets (snd (fillNewSheet rows w)) = sheets w ++ [x]) /\
  (fst (fillNewSheet rows w) = Ret tt ->
   findIndex (isNamed pdfId) (sheets w) = None /\ rectangular rows = true).
Proof.
  destruct (findIndex (isNamed pdfId) (sheets w)) as [k|] eqn:Hfree.
  { destruct (fillNewSheet_ko rows w) as (e & x & ->);
      [left; congruence|]. cbn. split; [eauto|discriminate]. }
  destruct (rectangular rows) eqn:Hrect.
  { rewrite (fillNewSheet_ok rows w Hfree Hrect). cbn. split; eauto. }
  destruct (fillNewSheet_ko rows w) as (e & x & ->); [now right|].
  cbn. split; [eauto|discriminate].
Qed.

Lemma archivalName_differs (n t : string) : n +:+ ".old." +:+ t <> n.
Proof. intros E. apply app_str_id in E. discriminate E. Qed.

Lemma isNamed_true (n : string) (s : sheet) : isNamed n s = true <-> getName s = n.
Proof. apply String.eqb_eq. Qed.

Lemma isNamed_false (n : string) (s : sheet) : isNamed n s = false <-> getName s <> n.
Proof. apply String.eqb_neq. Qed.

(** After the old sheet is renamed no sheet carries the document's name. *)
Lemma renamed_free (ss : list sheet) (h : nat) (old : sheet) (n : string) :
  NoDup (map getName ss) -> ss !! h = Some old -> getName old = pdfId ->
  n <> pdfId ->
  findIndex (isNamed pdfId) (alter (setSheetName n) h ss) = None.
Proof.
  intros Hnodup Hold Hname Hn. apply findIndex_None. intros x Hin.
  apply list_elem_of_lookup in Hin as [i Hi]. apply isNamed_false.
  destruct (Nat.eq_dec i h) as [->|Hne].
  - rewrite list_lookup_alter_eq, Hold in Hi. cbn in Hi. inversion Hi. now cbn.
  - rewrite list_lookup_alter_ne in Hi by congruence.
    intros Hx. apply Hne.
    apply (NoDup_lookup (map getName ss) i h pdfId Hnodup);
      change (map ?f ?l) with (f <$> l); rewrite list_lookup_fmap.
    + now rewrite Hi; cbn; rewrite Hx.
    + now rewrite Hold; cbn; rewrite Hname.
Qed.
End Sync.

Section SyncFacts.
Context `{Host}.

Lemma syncSheet_ok (w : world) (rows : list (list string)) (h : nat) (old : sheet) :
  NoDup (map getName (sheets w)) ->
  findIndex (isNamed pdfId) (sheets w) = Some h ->
  sheets w !! h = Some old ->
  (forall s, s ∈ sheets w -> getName s <> archivalName) ->
  rectangular rows = true ->
  syncSheet rows w =
  (Ret tt,
   mkWorld (alter (setSheetName archivalName) h (sheets w) ++ [newSheet rows])
     (requests w) (logs w ++ ["Labels CSV downloaded."])) /\
  findIndex (isNamed pdfId) (alter (setSheetName archivalName) h (sheets w)) = None.
Proof.
  intros Hnodup Hfind Hold Hfree Hrect.
  destruct (findIndex_Some _ _ _ Hfind) as (old' & Hold' & Hname & _).
  rewrite Hold in Hold'. inversion Hold'. subst old'. apply isNamed_true in Hname.
  assert (Hren : findIndex (isNamed pdfId)
                   (alter (setSheetName archivalName) h (sheets w)) = None).
  { apply (renamed_free _ h old); try assumption. apply archivalName_differs. }
  split; [|exact Hren].
  unfold syncSheet. unfold bind at 1. rewrite archiveOldSheet_run, Hfind, Hold.
  cbn zeta. rewrite Hname. fold archivalName.
  replace (findIndex (isNamed archivalName) (delete h (sheets w))) with (@None nat).
  - now rewrite fillNewSheet_ok.
  - symmetry. apply findIndex_None. intros x Hin. apply isNamed_false.
    apply elem_of_delete in Hin as (j & _ & Hj).
    apply Hfree. apply list_elem_of_lookup. now exists j.
Qed.

(** The step never removes a sheet nor touches the content of one that was
    there: a sheet keeps its place, its cells and its backgrounds, and
    either its name or its name with the archival ending. *)
Lemma syncSheet_keeps_sheets (w : world) (rows : list (list string)) (i : nat) s :
  sheets w !! i = Some s ->
  exists s', sheets (snd (syncSheet rows w)) !! i = Some s' /\
             grid s' = grid s /\ backgrounds s' = backgrounds s /\
             (getName s' = getName s \/
              getName s' = getName s +:+ ".old." +:+ toLocaleTimeString).
Proof.
  intros Hs.
  assert (Hadd : forall w1, sheets w1 !! i = Some s ->
            sheets (snd (fillNewSheet rows w1)) !! i = Some s).
  { intros w1 H1. destruct (fillNewSheet_adds rows w1) as [[x ->] _].
    rewrite lookup_app_l; [assumption|]. eapply lookup_lt_Some; eassumption. }
  unfold syncSheet. unfold bind at 1. rewrite archiveOldSheet_run.
  destruct (findIndex (isNamed pdfId) (sheets w)) as [h|].
  2:{ exists s. destruct (fillNewSheet rows w) as [o w2] eqn:E.
      specialize (Hadd w Hs). rewrite E in Hadd. cbn in *. auto. }
  destruct (sheets w !! h) as [old|] eqn:Hold; [|exists s; cbn; auto].
  cbn zeta.
  destruct (findIndex _ (delete h (sheets w))); [exists s; cbn; auto|].
  set (w1 := mkWorld _ _ _).
  assert (H1 : exists s', sheets w1 !! i = Some s' /\
             grid s' = grid s /\ backgrounds s' = backgrounds s /\
             (getName s' = getName s \/
              getName s' = getName s +:+ ".old." +:+ toLocaleTimeString)).
  { subst w1. cbn [sheets]. destruct (Nat.eq_dec i h) as [->|Hne].
    - rewrite list_lookup_alter_eq, Hs. cbn. eexists. split; [reflexivity|].
      rewrite Hs in Hold. inversion Hold. subst. cbn. auto.
    - rewrite list_lookup_alter_ne by congruence. exists s. auto. }
  destruct H1 as (s' & Hs' & Hprops). exists s'. split; [|exact Hprops].
  destruct (fillNewSheet rows w1) as [o w2] eqn:E.
  destruct (fillNewSheet_adds rows w1) as [[x Hx] _]. rewrite E in Hx. cbn in Hx |- *.
  rewrite Hx, lookup_app_l; [assumption|]. eapply lookup_lt_Some; eassumption.
Qed.
End SyncFacts.

(** C4, as the code has it.  For every spreadsheet (sheet names distinct,
    as the service keeps them) in which a sheet named like the document
    exists and no sheet has the archival name yet, and for every row
    sequence that forms a rectangle, the synchronisation step completes; it
    leaves exactly one sheet named like the document, the new one, which
    holds the rows from row 1, column 1 on; the old sheet stands in its
    place under the archival name.  In every case, also when the step
    raises, no sheet is deleted and no cell of an existing sheet changes. *)
Theorem syncSheet_archives_old_sheet `{Host} :
  (forall (w : world) (rows : list (list string)) (h : nat) (old : sheet),
      NoDup (map getName (sheets w)) ->
      findIndex (isNamed pdfId) (sheets w) = Some h ->
      sheets w !! h = Some old ->
      (forall s, s ∈ sheets w -> getName s <> archivalName) ->
      rectangular rows = true ->
      let after := alter (setSheetName archivalName) h (sheets w) ++ [newSheet rows] in
      syncSheet rows w =
        (Ret tt, mkWorld after (requests w) (logs w ++ ["Labels CSV downloaded."])) /\
      (forall i s, after !! i = Some s -> getName s = pdfId ->
                   i = length (sheets w) /\ s = newSheet rows) /\
      after !! length (sheets w) = Some (newSheet rows) /\
      after !! h = Some (setSheetName archivalName old) /\
      readRange (grid (newSheet rows)) 1 1 (length rows) (length (hd [] rows)) =
        map (map cellOfString) rows) /\
  (forall (w : world) (rows : list (list string)) (i : nat) (s : sheet),
      sheets w !! i = Some s ->
      exists s', sheets (snd (syncSheet rows w)) !! i = Some s' /\
                 grid s' = grid s /\ backgrounds s' = backgrounds s /\
                 (getName s' = getName s \/
                  getName s' = getName s +:+ ".old." +:+ toLocaleTimeString)).
Proof.
  split; [|intros w rows i s; apply syncSheet_keeps_sheets].
  intros w rows h old Hnodup Hfind Hold Hfree Hrect after.
  destruct (syncSheet_ok w rows h old Hnodup Hfind Hold Hfree Hrect) as [Hrun Hren].
  assert (Hlen : length (alter (setSheetName archivalName) h (sheets w)) =
                 length (sheets w)) by apply length_alter.
  split; [exact Hrun|]. split; [|split; [|split]].
  - intros i s Hi Hname. subst after.
    destruct (Nat.lt_total i (length (sheets w))) as [Hlt|[->|Hgt]].
    + rewrite lookup_app_l in Hi by lia.
      rewrite findIndex_None in Hren.
      assert (Hno : isNamed pdfId s = false).
      { apply Hren. apply list_elem_of_lookup. now exists i. }
      apply isNamed_false in Hno. contradiction.
    + rewrite <- Hlen, list_lookup_middle in Hi by reflexivity.
      inversion Hi. auto.
    + rewrite lookup_ge_None_2 in Hi; [discriminate|].
      rewrite length_app, Hlen. cbn. lia.
  - subst after. now rewrite <- Hlen, list_lookup_middle.
  - subst after. rewrite lookup_app_l.
    + now rewrite list_lookup_alter_eq, Hold.
    + rewrite Hlen. eapply lookup_lt_Some; eassumption.
  - unfold newSheet. cbn [grid].
    destruct rows as [|header rest]; [discriminate|].
    cbn [rectangular] in Hrect. apply andb_true_iff in Hrect as [_ Hall].
    rewrite <- (length_map (map cellOfString) (header :: rest)).
    cbn [hd]. rewrite <- (length_map cellOfString header).
    apply readRange_all.
    rewrite forallb_forall in Hall. apply Forall_forall. intros row Hin.
    apply list_elem_of_In, in_map_iff in Hin as (row0 & <- & Hin).
    rewrite !length_map. now apply Nat.eqb_eq, Hall.
Qed.

Lemma syncSheet_archives_old_sheet_witness :
  @syncSheet (Demo.host Demo.emptyBucket) Demo.someRows Demo.oneSheet =
  (Ret tt,
   mkWorld [mkSheet "abcd.old.10:15:30 AM" (grid Demo.currentSheet)
              (backgrounds Demo.currentSheet);
            mkSheet "abcd"
              [[Str "id"; Str "text"; Str "area"; Str "label"];
               [Str "abcd-3-1"; Str "Chapter one"; Num 50; Str "other"]] []]
     [] ["Labels CSV downloaded."]).
Proof.
  apply (proj1 (@syncSheet_archives_old_sheet (Demo.host Demo.emptyBucket))
           Demo.oneSheet Demo.someRows 0 Demo.currentSheet).
  - cbn. apply NoDup_singleton.
  - reflexivity.
  - reflexivity.
  - intros s Hin. apply list_elem_of_singleton in Hin. subst s.
    vm_compute. discriminate.
  - reflexivity.
Defined.

(** C4 as the specification states it fails when the archival name is
    taken, as after an earlier download at the same time of day: renaming
    the old sheet raises, no sheet is created, and the one sheet named like
    the document is still the old one.  It also fails on rows of unequal
    length: the old sheet is archived and the new sheet created and named,
    but writing the rows raises and the new sheet stays blank. *)
Lemma syncSheet_name_clash_counterexample :
  (findIndex (@isNamed (@pdfId (Demo.host Demo.emptyBucket)))
     (sheets Demo.clashingSheets) = Some 0 /\
   @syncSheet (Demo.host Demo.emptyBucket) Demo.someRows Demo.clashingSheets =
   (Raise ServiceException, Demo.clashingSheets) /\
   sheets Demo.clashingSheets !! 0 = Some Demo.currentSheet) /\
  @syncSheet (Demo.host Demo.emptyBucket) Demo.raggedRows Demo.oneSheet =
  (Raise ServiceException,
   mkWorld [mkSheet "abcd.old.10:15:30 AM" (grid Demo.currentSheet)
              (backgrounds Demo.currentSheet);
            mkSheet "abcd" [[]; []] []] [] []).
Proof. vm_compute. auto. Qed.

(** ** downloadLabels as a whole *)

Section DownloadLabels.
Context `{Host}.

(** What a completed run of downloadLabels went through. *)
Lemma downloadLabels_completed (fuel : nat) (w w' : world) :
  downloadLabels fuel w = (Ret tt, w') ->
  exists csv parsed rows w1 w2,
    downloadLoop fuel 1 "" w = (Ret csv, w1) /\
    parseCsv csv = Some parsed /\
    addLabelColumn parsed = Ret rows /\
    archiveOldSheet w1 = (Ret tt, w2) /\
    findIndex (isNamed pdfId) (sheets w2) = None /\
    rectangular rows = true /\
    w' = mkWorld (sheets w2 ++ [newSheet rows]) (requests w2)
           (logs w2 ++ ["Labels CSV downloaded."]).
Proof.
  unfold downloadLabels. unfold bind at 1.
  destruct (downloadLoop fuel 1 "" w) as [[csv| |] w1] eqn:Eloop; try discriminate.
  unfold bind at 1. unfold Utilities_parseCsv.
  destruct (parseCsv csv) as [parsed|] eqn:Ecsv; cbn [raise ret]; try discriminate.
  unfold bind at 1. unfold liftO.
  destruct (addLabelColumn parsed) as [rows| |] eqn:Eadd; try discriminate.
  unfold syncSheet. unfold bind at 1.
  destruct (archiveOldSheet w1) as [[[]| |] w2] eqn:Earch; try discriminate.
  intros Efill.
  destruct (fillNewSheet_adds rows w2) as [_ Hinv].
  rewrite Efill in Hinv. destruct (Hinv eq_refl) as [Hfree Hrect].
  rewrite (fillNewSheet_ok rows w2 Hfree Hrect) in Efill. inversion Efill.
  exists csv, parsed, rows, w1, w2. auto 10.
Qed.

(** When the first batch is missing and the parser turns the empty text
    into no rows, do_get.gs raises a TypeError on reading the header of the
    label data, before it touches a sheet. *)
Lemma downloadLabels_no_batch (fuel : nat) (w : world) :
  tokenBound -> parseCsv "" = Some [] -> batchPresent 1 = false -> 0 < fuel ->
  downloadLoop fuel 1 "" w =
    (Ret "", mkWorld (sheets w) (requests w ++ sentRequests 1 1)
               (logs w ++ [getContentText (UrlFetchApp_fetch (labelRequest 1));
                           getContentText (UrlFetchApp_fetch (featureRequest 1))])) /\
  fst (downloadLabels fuel w) = Raise TypeError /\
  sheets (snd (downloadLabels fuel w)) = sheets w.
Proof.
  intros Hbound Hcsv Hmissing Hfuel.
  pose proof (downloadLoop_runs 0 fuel 1%N "" w Hbound) as Hrun.
  change (1 + 100 * N.of_nat 0)%N with 1%N in Hrun.
  change ("" +:+ loadedText 1 0) with "" in Hrun.
  specialize (Hrun ltac:(intros j Hj; lia) Hmissing Hfuel).
  split; [exact Hrun|].
  assert (E : downloadLabels fuel w =
              (Raise TypeError, snd (downloadLoop fuel 1 "" w))).
  { unfold downloadLabels. unfold bind at 1. rewrite Hrun.
    unfold bind, Utilities_parseCsv. now rewrite Hcsv. }
  rewrite E, Hrun. auto.
Qed.

(** The same input in do_get.js: the old sheet is renamed and a blank
    sheet created and named before the run raises. *)
Lemma js_downloadLabels_no_batch (fuel : nat) (w : world) :
  parseCsv "" = Some [] -> plainFound 1 = false -> 0 < fuel ->
  exists e, fst (DoGetJs.downloadLabels fuel w) = Raise e.
Proof.
  intros Hcsv Hmissing Hfuel.
  pose proof (js_downloadLoop_runs 0 fuel 1%N "" w) as Hrun.
  change (1 + 100 * N.of_nat 0)%N with 1%N in Hrun.
  change ("" +:+ plainText 1 0) with "" in Hrun.
  specialize (Hrun ltac:(intros j Hj; lia) Hmissing Hfuel).
  unfold DoGetJs.downloadLabels. unfold bind at 1. rewrite Hrun.
  unfold bind at 1. unfold Utilities_parseCsv. rewrite Hcsv. cbn [ret].
  unfold syncSheet. unfold bind at 1.
  destruct (archiveOldSheet _) as [[[]| |] w2] eqn:Earch.
  - destruct (fillNewSheet_ko [] w2) as (e & x & ->); [now right|]. now exists e.
  - now exists e.
  - exfalso. rewrite archiveOldSheet_run in Earch.
    destruct (findIndex _ _); [|discriminate].
    destruct (_ !! _); [|discriminate]. cbn zeta in Earch.
    destruct (findIndex _ _); discriminate.
Qed.

(** The same whatever the parser makes of the empty text: no row, a row
    without cell, or a row of one empty cell. *)
Lemma downloadLabels_no_batch_any_parse (fuel : nat) (w : world) rows :
  tokenBound -> parseCsv "" = Some rows ->
  rows = [] \/ rows = [[]] \/ rows = [[""]] ->
  batchPresent 1 = false -> 0 < fuel ->
  fst (downloadLabels fuel w) = Raise TypeError.
Proof.
  intros Hbound Hcsv Hrows Hmissing Hfuel.
  pose proof (downloadLoop_runs 0 fuel 1%N "" w Hbound) as Hrun.
  change (1 + 100 * N.of_nat 0)%N with 1%N in Hrun.
  change ("" +:+ loadedText 1 0) with "" in Hrun.
  specialize (Hrun ltac:(intros j Hj; lia) Hmissing Hfuel).
  unfold downloadLabels. unfold bind at 1. rewrite Hrun.
  unfold bind, Utilities_parseCsv. rewrite Hcsv.
  now destruct Hrows as [->|[->| ->]].
Qed.

(** Without a bound [storageService] do_get.gs raises at the first
    fetch. *)
Lemma downloadLabels_unbound (fuel : nat) (w : world) :
  storageService = None -> 0 < fuel ->
  downloadLabels fuel w = (Raise ReferenceError, w).
Proof.
  intros Hnone Hfuel. destruct fuel as [|fuel]; [lia|].
  unfold downloadLabels. unfold bind at 1.
  now rewrite (downloadLoop_unbound fuel 1%N "" w Hnone).
Qed.
End DownloadLabels.

(** C6, evaluated on the code.  When the fetch of batch 1 fails the loader
    returns the empty text; with a parser that reads it as no rows at all,
    downloadLabels then raises a TypeError where the specification wants the
    empty row sequence handled without error. *)
Theorem downloadLabels_first_batch_missing `{Host} (fuel : nat) (w : world) :
  tokenBound -> parseCsv "" = Some [] -> batchPresent 1 = false -> 0 < fuel ->
  fst (downloadLoop fuel 1 "" w) = Ret "" /\
  fst (downloadLabels fuel w) = Raise TypeError /\
  sheets (snd (downloadLabels fuel w)) = sheets w.
Proof.
  intros Hbound Hcsv Hmissing Hfuel.
  destruct (downloadLabels_no_batch fuel w Hbound Hcsv Hmissing Hfuel)
    as (Hloop & Hraise & Hsheets).
  rewrite Hloop. auto.
Qed.

Lemma downloadLabels_first_batch_missing_witness :
  fst (@downloadLoop (Demo.host Demo.emptyBucket) 5 1 "" Demo.oneSheet) = Ret "" /\
  fst (@downloadLabels (Demo.host Demo.emptyBucket) 5 Demo.oneSheet) = Raise TypeError /\
  sheets (snd (@downloadLabels (Demo.host Demo.emptyBucket) 5 Demo.oneSheet)) =
  sheets Demo.oneSheet.
Proof.
  apply (@downloadLabels_first_batch_missing (Demo.host Demo.emptyBucket) 5 Demo.oneSheet);
    [discriminate | reflexivity | reflexivity | lia].
Defined.

Lemma lastIndex_le {A} (p : A -> bool) (l : list A) : lastIndex p l <= length l.
Proof.
  induction l as [|x l IH]; [reflexivity|].
  cbn [lastIndex length]. destruct (lastIndex p l); [destruct (p x)|]; lia.
Qed.

Lemma max_list_le (l : list nat) (n : nat) :
  (forall x, x ∈ l -> x <= n) -> max_list l <= n.
Proof.
  induction l as [|x l IH]; intros Hall; cbn [max_list]; [lia|].
  apply Nat.max_lub.
  - apply Hall, elem_of_cons. now left.
  - apply IH. intros y Hy. apply Hall, elem_of_cons. now right.
Qed.

(** No sheet is wider than its longest row. *)
Lemma gridLastColumn_le (g : list (list value)) (n : nat) :
  (forall row, row ∈ g -> length row <= n) -> gridLastColumn g <= n.
Proof.
  intros Hall. unfold gridLastColumn. apply max_list_le.
  intros x Hx. apply list_elem_of_fmap in Hx as (row & -> & Hrow).
  unfold rowWidth. pose proof (lastIndex_le (fun v => negb (isBlank v)) row).
  specialize (Hall row Hrow). lia.
Qed.

(** The header of a sheet is its first row as far as the last column with
    content. *)
Lemma sheetHeader_take (s : sheet) (row : list value) (rest : list (list value)) :
  grid s = row :: rest ->
  gridLastColumn (grid s) <= length row ->
  sheetHeader s = take (gridLastColumn (grid s)) row.
Proof.
  intros Hgrid Hle. unfold sheetHeader. rewrite Hgrid in *.
  set (n := gridLastColumn (row :: rest)) in *. clearbody n.
  apply list_eq. intros i. rewrite list_lookup_fmap.
  destruct (Nat.lt_ge_cases i n) as [Hlt|Hge].
  - rewrite lookup_seq_lt by assumption. cbn [fmap option_fmap option_map Nat.add].
    rewrite lookup_take_lt by assumption.
    destruct (lookup_lt_is_Some_2 row i ltac:(lia)) as [v Hv].
    unfold cellAt. cbn. replace (i - 0) with i by lia. now rewrite Hv.
  - rewrite lookup_seq_ge by assumption. cbn.
    symmetry. apply lookup_ge_None_2. rewrite length_take. lia.
Qed.

Section HeaderOfNewSheet.
Context `{Host}.

(** The rows of a created sheet are as long as its header row. *)
Lemma newSheet_width (header : list string) (rest : list (list string)) :
  rectangular (header :: rest) = true ->
  gridLastColumn (grid (newSheet (header :: rest))) <= length header.
Proof.
  intros Hrect. cbn [rectangular] in Hrect.
  apply andb_true_iff in Hrect as [_ Hall]. rewrite forallb_forall in Hall.
  apply gridLastColumn_le. intros row Hrow. cbn [newSheet grid] in Hrow.
  apply list_elem_of_fmap in Hrow as (x & -> & Hx).
  apply list_elem_of_In, Hall, Nat.eqb_eq in Hx. rewrite length_map. lia.
Qed.

(** Reading the header of the sheet named like the document, when its
    first row has a cell "label". *)
Lemma getHeaderList_label (w : world) (h : nat) (s : sheet) row rest :
  findIndex (isNamed pdfId) (sheets w) = Some h ->
  sheets w !! h = Some s ->
  grid s = row :: rest ->
  Str "label" ∈ row ->
  getHeaderList w = (Ret (sheetHeader s), w) /\ Str "label" ∈ sheetHeader s.
Proof.
  intros Hfind Hs Hgrid Hin.
  apply list_elem_of_lookup in Hin as [j Hj].
  assert (Hlc : j < gridLastColumn (grid s)).
  { apply (gridLastColumn_lookup (grid s) 0 j row (Str "label")); try assumption.
    - now rewrite Hgrid.
    - reflexivity. }
  split.
  - unfold getHeaderList, bind, getSheet, getSheetByName.
    fold (isNamed pdfId). rewrite Hfind.
    unfold sheet_getLastColumn, bind, theSheet. rewrite Hs. cbn [ret].
    unfold sheet_getRange.
    replace (1 <=? gridLastColumn (grid s)) with true
      by (symmetry; apply Nat.leb_le; lia).
    cbn [Nat.leb andb ret].
    unfold range_getValues, bind, theSheet. cbn [rangeSheet]. rewrite Hs.
    reflexivity.
  - apply list_elem_of_In, in_map_iff. exists j. split.
    + unfold cellAt. rewrite Hgrid. cbn.
      replace (j - 0) with j by lia. now rewrite Hj.
    + apply in_seq. lia.
Qed.
End HeaderOfNewSheet.

(** C10.  When downloadLabels of do_get.gs completes, the sheet named like
    the document is the sheet it created.  Its rows are the parsed rows when
    the parsed header row has a cell label (the column is carried over), and
    else the parsed rows with one cell appended to each: label to the header
    row, and the synthesized label to every data row.  The header row read
    from the sheet is that header row as far as the last column with
    content, all of it when the column was appended; it has a cell "label",
    and the column index updateLabel computes from it, indexOf('label') + 1,
    is positive.  (Sheets is taken to store the text "label" as that
    text.) *)
Theorem downloadLabels_sheet_has_label_column `{Host}
  (fuel : nat) (w w' : world) :
  cellOfString "label" = Str "label" ->
  downloadLabels fuel w = (Ret tt, w') ->
  exists csv header rest h headerList,
    fst (downloadLoop fuel 1 "" w) = Ret csv /\
    parseCsv csv = Some (header :: rest) /\
    getSheet w' = (Ret (Some h), w') /\
    sheets w' !! h =
      Some (newSheet (if includes "label" header then header :: rest
                      else (header ++ ["label"]) :: map withLabel rest)) /\
    getHeaderList w' = (Ret headerList, w') /\
    headerList `prefix_of`
      map cellOfString (if includes "label" header then header
                        else header ++ ["label"]) /\
    (includes "label" header = false ->
     headerList = map cellOfString (header ++ ["label"])) /\
    Str "label" ∈ headerList /\
    (0 < indexOf "label" headerList + 1)%Z.
Proof.
  intros Hlabel Hrun.
  destruct (downloadLabels_completed fuel w w' Hrun)
    as (csv & parsed & rows & w1 & w2 & Hloop & Hcsv & Hadd & _ & Hfree & Hrect & ->).
  destruct parsed as [|header rest]; [discriminate Hadd|].
  set (created := if includes "label" header then header :: rest
                  else (header ++ ["label"]) :: map withLabel rest).
  set (top := if includes "label" header then header else header ++ ["label"]).
  assert (Hrows : rows = created /\ exists below, created = top :: below /\ "label" ∈ top).
  { subst created top. destruct (includes "label" header) eqn:Hinc.
    - unfold addLabelColumn in Hadd. rewrite Hinc in Hadd. inversion Hadd.
      split; [reflexivity|]. exists rest. split; [reflexivity|].
      now apply includes_true.
    - destruct (addLabelColumn_adds header rest rows Hinc Hadd) as [-> _].
      split; [reflexivity|]. eexists. split; [reflexivity|].
      apply elem_of_app. right. now apply list_elem_of_singleton. }
  destruct Hrows as (-> & below & Hcreated & Hin).
  set (ss := sheets w2 ++ [newSheet created]).
  assert (Hnew : ss !! length (sheets w2) = Some (newSheet created)).
  { subst ss. now rewrite list_lookup_middle. }
  assert (Hfind : findIndex (isNamed pdfId) ss = Some (length (sheets w2))).
  { apply (findIndex_unique _ ss _ _ Hnew); [apply String.eqb_refl|].
    intros j y Hy Hnamed. subst ss.
    destruct (Nat.lt_ge_cases j (length (sheets w2))) as [Hlt|Hge].
    - rewrite lookup_app_l in Hy by assumption.
      rewrite findIndex_None in Hfree. rewrite Hfree in Hnamed; [discriminate|].
      apply list_elem_of_lookup. now exists j.
    - apply lookup_lt_Some in Hy. rewrite length_app in Hy. cbn in Hy. lia. }
  assert (Hgrid : grid (newSheet created) =
                  map cellOfString top :: map (map cellOfString) below).
  { now rewrite Hcreated. }
  assert (Hin' : Str "label" ∈ map cellOfString top).
  { rewrite <- Hlabel. apply list_elem_of_In, in_map, list_elem_of_In. exact Hin. }
  destruct (getHeaderList_label
              (mkWorld ss (requests w2) (logs w2 ++ ["Labels CSV downloaded."]))
              (length (sheets w2)) (newSheet created) _ _ Hfind Hnew Hgrid Hin')
    as (Hhead & Hmem).
  assert (Hwidth : gridLastColumn (grid (newSheet created)) <= length top).
  { rewrite Hcreated. apply newSheet_width. now rewrite <- Hcreated. }
  assert (Htake : sheetHeader (newSheet created) =
                  take (gridLastColumn (grid (newSheet created)))
                       (map cellOfString top)).
  { apply (sheetHeader_take _ _ _ Hgrid). now rewrite length_map. }
  exists csv, header, rest, (length (sheets w2)), (sheetHeader (newSheet created)).
  split; [now rewrite Hloop|]. split; [exact Hcsv|].
  split; [unfold getSheet, getSheetByName; cbn [sheets]; fold (isNamed pdfId);
          now rewrite Hfind|].
  split; [exact Hnew|]. split; [exact Hhead|].
  split; [rewrite Htake; apply prefix_take|].
  split.
  - intros Hinc.
    assert (Etop : top = header ++ ["label"]) by (subst top; now rewrite Hinc).
    rewrite Htake, Etop. apply take_ge. rewrite length_map.
    assert (Hlt : length header < gridLastColumn (grid (newSheet created))).
    { apply (gridLastColumn_lookup _ 0 (length header)
               (map cellOfString (header ++ ["label"])) (Str "label")).
      - now rewrite Hgrid, Etop.
      - rewrite map_app, lookup_app_r by (rewrite length_map; lia).
        rewrite length_map, Nat.sub_diag. cbn. now rewrite Hlabel.
      - reflexivity. }
    rewrite length_app. cbn [length]. lia.
  - split; [exact Hmem|].
    pose proof (indexOfFrom_found "label" _ 0 Hmem) as Hge.
    unfold indexOf. lia.
Qed.

Lemma downloadLabels_sheet_has_label_column_witness :
  (exists csv header rest h headerList,
     fst (@downloadLoop (Demo.host Demo.twoBatches) 5 1 "" Demo.oneSheet) = Ret csv /\
     @parseCsv (Demo.host Demo.twoBatches) csv = Some (header :: rest) /\
     @getSheet (Demo.host Demo.twoBatches)
       (snd (@downloadLabels (Demo.host Demo.twoBatches) 5 Demo.oneSheet)) =
       (Ret (Some h), snd (@downloadLabels (Demo.host Demo.twoBatches) 5 Demo.oneSheet)) /\
     sheets (snd (@downloadLabels (Demo.host Demo.twoBatches) 5 Demo.oneSheet)) !! h =
       Some (@newSheet (Demo.host Demo.twoBatches)
               (if includes "label" header then header :: rest
                else (header ++ ["label"]) :: map withLabel rest)) /\
     @getHeaderList (Demo.host Demo.twoBatches)
       (snd (@downloadLabels (Demo.host Demo.twoBatches) 5 Demo.oneSheet)) =
       (Ret headerList, snd (@downloadLabels (Demo.host Demo.twoBatches) 5 Demo.oneSheet)) /\
     headerList `prefix_of`
       map (@cellOfString (Demo.host Demo.twoBatches))
         (if includes "label" header then header else header ++ ["label"]) /\
     (includes "label" header = false ->
      headerList = map (@cellOfString (Demo.host Demo.twoBatches)) (header ++ ["label"])) /\
     Str "label" ∈ headerList /\
     (0 < indexOf "label" headerList + 1)%Z) /\
  (exists csv header rest h headerList,
     fst (@downloadLoop (Demo.host Demo.featuresOnly) 5 1 "" Demo.oneSheet) = Ret csv /\
     @parseCsv (Demo.host Demo.featuresOnly) csv = Some (header :: rest) /\
     @getSheet (Demo.host Demo.featuresOnly)
       (snd (@downloadLabels (Demo.host Demo.featuresOnly) 5 Demo.oneSheet)) =
       (Ret (Some h), snd (@downloadLabels (Demo.host Demo.featuresOnly) 5 Demo.oneSheet)) /\
     sheets (snd (@downloadLabels (Demo.host Demo.featuresOnly) 5 Demo.oneSheet)) !! h =
       Some (@newSheet (Demo.host Demo.featuresOnly)
               (if includes "label" header then header :: rest
                else (header ++ ["label"]) :: map withLabel rest)) /\
     @getHeaderList (Demo.host Demo.featuresOnly)
       (snd (@downloadLabels (Demo.host Demo.featuresOnly) 5 Demo.oneSheet)) =
       (Ret headerList, snd (@downloadLabels (Demo.host Demo.featuresOnly) 5 Demo.oneSheet)) /\
     headerList `prefix_of`
       map (@cellOfString (Demo.host Demo.featuresOnly))
         (if includes "label" header then header else header ++ ["label"]) /\
     (includes "label" header = false ->
      headerList = map (@cellOfString (Demo.host Demo.featuresOnly)) (header ++ ["label"])) /\
     Str "label" ∈ headerList /\
     (0 < indexOf "label" headerList + 1)%Z).
Proof.
  split.
  - apply (@downloadLabels_sheet_has_label_column (Demo.host Demo.twoBatches)
             5 Demo.oneSheet); [reflexivity|vm_compute; reflexivity].
  - apply (@downloadLabels_sheet_has_label_column (Demo.host Demo.featuresOnly)
             5 Demo.oneSheet); [reflexivity|vm_compute; reflexivity].
Defined.

(** ** updateLabel *)

Lemma lookup_padTo {A} (n : nat) (d : A) (l : list A) (i : nat) :
  default d (padTo n d l !! i) = default d (l !! i).
Proof.
  unfold padTo. destruct (Nat.lt_ge_cases i (length l)) as [Hlt|Hge].
  - now rewrite lookup_app_l.
  - rewrite lookup_app_r by assumption.
    rewrite (lookup_ge_None_2 l i Hge). cbn.
    destruct (replicate (n - length l) d !! (i - length l)) as [x|] eqn:E;
      [|reflexivity].
    apply lookup_replicate in E as [-> _]. reflexivity.
Qed.

Lemma cellAt_rows (g : list (list value)) (r c : nat) :
  cellAt g r c = default blank (default [] (g !! (r - 1)) !! (c - 1)).
Proof. unfold cellAt. now destruct (g !! (r - 1)). Qed.

(** Writing a cell changes that cell and no other. *)
Lemma cellAt_setCell (g : list (list value)) (r c r' c' : nat) (v : value) :
  1 <= r -> 1 <= c -> 1 <= r' -> 1 <= c' ->
  cellAt (setCell r c v g) r' c' =
  if (r' =? r) && (c' =? c) then v else cellAt g r' c'.
Proof.
  intros Hr Hc Hr' Hc'. unfold setCell.
  assert (Hlen : r - 1 < length (padTo r [] g)).
  { unfold padTo. rewrite length_app, length_replicate. lia. }
  destruct (lookup_lt_is_Some_2 _ _ Hlen) as [row Hrow]. rewrite Hrow.
  assert (Hrow' : row = default [] (g !! (r - 1))).
  { rewrite <- (lookup_padTo r [] g (r - 1)). now rewrite Hrow. }
  rewrite !cellAt_rows.
  destruct (Nat.eqb_spec r' r) as [->|Hne]; cbn [andb].
  - rewrite list_lookup_insert_eq by assumption. cbn [default from_option id].
    unfold id. destruct (Nat.eqb_spec c' c) as [->|Hnc].
    + rewrite list_lookup_insert_eq; [reflexivity|].
      unfold padTo. rewrite length_app, length_replicate. lia.
    + rewrite list_lookup_insert_ne by lia.
      now rewrite lookup_padTo, Hrow'.
  - rewrite list_lookup_insert_ne by lia.
    now rewrite (lookup_padTo r [] g (r' - 1)).
Qed.

Lemma findIndex_Some_lt {A} (p : A -> bool) (l : list A) (i : nat) :
  findIndex p l = Some i -> i < length l.
Proof.
  intros E. destruct (findIndex_Some p l i E) as (x & Hx & _).
  eapply lookup_lt_Some; eassumption.
Qed.

Lemma findCell_from (p : value -> bool) (g : list (list value)) : forall r0 r c,
  findCell p g r0 = Some (r, c) -> r0 <= r /\ 1 <= c.
Proof.
  induction g as [|row g IH]; intros r0 r c E; cbn in E; [discriminate|].
  destruct (findIndex p row) as [j|].
  - inversion E. lia.
  - apply IH in E. lia.
Qed.

Section UpdateLabel.
Context `{Host}.

(** What a completed updateLabel has done: it has found a cell that
    contains the id, in row [r]; it has written the label into the cell of
    that row in the label column and set its background; every other cell
    of the sheet, and every other sheet, is as it was. *)
Lemma updateLabel_changes_one_cell (id label : string) (w w' : world) :
  updateLabel id label w = (Ret tt, w') ->
  exists h s s' r c,
    findIndex (isNamed pdfId) (sheets w) = Some h /\
    sheets w !! h = Some s /\
    findCell (containsText id) (grid s) 1 = Some (r, c) /\
    1 <= labelColumnOf s /\
    sheets w' = <[h := s']> (sheets w) /\
    getName s' = getName s /\
    (forall r' c', 1 <= r' -> 1 <= c' ->
       cellAt (grid s') r' c' =
       if (r' =? r) && (c' =? labelColumnOf s) then cellOfString label
       else cellAt (grid s) r' c') /\
    (r, labelColumnOf s, "wheat") ∈ backgrounds s'.
Proof.
  unfold updateLabel. unfold bind at 1. unfold getSheet at 1, getSheetByName.
  fold (isNamed pdfId).
  destruct (findIndex (isNamed pdfId) (sheets w)) as [h|] eqn:Hfind;
    [|discriminate].
  unfold bind at 1. unfold textFinder_findNext, bind, theSheet.
  destruct (sheets w !! h) as [s|] eqn:Hs; [|discriminate]. cbn [ret].
  fold (containsText id).
  destruct (findCell (containsText id) (grid s) 1) as [[r c]|] eqn:Hcell;
    cbn [option_map]; [|discriminate].
  cbn [fst snd getRow].
  destruct (getHeaderList w) as [[headerList| |] w1] eqn:Hhead; try discriminate.
  assert (Hh : headerList = sheetHeader s /\ w1 = w).
  { revert Hhead. unfold getHeaderList, bind, getSheet, getSheetByName.
    fold (isNamed pdfId). rewrite Hfind.
    unfold sheet_getLastColumn, bind, theSheet. rewrite Hs. cbn [ret].
    unfold sheet_getRange.
    destruct ((1 <=? 1) && (1 <=? 1) && (1 <=? 1) &&
              (1 <=? gridLastColumn (grid s))); [|discriminate].
    cbn [ret]. unfold range_getValues, bind, theSheet. cbn [rangeSheet].
    rewrite Hs. cbn. intros E. inversion E. auto. }
  destruct Hh as [-> ->]. unfold getSheet, getSheetByName.
  fold (isNamed pdfId). rewrite Hfind.
  fold (labelColumnOf s). unfold sheet_getRange.
  destruct (1 <=? labelColumnOf s) eqn:Hcol.
  2:{ rewrite !andb_false_r. discriminate. }
  destruct (findCell_from _ _ _ _ _ Hcell) as [Hr Hc].
  replace (1 <=? r) with true by (symmetry; apply Nat.leb_le; lia).
  cbn [Nat.leb andb ret].
  unfold range_setValue, range_setBackground.
  cbn [rangeSheet getRow getColumn]. rewrite !modifySheet_run.
  cbn [sheets requests logs]. intros E. inversion E as [Hw']. clear E.
  apply Nat.leb_le in Hcol.
  subst w'.
  exists h, s,
    (setSheetBackgrounds
       ((r, labelColumnOf s, "wheat") ::
        filter (fun b => negb ((b.1.1 =? r) && (b.1.2 =? labelColumnOf s)))
               (backgrounds s))
       (setSheetGrid (setCell r (labelColumnOf s) (cellOfString label) (grid s)) s)),
    r, c.
  split; [reflexivity|]. split; [exact Hs|].
  split; [exact Hcell|]. split; [exact Hcol|]. split; [|split; [|split]].
  - cbn [sheets]. apply list_eq. intros i. destruct (Nat.eq_dec i h) as [->|Hne].
    + rewrite !list_lookup_alter_eq, Hs.
      rewrite list_lookup_insert_eq by (eapply lookup_lt_Some; eassumption).
      reflexivity.
    + now rewrite !list_lookup_alter_ne, list_lookup_insert_ne by congruence.
  - reflexivity.
  - intros r' c' Hr' Hc'. cbn [grid setSheetBackgrounds setSheetGrid].
    now apply cellAt_setCell.
  - cbn. apply elem_of_cons. now left.
Qed.
End UpdateLabel.

(** C5, evaluated on the code.  The text finder looks for a cell that
    contains the id, in any column; with the row of abcd-1-10 above the row
    of abcd-1-1, updateLabel("abcd-1-1", "other") writes the label and the
    background into row 2, the row of abcd-1-10, and leaves the row whose id
    is abcd-1-1 as it was. *)
Theorem updateLabel_takes_first_containing_cell :
  @updateLabel (Demo.host Demo.emptyBucket) "abcd-1-1" "other" Demo.sortedByArea =
  (Ret tt,
   mkWorld
     [mkSheet "abcd"
        [[Str "id"; Str "text"; Str "area"; Str "label"];
         [Str "abcd-1-10"; Str "A long paragraph"; Num 900; Str "other"];
         [Str "abcd-1-1"; Str "Page 1"; Num 20; Str "body"]]
        [(2, 4, "wheat")]]
     [] []).
Proof. vm_compute. reflexivity. Qed.

(** ** The id pattern *)

Lemma spanDigits_eq (s : string) : (spanDigits s).1 +:+ (spanDigits s).2 = s.
Proof.
  induction s as [|c s IH]; [reflexivity|].
  cbn. destruct (isDigit c); [|reflexivity].
  destruct (spanDigits s) as [d r]. cbn in *. now rewrite app_String, IH.
Qed.

Lemma spanDigits_all (d : string) :
  allChars isDigit d = true -> spanDigits d = (d, "").
Proof.
  induction d as [|c d IH]; [reflexivity|].
  cbn. intros Hd. apply andb_true_iff in Hd as [Hc Hd].
  now rewrite Hc, (IH Hd).
Qed.

Lemma spanDigits_dash (d rest : string) :
  allChars isDigit d = true ->
  spanDigits (d +:+ String "-" rest) = (d, String "-" rest).
Proof.
  induction d as [|c d IH]; [reflexivity|].
  cbn. intros Hd. apply andb_true_iff in Hd as [Hc Hd].
  rewrite app_String. cbn. now rewrite Hc, (IH Hd).
Qed.

Lemma dashes_app (s t : string) : dashes (s +:+ t) = dashes s + dashes t.
Proof.
  induction s as [|c s IH]; [reflexivity|].
  rewrite app_String. cbn. rewrite IH. lia.
Qed.

Lemma dashes_digits (d : string) : allChars isDigit d = true -> dashes d = 0.
Proof.
  induction d as [|c d IH]; [reflexivity|].
  cbn. intros Hd. apply andb_true_iff in Hd as [Hc Hd].
  rewrite (IH Hd). destruct (Ascii.eqb_spec c "-") as [->|_]; [discriminate Hc|reflexivity].
Qed.

Lemma matchTail_dashes (s : string) m : matchTail s = Some m -> 2 <= dashes s.
Proof.
  unfold matchTail. destruct s as [|c s1]; [discriminate|].
  destruct (Ascii.eqb_spec c "-") as [->|Hc].
  2:{ destruct c as [[] [] [] [] [] [] [] []]; try discriminate. now contradiction Hc. }
  pose proof (spanDigits_eq s1) as Heq.
  destruct (spanDigits s1) as [d1 r1]. cbn in Heq.
  destruct d1 as [|c1 d1]; [discriminate|].
  destruct r1 as [|c2 s2]; [discriminate|].
  destruct (Ascii.eqb_spec c2 "-") as [->|Hc2].
  2:{ destruct c2 as [[] [] [] [] [] [] [] []]; try discriminate. now contradiction Hc2. }
  intros _. rewrite <- Heq. cbn [dashes]. rewrite dashes_app. cbn. lia.
Qed.

Lemma matchHere_dashes (s : string) : forall m,
  matchHere s = Some m -> 2 <= dashes s.
Proof.
  induction s as [|c s IH]; intros m.
  - cbn. discriminate.
  - cbn [matchHere].
    assert (Hstop : forall m',
      match matchTail (String c s) with
      | Some (page, para) => Some (EmptyString, page, para)
      | None => None
      end = Some m' -> 2 <= dashes (String c s)).
    { intros m'. destruct (matchTail (String c s)) as [[pg pa]|] eqn:E; [|discriminate].
      intros _. now apply (matchTail_dashes _ _ E). }
    destruct (isLineTerminator c); [apply Hstop|].
    destruct (matchHere s) as [[[g1 pg] pa]|] eqn:E; [|apply Hstop].
    intros _. specialize (IH _ eq_refl). cbn. lia.
Qed.

Lemma isNumeral_inv (s : string) :
  isNumeral s = true ->
  allChars isDigit s = true /\ exists c d, s = String c d.
Proof.
  unfold isNumeral. intros Hs. apply andb_true_iff in Hs as [Hne Hd].
  split; [assumption|]. destruct s as [|c d]; [discriminate|eauto].
Qed.

Lemma matchTail_numerals (page para : string) :
  isNumeral page = true -> isNumeral para = true ->
  matchTail ("-" +:+ page +:+ "-" +:+ para) = Some (page, para).
Proof.
  intros Hpage Hpara.
  apply isNumeral_inv in Hpage as (Hpage & c1 & d1 & E1).
  apply isNumeral_inv in Hpara as (Hpara & c2 & d2 & E2).
  change ("-" +:+ page +:+ "-" +:+ para)
    with (String "-" (page +:+ String "-" para)).
  cbn [matchTail]. rewrite (spanDigits_dash page para Hpage).
  rewrite E1 at 1. rewrite (spanDigits_all para Hpara).
  rewrite E2 at 1. now rewrite <- E1, <- E2.
Qed.

(** On an id name-page-paragraph the greedy first group takes the name. *)
Lemma matchHere_numerals (name page para : string) :
  noLineBreak name = true -> isNumeral page = true -> isNumeral para = true ->
  matchHere (name +:+ "-" +:+ page +:+ "-" +:+ para) = Some (name, page, para).
Proof.
  intros Hname Hpage Hpara.
  induction name as [|c name IH].
  - rewrite app_empty_l.
    pose proof (matchTail_numerals page para Hpage Hpara) as Htail.
    change ("-" +:+ page +:+ "-" +:+ para)
      with (String "-" (page +:+ "-" +:+ para)) in *.
    cbn [matchHere]. rewrite Htail.
    change (isLineTerminator "-") with false. cbn match.
    destruct (matchHere (page +:+ "-" +:+ para)) as [m|] eqn:E; [|reflexivity].
    apply matchHere_dashes in E. rewrite dashes_app in E.
    change ("-" +:+ para) with (String "-" para) in E. cbn [dashes] in E.
    apply isNumeral_inv in Hpage as [Hpage _].
    apply isNumeral_inv in Hpara as [Hpara _].
    rewrite (dashes_digits page Hpage), (dashes_digits para Hpara) in E.
    cbn in E. lia.
  - cbn in Hname. apply andb_true_iff in Hname as [Hc Hname].
    rewrite app_String. cbn [matchHere].
    apply negb_true_iff in Hc. rewrite Hc. now rewrite (IH Hname).
Qed.

Lemma matchId_hasPage (id page : string) :
  hasPage id page -> exists name para, matchId id = Some (name, page, para).
Proof.
  intros (name & para & -> & Hname & Hpage & Hpara).
  exists name, para.
  pose proof (matchHere_numerals name page para Hname Hpage Hpara) as E.
  destruct (name +:+ "-" +:+ page +:+ "-" +:+ para); cbn [matchId]; now rewrite E.
Qed.

(** ** The stable sort

    For a comparator that puts [y] after [x] exactly when the key of [y] is
    the smaller one, on the elements of a domain [dom]. *)

Section SortFacts.
Context {A : Type} (cmp : A -> A -> Z) (key : A -> Q) (dom : A -> Prop).
Hypothesis cmp_key : forall y x, dom y -> dom x ->
  ((0 <? cmp y x)%Z = true <-> (key y < key x)%Q).

Let before (y x : A) : Prop := (key x <= key y)%Q.

Lemma insertSorted_perm (x : A) (l : list A) :
  Permutation (insertSorted cmp x l) (x :: l).
Proof.
  induction l as [|y l IH]; cbn; [reflexivity|].
  destruct (0 <? cmp y x)%Z; [reflexivity|].
  rewrite IH. apply perm_swap.
Qed.

Lemma sort_snoc (l : list A) (x : A) :
  sort cmp (l ++ [x]) = insertSorted cmp x (sort cmp l).
Proof. unfold sort. now rewrite fold_left_app. Qed.

Lemma sort_perm (l : list A) : Permutation (sort cmp l) l.
Proof.
  induction l as [|x l IH] using rev_ind; [reflexivity|].
  rewrite sort_snoc, insertSorted_perm, IH.
  apply Permutation_cons_append.
Qed.

Lemma sort_dom (l : list A) : Forall dom l -> Forall dom (sort cmp l).
Proof.
  intros Hl. eapply Permutation_Forall; [|exact Hl]. symmetry. apply sort_perm.
Qed.

Lemma insertSorted_sorted (x : A) (l : list A) :
  dom x -> Forall dom l -> StronglySorted before l ->
  StronglySorted before (insertSorted cmp x l).
Proof.
  intros Hx Hl Hs. induction Hs as [|y l Hs IH Hy]; cbn.
  - constructor; [constructor|constructor].
  - apply Forall_cons in Hl as [Hdy Hl].
    destruct (0 <? cmp y x)%Z eqn:E.
    + apply cmp_key in E; try assumption.
      constructor; [now constructor|].
      constructor.
      * unfold before. lra.
      * eapply Forall_impl; [exact Hy|]. intros z Hz. unfold before in *. cbn in Hz. lra.
    + assert (Hle : (key x <= key y)%Q).
      { destruct (Qlt_le_dec (key y) (key x)) as [Hlt|Hle]; [|exact Hle].
        apply cmp_key in Hlt; try assumption. congruence. }
      constructor; [now apply IH|].
      eapply Permutation_Forall; [symmetry; apply insertSorted_perm|].
      constructor; assumption.
Qed.

Lemma sort_sorted (l : list A) :
  Forall dom l -> StronglySorted before (sort cmp l).
Proof.
  induction l as [|x l IH] using rev_ind; intros Hl; [constructor|].
  apply Forall_app in Hl as [Hl Hx]. apply Forall_cons in Hx as [Hx _].
  rewrite sort_snoc. apply insertSorted_sorted; auto using sort_dom.
Qed.

(** An element that may stand after all of a list is put at its end. *)
Lemma insertSorted_last (x : A) (l : list A) :
  dom x -> Forall dom l -> Forall (fun y => before y x) l ->
  insertSorted cmp x l = l ++ [x].
Proof.
  intros Hx Hl Hb. induction l as [|y l IH]; cbn; [reflexivity|].
  apply Forall_cons in Hl as [Hdy Hl]. apply Forall_cons in Hb as [Hby Hb].
  destruct (0 <? cmp y x)%Z eqn:E.
  - apply cmp_key in E; try assumption. unfold before in Hby. lra.
  - now rewrite IH.
Qed.

Lemma sort_from_sorted (l : list A) : forall acc,
  Forall dom (acc ++ l) -> StronglySorted before (acc ++ l) ->
  fold_left (fun a x => insertSorted cmp x a) l acc = acc ++ l.
Proof.
  induction l as [|x l IH]; intros acc Hd Hs; cbn.
  - now rewrite app_nil_r.
  - assert (E : acc ++ x :: l = (acc ++ [x]) ++ l) by now rewrite <- app_assoc.
    rewrite E in Hd, Hs.
    rewrite insertSorted_last.
    + rewrite IH by assumption. now rewrite <- app_assoc.
    + apply Forall_app in Hd as [Hd _]. apply Forall_app in Hd as [_ Hd].
      now apply Forall_cons in Hd as [Hd _].
    + apply Forall_app in Hd as [Hd _]. now apply Forall_app in Hd as [Hd _].
    + clear -Hs. induction acc as [|a acc IHa]; [constructor|].
      cbn in Hs. apply StronglySorted_inv in Hs as [Hs Ha].
      constructor; [|now apply IHa].
      rewrite Forall_forall in Ha. apply Ha.
      rewrite <- app_assoc. apply elem_of_app. right. apply elem_of_cons. now left.
Qed.

(** Sorting what is sorted changes nothing. *)
Lemma sort_fixed (l : list A) :
  Forall dom l -> StronglySorted before l -> sort cmp l = l.
Proof. intros Hd Hs. now apply (sort_from_sorted l []). Qed.

Lemma sort_sort (l : list A) :
  Forall dom l -> sort cmp (sort cmp l) = sort cmp l.
Proof. intros Hl. apply sort_fixed; auto using sort_dom, sort_sorted. Qed.

(** Ties keep their order: the elements of any one key come in the order
    they had. *)
Lemma insertSorted_stable (q : Q) (x : A) (l : list A) :
  dom x -> Forall dom l -> StronglySorted before l ->
  List.filter (fun r => Qeq_bool (key r) q) (insertSorted cmp x l) =
  List.filter (fun r => Qeq_bool (key r) q) (l ++ [x]).
Proof.
  intros Hx Hl Hs. induction Hs as [|y l Hs IH Hy]; [reflexivity|].
  apply Forall_cons in Hl as [Hdy Hl]. cbn [insertSorted].
  destruct (0 <? cmp y x)%Z eqn:E.
  - apply cmp_key in E; try assumption.
    change (x :: y :: l) with ([x] ++ y :: l). rewrite !List.filter_app.
    set (rest := List.filter (fun r => Qeq_bool (key r) q) (y :: l)).
    cbn [List.filter].
    destruct (Qeq_bool (key x) q) eqn:Ex; [|now rewrite app_nil_r].
    apply Qeq_bool_iff in Ex.
    assert (Hall : Forall (fun r => Qeq_bool (key r) q = false) (y :: l)).
    { constructor.
      - apply not_true_is_false. intros Hq. apply Qeq_bool_iff in Hq. lra.
      - eapply Forall_impl; [exact Hy|]. intros z Hz. cbn in Hz. unfold before in Hz.
        apply not_true_is_false. intros Hq. apply Qeq_bool_iff in Hq. lra. }
    assert (Hnone : rest = []).
    { subst rest. clear -Hall. induction Hall as [|z l' Hz _ IH']; [reflexivity|].
      cbn. now rewrite Hz. }
    now rewrite Hnone.
  - cbn [List.filter app]. rewrite IH by assumption. reflexivity.
Qed.

Lemma sort_stable (q : Q) (l : list A) :
  Forall dom l ->
  List.filter (fun r => Qeq_bool (key r) q) (sort cmp l) =
  List.filter (fun r => Qeq_bool (key r) q) l.
Proof.
  induction l as [|x l IH] using rev_ind; intros Hl; [reflexivity|].
  apply Forall_app in Hl as [Hl Hx]. apply Forall_cons in Hx as [Hx _].
  rewrite sort_snoc, insertSorted_stable; auto using sort_dom, sort_sorted.
  rewrite !List.filter_app. now rewrite IH.
Qed.
(** A list in descending order of the keys is determined by the elements
    of each key in their order: there is one stable sort. *)
Lemma filter_key_head (q : Q) (x : A) (l : list A) :
  StronglySorted before (x :: l) ->
  List.filter (fun r => Qeq_bool (key r) q) (x :: l) <> [] ->
  (q <= key x)%Q.
Proof.
  intros Hs Hne. apply StronglySorted_inv in Hs as [_ Hx].
  cbn [List.filter] in Hne.
  destruct (Qeq_bool (key x) q) eqn:Ex.
  - apply Qeq_bool_iff in Ex. lra.
  - clear Ex. induction l as [|y l IH]; [now contradiction Hne|].
    apply Forall_cons in Hx as [Hy Hx]. cbn [List.filter] in Hne.
    destruct (Qeq_bool (key y) q) eqn:Ey.
    + apply Qeq_bool_iff in Ey. unfold before in Hy. lra.
    + now apply IH.
Qed.

Lemma stable_sort_unique (l1 : list A) : forall l2,
  StronglySorted before l1 -> StronglySorted before l2 ->
  (forall q, List.filter (fun r => Qeq_bool (key r) q) l1 =
             List.filter (fun r => Qeq_bool (key r) q) l2) ->
  l1 = l2.
Proof.
  induction l1 as [|x l1 IH]; intros l2 Hs1 Hs2 Hf.
  - destruct l2 as [|y l2]; [reflexivity|].
    specialize (Hf (key y)). cbn in Hf.
    rewrite (proj2 (Qeq_bool_iff (key y) (key y)) (Qeq_refl _)) in Hf.
    discriminate Hf.
  - destruct l2 as [|y l2].
    { specialize (Hf (key x)). cbn in Hf.
      rewrite (proj2 (Qeq_bool_iff (key x) (key x)) (Qeq_refl _)) in Hf.
      discriminate Hf. }
    assert (Hxy : (key x == key y)%Q).
    { assert (H1 : (key x <= key y)%Q).
      { apply (filter_key_head (key x) y l2 Hs2). rewrite <- Hf. cbn.
        now rewrite (proj2 (Qeq_bool_iff (key x) (key x)) (Qeq_refl _)). }
      assert (H2 : (key y <= key x)%Q).
      { apply (filter_key_head (key y) x l1 Hs1). rewrite Hf. cbn.
        now rewrite (proj2 (Qeq_bool_iff (key y) (key y)) (Qeq_refl _)). }
      lra. }
    assert (Ehead : x = y).
    { specialize (Hf (key x)). cbn in Hf.
      rewrite (proj2 (Qeq_bool_iff (key x) (key x)) (Qeq_refl _)) in Hf.
      rewrite (proj2 (Qeq_bool_iff (key y) (key x))) in Hf by lra.
      now inversion Hf. }
    subst y. f_equal. apply IH.
    + now apply StronglySorted_inv in Hs1 as [Hs1 _].
    + now apply StronglySorted_inv in Hs2 as [Hs2 _].
    + intros q. specialize (Hf q). cbn in Hf.
      destruct (Qeq_bool (key x) q); [now inversion Hf|exact Hf].
Qed.

(** So any stable sort by this comparator gives what [sort] gives. *)
Lemma sort_is_the_stable_sort (l sorted : list A) :
  Forall dom l ->
  StronglySorted before sorted ->
  (forall q, List.filter (fun r => Qeq_bool (key r) q) sorted =
             List.filter (fun r => Qeq_bool (key r) q) l) ->
  sorted = sort cmp l.
Proof.
  intros Hl Hs Hf. apply stable_sort_unique; [exact Hs|now apply sort_sorted|].
  intros q. now rewrite Hf, sort_stable.
Qed.
End SortFacts.

(** ** The paragraph dictionary builder *)

Lemma getProp_setProp_eq {V} (k : string) (v : V) (o : obj V) :
  getProp k (setProp k v o) = Some v.
Proof.
  induction o as [|[k' v'] o IH]; cbn.
  - now rewrite String.eqb_refl.
  - destruct (String.eqb k k') eqn:E; cbn; rewrite E; [reflexivity|exact IH].
Qed.

Lemma getProp_setProp_ne {V} (k k' : string) (v : V) (o : obj V) :
  k <> k' -> getProp k (setProp k' v o) = getProp k o.
Proof.
  intros Hne. induction o as [|[k2 v2] o IH]; cbn.
  - apply String.eqb_neq in Hne. now rewrite Hne.
  - destruct (String.eqb k' k2) eqn:E; cbn.
    + apply String.eqb_eq in E. subst k2.
      apply String.eqb_neq in Hne. now rewrite Hne.
    + now rewrite IH.
Qed.

Lemma getProp_assignProp_eq {V} (k : string) (v : V) (o : obj V) :
  k <> "__proto__" -> getProp k (assignProp k v o) = Some v.
Proof.
  intros Hk. unfold assignProp. apply String.eqb_neq in Hk. rewrite Hk.
  apply getProp_setProp_eq.
Qed.

Lemma getProp_assignProp_ne {V} (k k' : string) (v : V) (o : obj V) :
  k <> k' -> getProp k (assignProp k' v o) = getProp k o.
Proof.
  intros Hne. unfold assignProp. destruct (String.eqb k' "__proto__");
    [reflexivity|now apply getProp_setProp_ne].
Qed.

Lemma getProp_assignProp_ext {V} (k k' : string) (v : V) (o1 o2 : obj V) :
  getProp k o1 = getProp k o2 ->
  getProp k (assignProp k' v o1) = getProp k (assignProp k' v o2).
Proof.
  intros E. unfold assignProp. destruct (String.eqb k' "__proto__"); [exact E|].
  destruct (String.eqb_spec k k') as [->|Hne].
  - now rewrite !getProp_setProp_eq.
  - now rewrite !getProp_setProp_ne.
Qed.

Section Builder.
Context `{Host}.

(** On records with numeric areas the comparator orders by the area,
    larger first. *)
Lemma byArea_numeric (y x : obj value) :
  numericArea y -> numericArea x ->
  ((0 <? byArea y x)%Z = true <-> (areaOf y < areaOf x)%Q).
Proof.
  intros [qy Hy] [qx Hx]. unfold byArea, areaOf. rewrite Hy, Hx. cbn.
  unfold Qltb. destruct (Qle_bool qx qy) eqn:E; cbn.
  - apply Qle_bool_iff in E.
    destruct (Qeq_bool qy qx); cbn; split; try discriminate; intros; lra.
  - split; [intros _|reflexivity].
    destruct (Qlt_le_dec qy qx) as [Hlt|Hle]; [exact Hlt|].
    apply Qle_bool_iff in Hle. congruence.
Qed.

Lemma forEachRow_app (headerList : list value) (a b : list (list value)) st :
  forEachRow headerList (a ++ b) st =
  obind (forEachRow headerList a st) (forEachRow headerList b).
Proof.
  revert st. induction a as [|row a IH]; intros st; [reflexivity|].
  cbn. destruct (addRow headerList st row); cbn; [apply IH|reflexivity|reflexivity].
Qed.

(** A row whose id is text that the pattern does not match changes
    nothing: not the dictionary, not the counts. *)
Lemma addRow_dropped (headerList row : list value) (st : buildState) id :
  getProp "id" (featuresOf headerList row) = Some (Str id) ->
  matchId id = None ->
  addRow headerList st row = Ret st.
Proof.
  intros Hid Hno. unfold addRow. fold (featuresOf headerList row).
  now rewrite Hid, Hno.
Qed.

(** A row whose id the pattern matches is pushed onto the bucket of its
    page, which is then sorted again. *)
Lemma addRow_kept (headerList row : list value) (st : buildState) id name page para :
  getProp "id" (featuresOf headerList row) = Some (Str id) ->
  matchId id = Some (name, page, para) ->
  exists st',
    addRow headerList st row = Ret st' /\
    (forall p, getProp p (paraDict st') =
               if String.eqb p page
               then Some (sort byArea (default [] (getProp page (paraDict st)) ++
                                       [featuresOf headerList row]))
               else getProp p (paraDict st)) /\
    paraCount st' = (paraCount st + 1)%N /\
    pageCount st' = match getProp page (paraDict st) with
                    | Some _ => pageCount st
                    | None => (pageCount st + 1)%N
                    end.
Proof.
  intros Hid Hm. unfold addRow. fold (featuresOf headerList row).
  rewrite Hid, Hm. eexists. split; [reflexivity|]. cbn [paraDict pageCount paraCount].
  split; [|split].
  - intros p. destruct (String.eqb_spec p page) as [->|Hne].
    + rewrite getProp_setProp_eq.
      destruct (getProp page (paraDict st)) eqn:E; cbn [paraDict]; [now rewrite E|].
      now rewrite getProp_setProp_eq.
    + rewrite getProp_setProp_ne by assumption.
      destruct (getProp page (paraDict st)); cbn [paraDict]; [reflexivity|].
      now rewrite getProp_setProp_ne.
  - now destruct (getProp page (paraDict st)).
  - now destruct (getProp page (paraDict st)).
Qed.

Lemma onPage_snoc (page : string) recs (r : obj value) (pg : string) :
  onPage page (recs ++ [(r, pg)]) =
  onPage page recs ++ (if String.eqb pg page then [r] else []).
Proof.
  unfold onPage. rewrite List.filter_app, map_app. cbn.
  now destruct (String.eqb pg page).
Qed.

Lemma onPage_numeric (page : string) recs :
  Forall (fun rp => numericArea rp.1) recs -> Forall numericArea (onPage page recs).
Proof.
  intros Hall. unfold onPage. induction Hall as [|[r pg] recs Hr _ IH]; cbn.
  - constructor.
  - destruct (String.eqb pg page); cbn; [constructor; assumption|assumption].
Qed.

(** One well-formed row more: the buckets are those of one record more. *)
Lemma addRow_bucket (headerList row : list value) (st : buildState) recs page :
  wellFormedRecord (featuresOf headerList row) page ->
  Forall (fun rp => numericArea rp.1) recs ->
  (forall p, getProp p (paraDict st) = bucketOf p recs) ->
  exists st',
    addRow headerList st row = Ret st' /\
    (forall p, getProp p (paraDict st') =
               bucketOf p (recs ++ [(featuresOf headerList row, page)])) /\
    paraCount st' = (paraCount st + 1)%N.
Proof.
  intros [(id & Hid & Hpage) Hnum] Hrecs Hinv.
  destruct (matchId_hasPage id page Hpage) as (name & para & Hm).
  destruct (addRow_kept headerList row st id name page para Hid Hm)
    as (st' & Hrun & Hget & Hcount & _).
  exists st'. split; [exact Hrun|]. split; [|exact Hcount].
  intros p. rewrite Hget. unfold bucketOf. rewrite onPage_snoc.
  rewrite (String.eqb_sym page p).
  destruct (String.eqb_spec p page) as [->|Hne].
  - rewrite Hinv. unfold bucketOf.
    pose proof (onPage_numeric page recs Hrecs) as Hdom.
    destruct (onPage page recs) as [|a l] eqn:E; cbn [default app]; [reflexivity|].
    unfold Datatypes.id. f_equal.
    rewrite (sort_snoc byArea (sort byArea (a :: l))).
    rewrite (sort_sort byArea areaOf numericArea byArea_numeric (a :: l) Hdom).
    now rewrite app_comm_cons, sort_snoc.
  - rewrite app_nil_r. apply Hinv.
Qed.

Lemma forEachRow_buckets (headerList : list value) (vals : list (list value))
  (pages : list string) : forall st recs,
  Forall2 (fun row page => wellFormedRecord (featuresOf headerList row) page)
    vals pages ->
  Forall (fun rp => numericArea rp.1) recs ->
  (forall p, getProp p (paraDict st) = bucketOf p recs) ->
  exists st',
    forEachRow headerList vals st = Ret st' /\
    (forall p, getProp p (paraDict st') =
               bucketOf p (recs ++ zip (map (featuresOf headerList) vals) pages)) /\
    paraCount st' = (paraCount st + N.of_nat (length vals))%N.
Proof.
  intros st recs Hwf. revert st recs.
  induction Hwf as [|row page vals pages Hrow _ IH]; intros st recs Hrecs Hinv.
  - exists st. cbn. rewrite app_nil_r. split; [reflexivity|]. split; [exact Hinv|lia].
  - destruct (addRow_bucket headerList row st recs page Hrow Hrecs Hinv)
      as (st1 & Hrun & Hinv1 & Hcount1).
    destruct (IH st1 (recs ++ [(featuresOf headerList row, page)]))
      as (st' & Hrun' & Hinv' & Hcount').
    + apply Forall_app. split; [exact Hrecs|]. constructor; [|constructor].
      apply Hrow.
    + exact Hinv1.
    + exists st'. cbn [forEachRow]. rewrite Hrun. cbn [obind].
      split; [exact Hrun'|]. split.
      * intros p. rewrite Hinv'. cbn [map zip zip_with]. now rewrite <- app_assoc.
      * rewrite Hcount', Hcount1. cbn [length]. lia.
Qed.
End Builder.

Lemma isBlank_true (v : value) : isBlank v = true -> v = blank.
Proof.
  destruct v as [q|s]; cbn; [discriminate|].
  intros E. apply String.eqb_eq in E. now subst.
Qed.

(** Below the last row with content every cell is blank. *)
Lemma cellAt_below (g : list (list value)) (r c : nat) :
  gridLastRow g < r -> cellAt g r c = blank.
Proof.
  intros Hr. unfold cellAt.
  destruct (g !! (r - 1)) as [row|] eqn:Hrow; [|reflexivity].
  destruct (row !! (c - 1)) as [v|] eqn:Hv; [|reflexivity]. cbn.
  destruct (isBlank v) eqn:Hb; [now apply isBlank_true|].
  pose proof (gridLastRow_lookup g (r - 1) (c - 1) row v Hrow Hv Hb). lia.
Qed.

Lemma map_const_seq {A} (f : nat -> A) (x : A) (a n : nat) :
  (forall j, f j = x) -> map f (seq a n) = replicate n x.
Proof.
  intros Hf. revert a. induction n as [|n IH]; intros a; [reflexivity|].
  cbn. now rewrite Hf, IH.
Qed.

(** The rows read are the data rows and one blank row. *)
Lemma readRange_data_blank (g : list (list value)) :
  1 <= gridLastRow g ->
  readRange g 2 1 (gridLastRow g) (gridLastColumn g) =
  readRange g 2 1 (gridLastRow g - 1) (gridLastColumn g) ++
  [replicate (gridLastColumn g) blank].
Proof.
  intros Hlr. unfold readRange.
  replace (gridLastRow g) with (S (gridLastRow g - 1)) at 1 by lia.
  rewrite seq_S, map_app. cbn [map]. do 2 f_equal.
  apply map_const_seq. intros j. apply cellAt_below. lia.
Qed.

Section BuilderOnSheet.
Context `{Host}.

Lemma fillFeatures_keyAt (headerList : list value) (i : nat) v row o :
  fillFeatures headerList i (v :: row) o =
  fillFeatures headerList (S i) row (assignProp (keyAt headerList i) v o).
Proof. reflexivity. Qed.

(** A blank row gives a record in which every column of the header is
    blank text (but a column named __proto__, which gives no property). *)
Lemma fillFeatures_blank (headerList : list value) (k : string) (n : nat) :
  k <> "__proto__" ->
  forall i o,
  getProp k o = Some blank \/ (exists j, i <= j < i + n /\ keyAt headerList j = k) ->
  getProp k (fillFeatures headerList i (replicate n blank) o) = Some blank.
Proof.
  intros Hproto. induction n as [|n IH]; intros i o Hk.
  - destruct Hk as [Hk|(j & Hj & _)]; [exact Hk|lia].
  - cbn [replicate]. rewrite fillFeatures_keyAt. apply IH.
    destruct (String.eqb_spec k (keyAt headerList i)) as [E|Hne].
    + left. rewrite <- E. now apply getProp_assignProp_eq.
    + destruct Hk as [Hk|(j & Hj & Hkey)].
      * left. now rewrite getProp_assignProp_ne.
      * right. exists j. split; [|exact Hkey].
        destruct (Nat.eq_dec j i) as [->|]; [congruence|lia].
Qed.

Lemma sheetHeader_length (s : sheet) :
  length (sheetHeader s) = gridLastColumn (grid s).
Proof. unfold sheetHeader. now rewrite length_map, length_seq. Qed.

Lemma blank_row_id (s : sheet) :
  headerHasId (sheetHeader s) ->
  getProp "id" (featuresOf (sheetHeader s)
                  (replicate (gridLastColumn (grid s)) blank)) = Some blank.
Proof.
  intros (c & Hc & Hkey). apply list_elem_of_lookup in Hc as [j Hj].
  apply fillFeatures_blank; [discriminate|]. right. exists j. split.
  - apply lookup_lt_Some in Hj. rewrite sheetHeader_length in Hj. lia.
  - unfold keyAt. now rewrite Hj.
Qed.

(** A header with an id column lies on a sheet that has content. *)
Lemma headerHasId_content (s : sheet) :
  headerHasId (sheetHeader s) ->
  1 <= gridLastRow (grid s) /\ 1 <= gridLastColumn (grid s).
Proof.
  intros (c & Hc & Hkey). apply list_elem_of_lookup in Hc as [j Hj].
  unfold sheetHeader in Hj. change (map ?f ?l) with (f <$> l) in Hj.
  rewrite list_lookup_fmap in Hj.
  destruct (seq 0 (gridLastColumn (grid s)) !! j) as [j'|] eqn:Hseq; [|discriminate].
  apply lookup_seq in Hseq as [-> Hlt]. cbn in Hj. inversion Hj as [Hcell].
  assert (Hnb : isBlank c = false).
  { destruct c as [q|t]; [reflexivity|]. cbn in Hkey. now subst t. }
  unfold cellAt in Hcell. cbn in Hcell.
  destruct (grid s !! 0) as [row|] eqn:Hrow.
  2:{ subst c. discriminate Hnb. }
  replace (j - 0) with j in Hcell by lia.
  destruct (row !! j) as [v|] eqn:Hv.
  2:{ cbn in Hcell. subst c. discriminate Hnb. }
  cbn in Hcell. subst v.
  pose proof (gridLastRow_lookup _ 0 j row c Hrow Hv Hnb).
  pose proof (gridLastColumn_lookup _ 0 j row c Hrow Hv Hnb). lia.
Qed.

(** The builder on a sheet that has content: it reads the header and the
    rows and runs the row loop; the sheets are not touched. *)
Lemma buildParaDictFromSheet_run (w : world) (h : nat) (s : sheet) :
  findIndex (isNamed pdfId) (sheets w) = Some h ->
  sheets w !! h = Some s ->
  1 <= gridLastRow (grid s) -> 1 <= gridLastColumn (grid s) ->
  buildParaDictFromSheet w =
  match forEachRow (sheetHeader s) (sheetVals s) emptyBuild with
  | Ret st => (Ret (paraDict st), logged (builtMessage st) w)
  | Raise e => (Raise e, w)
  | Spin => (Spin, w)
  end.
Proof.
  intros Hfind Hs Hlr Hlc.
  unfold buildParaDictFromSheet. unfold bind at 1.
  unfold getSheet at 1, getSheetByName. fold (isNamed pdfId). rewrite Hfind.
  unfold bind at 1.
  assert (Hhead : getHeaderList w = (Ret (sheetHeader s), w)).
  { unfold getHeaderList, bind, getSheet, getSheetByName.
    fold (isNamed pdfId). rewrite Hfind.
    unfold sheet_getLastColumn, bind, theSheet. rewrite Hs. cbn [ret].
    unfold sheet_getRange.
    replace (1 <=? gridLastColumn (grid s)) with true
      by (symmetry; apply Nat.leb_le; lia).
    cbn [Nat.leb andb ret].
    unfold range_getValues, bind, theSheet. cbn [rangeSheet]. now rewrite Hs. }
  rewrite Hhead.
  unfold sheet_getLastRow, sheet_getLastColumn, bind, theSheet. rewrite Hs.
  cbn [ret]. rewrite Hs. cbn [ret]. unfold sheet_getRange.
  replace (1 <=? gridLastColumn (grid s)) with true
    by (symmetry; apply Nat.leb_le; lia).
  replace (1 <=? gridLastRow (grid s)) with true
    by (symmetry; apply Nat.leb_le; lia).
  cbn [Nat.leb andb ret].
  unfold range_getValues, bind, theSheet. cbn [rangeSheet]. rewrite Hs.
  cbn [ret getRow getColumn getNumRows getNumColumns]. unfold liftO.
  fold (sheetVals s). fold emptyBuild.
  now destruct (forEachRow (sheetHeader s) (sheetVals s) emptyBuild).
Qed.

(** The blank row read after the data rows is dropped. *)
Lemma forEachRow_sheetVals (s : sheet) (st : buildState) :
  headerHasId (sheetHeader s) ->
  forEachRow (sheetHeader s) (sheetVals s) st =
  forEachRow (sheetHeader s) (sheetDataRows s) st.
Proof.
  intros Hid. destruct (headerHasId_content s Hid) as [Hlr _].
  unfold sheetVals, sheetDataRows. rewrite (readRange_data_blank _ Hlr).
  rewrite forEachRow_app.
  destruct (forEachRow (sheetHeader s) _ st) as [st'| |]; cbn [obind];
    try reflexivity.
  cbn [forEachRow].
  rewrite (addRow_dropped _ _ st' "" (blank_row_id s Hid) eq_refl).
  reflexivity.
Qed.

(** With text in every id cell the row loop completes. *)
Lemma forEachRow_total (headerList : list value) (vals : list (list value)) :
  Forall (textId headerList) vals ->
  forall st, exists st', forEachRow headerList vals st = Ret st'.
Proof.
  induction 1 as [|row vals [id Hid] _ IH]; intros st; [now exists st|].
  cbn [forEachRow].
  destruct (matchId id) as [[[name page] para]|] eqn:Hm.
  - destruct (addRow_kept headerList row st id name page para Hid Hm)
      as (st1 & -> & _). cbn [obind]. apply IH.
  - rewrite (addRow_dropped headerList row st id Hid Hm). cbn [obind]. apply IH.
Qed.
End BuilderOnSheet.

Lemma wellFormed_numeric `{Host} (headerList : list value) vals pages :
  Forall2 (fun row page => wellFormedRecord (featuresOf headerList row) page)
    vals pages ->
  Forall (fun rp => numericArea rp.1)
    (zip (map (featuresOf headerList) vals) pages).
Proof.
  induction 1 as [|row page vals pages [_ Hnum] _ IH]; cbn; [constructor|].
  constructor; assumption.
Qed.

(** C1.  For every sheet with an id column whose data rows have
    well-formed ids (name-page-paragraph) and numeric areas, the builder
    completes and the dictionary maps every page number to the records of
    that page: all of them and no other, by area in descending order, the
    records of one area in the order they were met; a page without record
    has no entry.  On the sheet with doc-3-1 (area 50), doc-3-2 (area 200)
    and doc-4-1 (area 10) the dictionary maps "3" to the records of area
    200 and 50, in that order, and "4" to the record of area 10. *)
Theorem buildParaDictFromSheet_groups_by_page `{Host} :
  (forall (w : world) (h : nat) (s : sheet) (pages : list string),
      findIndex (isNamed pdfId) (sheets w) = Some h ->
      sheets w !! h = Some s ->
      headerHasId (sheetHeader s) ->
      Forall2 (fun row page =>
                 wellFormedRecord (featuresOf (sheetHeader s) row) page)
        (sheetDataRows s) pages ->
      let recs := zip (map (featuresOf (sheetHeader s)) (sheetDataRows s)) pages in
      exists d msg,
        buildParaDictFromSheet w = (Ret d, logged msg w) /\
        forall page,
          match onPage page recs with
          | [] => getProp page d = None
          | l => exists bucket,
                   getProp page d = Some bucket /\
                   Permutation bucket l /\
                   descendingArea bucket /\
                   forall q, List.filter (sameArea q) bucket =
                             List.filter (sameArea q) l
          end) /\
  @buildParaDictFromSheet (Demo.host Demo.emptyBucket) Demo.threeRecords =
  (Ret [("3", [Demo.record "doc-3-2" 200; Demo.record "doc-3-1" 50]);
        ("4", [Demo.record "doc-4-1" 10])],
   logged "Built paraDict with 2 pages, 3 paragraphs." Demo.threeRecords).
Proof.
  split; [|vm_compute; reflexivity].
  intros w h s pages Hfind Hs Hid Hwf recs.
  destruct (headerHasId_content s Hid) as [Hlr Hlc].
  rewrite (buildParaDictFromSheet_run w h s Hfind Hs Hlr Hlc).
  rewrite (forEachRow_sheetVals s emptyBuild Hid).
  destruct (forEachRow_buckets (sheetHeader s) (sheetDataRows s) pages
              emptyBuild [] Hwf ltac:(constructor) ltac:(reflexivity))
    as (st & -> & Hinv & _).
  exists (paraDict st), (builtMessage st). split; [reflexivity|].
  intros page. rewrite Hinv. cbn [app]. fold recs. unfold bucketOf.
  pose proof (onPage_numeric page recs (wellFormed_numeric _ _ _ Hwf)) as Hdom.
  destruct (onPage page recs) as [|a l]; [reflexivity|].
  exists (sort byArea (a :: l)). split; [reflexivity|]. split; [|split].
  - apply sort_perm.
  - apply (sort_sorted byArea areaOf numericArea byArea_numeric _ Hdom).
  - intros q.
    apply (sort_stable byArea areaOf numericArea byArea_numeric q _ Hdom).
Qed.

Lemma buildParaDictFromSheet_groups_by_page_witness :
  exists d msg,
    @buildParaDictFromSheet (Demo.host Demo.emptyBucket) Demo.threeRecords =
    (Ret d, logged msg Demo.threeRecords) /\
    forall page,
      match onPage page
              [(Demo.record "doc-3-1" 50, "3"); (Demo.record "doc-3-2" 200, "3");
               (Demo.record "doc-4-1" 10, "4")] with
      | [] => getProp page d = None
      | l => exists bucket,
               getProp page d = Some bucket /\
               Permutation bucket l /\
               descendingArea bucket /\
               forall q, List.filter (sameArea q) bucket = List.filter (sameArea q) l
      end.
Proof.
  refine (proj1 (@buildParaDictFromSheet_groups_by_page (Demo.host Demo.emptyBucket))
            Demo.threeRecords 0 _ ["3"; "3"; "4"] eq_refl eq_refl _ _).
  - exists (Str "id"). split; [|reflexivity]. vm_compute. apply elem_of_cons. now left.
  - repeat constructor.
    + exists "doc-3-1". split; [reflexivity|]. exists "doc", "1". now vm_compute.
    + now exists (inject_Z 50).
    + exists "doc-3-2". split; [reflexivity|]. exists "doc", "2". now vm_compute.
    + now exists (inject_Z 200).
    + exists "doc-4-1". split; [reflexivity|]. exists "doc", "1". now vm_compute.
    + now exists (inject_Z 10).
Defined.

Section DroppedRows.
Context `{Host}.

Lemma unmatchedId_dropped (headerList row : list value) (st : buildState) :
  unmatchedId headerList row = true -> addRow headerList st row = Ret st.
Proof.
  unfold unmatchedId. intros Hun.
  destruct (getProp "id" (featuresOf headerList row)) as [[q|id]|] eqn:Hid;
    try discriminate.
  destruct (matchId id) eqn:Hm; [discriminate|].
  exact (addRow_dropped headerList row st id Hid Hm).
Qed.

(** The row loop does what it does on the rows without those whose id
    the pattern does not match. *)
Lemma forEachRow_without_unmatched (headerList : list value)
  (vals : list (list value)) : forall st,
  forEachRow headerList vals st =
  forEachRow headerList
    (List.filter (fun row => negb (unmatchedId headerList row)) vals) st.
Proof.
  induction vals as [|row vals IH]; intros st; [reflexivity|].
  cbn [List.filter]. destruct (unmatchedId headerList row) eqn:Hun; cbn [negb].
  - cbn [forEachRow]. rewrite (unmatchedId_dropped _ _ st Hun). cbn [obind]. apply IH.
  - cbn [forEachRow]. destruct (addRow headerList st row); cbn [obind];
      [apply IH|reflexivity|reflexivity].
Qed.
End DroppedRows.

(** C7, as the code has it.  A data row whose id is text that the pattern
    does not match, such as malformed_id, is silently left out: handling it
    returns without error and changes neither the dictionary nor the counts
    of pages and paragraphs that the build logs, so the build as a whole
    does what it does on the sheet without such rows. *)
Theorem addRow_drops_unmatched_id `{Host} :
  (forall (headerList row : list value) (st : buildState) (id : string),
      getProp "id" (featuresOf headerList row) = Some (Str id) ->
      matchId id = None ->
      addRow headerList st row = Ret st) /\
  (forall (headerList : list value) (vals : list (list value)) (st : buildState),
      forEachRow headerList vals st =
      forEachRow headerList
        (List.filter (fun row => negb (unmatchedId headerList row)) vals) st) /\
  matchId "malformed_id" = None /\
  @buildParaDictFromSheet (Demo.host Demo.emptyBucket) Demo.withMalformed =
  (Ret [("3", [Demo.record "doc-3-2" 200; Demo.record "doc-3-1" 50]);
        ("4", [Demo.record "doc-4-1" 10])],
   logged "Built paraDict with 2 pages, 3 paragraphs." Demo.withMalformed).
Proof.
  split; [|split; [|split]].
  - intros headerList row st id. apply addRow_dropped.
  - intros headerList vals st. apply forEachRow_without_unmatched.
  - reflexivity.
  - vm_compute. reflexivity.
Qed.

Lemma addRow_drops_unmatched_id_witness :
  @addRow (Demo.host Demo.emptyBucket) [Str "id"; Str "area"]
    (mkBuildState [("3", [Demo.record "doc-3-1" 50])] 1 1)
    [Str "malformed_id"; Num 70] =
  Ret (mkBuildState [("3", [Demo.record "doc-3-1" 50])] 1 1).
Proof.
  apply (proj1 (@addRow_drops_unmatched_id (Demo.host Demo.emptyBucket))
           [Str "id"; Str "area"] [Str "malformed_id"; Num 70] _ "malformed_id");
    reflexivity.
Defined.

(** C7 as the specification states it fails for a record without id
    field: on a sheet that has no id column, reading the id of the first
    data row raises a TypeError and the build fails.  So it does for an id
    that is a number, which has no match method. *)
Lemma addRow_without_id_counterexample :
  (getProp "id" (@featuresOf (Demo.host Demo.emptyBucket)
                   [Str "name"; Str "area"] [Str "doc-3-1"; Num 50]) = None /\
   @addRow (Demo.host Demo.emptyBucket) [Str "name"; Str "area"]
     emptyBuild [Str "doc-3-1"; Num 50] = Raise TypeError /\
   @buildParaDictFromSheet (Demo.host Demo.emptyBucket) Demo.noIdColumn =
   (Raise TypeError, Demo.noIdColumn)) /\
  @buildParaDictFromSheet (Demo.host Demo.emptyBucket) Demo.numericId =
  (Raise TypeError, Demo.numericId).
Proof. vm_compute. auto. Qed.

(** ** getParaDict *)

Section GetParaDict.
Context `{Host}.

Lemma getParaDict_run (w : world) :
  getParaDict w =
  match findIndex (isNamed pdfId) (sheets w) with
  | None =>
      (Ret None, logged ("The sheet for " +:+ pdfId +:+ " is not available") w)
  | Some _ =>
      match buildParaDictFromSheet w with
      | (Ret d, w1) => (Ret (Some (JSON_stringify d)), logged "paraDict returned." w1)
      | (Raise e, w1) => (Raise e, w1)
      | (Spin, w1) => (Spin, w1)
      end
  end.
Proof.
  unfold getParaDict. unfold bind at 1. unfold getSheet at 1, getSheetByName.
  fold (isNamed pdfId).
  destruct (findIndex (isNamed pdfId) (sheets w)); [|reflexivity].
  unfold bind at 1.
  now destruct (buildParaDictFromSheet w) as [[d|e|] w1].
Qed.
End GetParaDict.

(** C8, as the code has it.  When no sheet is named like the document,
    getParaDict returns null, which is not a JSON text.  When the sheet
    exists, has an id column and has text in every id cell of its data
    rows, the build completes and getParaDict returns the JSON encoding of
    the dictionary built.  Whenever the sheet exists, getParaDict ends as
    the build ends: with the JSON encoding of its dictionary, or with the
    error it raises. *)
Theorem getParaDict_null_or_json `{Host} :
  (forall w : world,
      findIndex (isNamed pdfId) (sheets w) = None ->
      getParaDict w =
        (Ret None, logged ("The sheet for " +:+ pdfId +:+ " is not available") w) /\
      forall text, fst (getParaDict w) <> Ret (Some text)) /\
  (forall (w : world) (h : nat) (s : sheet),
      findIndex (isNamed pdfId) (sheets w) = Some h ->
      sheets w !! h = Some s ->
      headerHasId (sheetHeader s) ->
      Forall (textId (sheetHeader s)) (sheetDataRows s) ->
      exists d msg,
        buildParaDictFromSheet w = (Ret d, logged msg w) /\
        getParaDict w =
          (Ret (Some (JSON_stringify d)),
           logged "paraDict returned." (logged msg w))) /\
  (forall (w : world) (h : nat),
      findIndex (isNamed pdfId) (sheets w) = Some h ->
      getParaDict w =
        match buildParaDictFromSheet w with
        | (Ret d, w1) =>
            (Ret (Some (JSON_stringify d)), logged "paraDict returned." w1)
        | (Raise e, w1) => (Raise e, w1)
        | (Spin, w1) => (Spin, w1)
        end).
Proof.
  split; [|split].
  - intros w Hnone. rewrite getParaDict_run, Hnone.
    split; [reflexivity|]. intros text. cbn. discriminate.
  - intros w h s Hfind Hs Hid Htext.
    destruct (headerHasId_content s Hid) as [Hlr Hlc].
    rewrite getParaDict_run, Hfind.
    rewrite (buildParaDictFromSheet_run w h s Hfind Hs Hlr Hlc).
    rewrite (forEachRow_sheetVals s emptyBuild Hid).
    destruct (forEachRow_total _ _ Htext emptyBuild) as [st ->].
    now exists (paraDict st), (builtMessage st).
  - intros w h Hfind. now rewrite getParaDict_run, Hfind.
Qed.

Lemma getParaDict_null_or_json_witness :
  (@getParaDict (Demo.host Demo.emptyBucket) Demo.noSheets =
     (Ret None, logged "The sheet for abcd is not available" Demo.noSheets) /\
   forall text,
     fst (@getParaDict (Demo.host Demo.emptyBucket) Demo.noSheets) <> Ret (Some text)) /\
  exists d msg,
    @buildParaDictFromSheet (Demo.host Demo.emptyBucket) Demo.withMalformed =
      (Ret d, logged msg Demo.withMalformed) /\
    @getParaDict (Demo.host Demo.emptyBucket) Demo.withMalformed =
      (Ret (Some (Demo.jsonDict d)),
       logged "paraDict returned." (logged msg Demo.withMalformed)).
Proof.
  split.
  - apply (proj1 (@getParaDict_null_or_json (Demo.host Demo.emptyBucket))
             Demo.noSheets). reflexivity.
  - refine (proj1 (proj2 (@getParaDict_null_or_json (Demo.host Demo.emptyBucket)))
              Demo.withMalformed 0 _ eq_refl eq_refl _ _).
    + exists (Str "id"). split; [|reflexivity]. vm_compute. apply elem_of_cons. now left.
    + repeat constructor; eexists; vm_compute; reflexivity.
Defined.

(** C8 as the specification states it fails on a sheet that exists but
    has no id column, or a number in an id cell: the build raises a
    TypeError and getParaDict returns no JSON text. *)
Lemma getParaDict_raises_counterexample :
  (findIndex (@isNamed (@pdfId (Demo.host Demo.emptyBucket)))
     (sheets Demo.noIdColumn) = Some 0 /\
   @getParaDict (Demo.host Demo.emptyBucket) Demo.noIdColumn =
   (Raise TypeError, Demo.noIdColumn)) /\
  (findIndex (@isNamed (@pdfId (Demo.host Demo.emptyBucket)))
     (sheets Demo.numericId) = Some 0 /\
   @getParaDict (Demo.host Demo.emptyBucket) Demo.numericId =
   (Raise TypeError, Demo.numericId)).
Proof. vm_compute. auto. Qed.

(** * Further properties

    ** The document id and the URLs *)

Lemma substring_length_le (n : nat) : forall s m,
  strlen (String.substring m n s) <= n.
Proof.
  unfold strlen. intros s. revert n.
  induction s as [|c s IH]; intros n m.
  - destruct m, n; cbn; lia.
  - destruct m as [|m]; [destruct n as [|n]|]; cbn; [lia| |apply IH].
    specialize (IH n 0). lia.
Qed.

Lemma substring_prefix (a t : string) :
  String.substring 0 (strlen a) (a +:+ t) = a.
Proof.
  unfold strlen. induction a as [|c a IH]; cbn.
  - now destruct t.
  - rewrite app_String. cbn. now rewrite IH.
Qed.

Lemma substring_whole (a : string) (n : nat) :
  strlen a <= n -> String.substring 0 n a = a.
Proof.
  unfold strlen. revert n. induction a as [|c a IH]; intros n Hn.
  - now destruct n.
  - destruct n as [|n]; cbn in *; [lia|]. rewrite IH; [reflexivity|lia].
Qed.

Lemma replaceFirst_noDot (a r : string) :
  noDot a = true ->
  replaceFirst ".pdf" "" (a +:+ r) = a +:+ replaceFirst ".pdf" "" r.
Proof.
  induction a as [|c a IH]; intros Ha; [now rewrite !app_empty_l|].
  cbn in Ha. apply andb_true_iff in Ha as [Hc Ha].
  rewrite !app_String. cbn [replaceFirst String.prefix].
  destruct (ascii_dec "." c) as [<-|Hne]; [discriminate Hc|].
  now rewrite (IH Ha).
Qed.

(** X1.  The document id is what is left of the first four characters of
    the PDF name once the first ".pdf" is taken out: it never has more than
    four characters; when the first four characters of the name have no full
    stop it is those four characters, whatever follows them; and for a name
    of at most four characters without full stop, followed by ".pdf", it is
    that name. *)
Theorem pdfId_first_four_characters `{Host} :
  strlen pdfId <= 4 /\
  (forall a r, PDF_NAME = a +:+ r -> strlen a = 4 -> noDot a = true ->
               pdfId = a) /\
  (forall a, PDF_NAME = a +:+ ".pdf" -> strlen a <= 4 -> noDot a = true ->
             pdfId = a).
Proof.
  split; [|split].
  - apply substring_length_le.
  - intros a r E Hlen Ha. unfold pdfId, substr0.
    rewrite E, (replaceFirst_noDot a r Ha), <- Hlen.
    apply substring_prefix.
  - intros a E Hlen Ha. unfold pdfId, substr0.
    rewrite E, (replaceFirst_noDot a ".pdf" Ha).
    change (replaceFirst ".pdf" "" ".pdf") with "".
    rewrite app_empty_r. now apply substring_whole.
Qed.

Lemma pdfId_first_four_characters_witness :
  @pdfId (Demo.host Demo.emptyBucket) = "abcd".
Proof.
  apply (proj1 (proj2 (@pdfId_first_four_characters (Demo.host Demo.emptyBucket)))
           "abcd" ".pdf"); reflexivity.
Defined.
Lemma digitChar_inj (a b : N) :
  (a < 10)%N -> (b < 10)%N -> digitChar a = digitChar b -> a = b.
Proof.
  intros Ha Hb E. unfold digitChar in E.
  apply (f_equal N_of_ascii) in E.
  rewrite !N_ascii_embedding in E by lia. lia.
Qed.

Lemma batchSuffix_same (k k' : nat) :
  batchSuffix (batchIndex k) = batchSuffix (batchIndex k') <->
  k mod 10 = k' mod 10.
Proof.
  rewrite !batchSuffix_batch. split.
  - intros E. injection E as E.
    apply digitChar_inj in E; try (apply N.mod_upper_bound; lia).
    apply (f_equal N.to_nat) in E.
    rewrite !N2Nat.inj_mod, !Nat2N.id in E. exact E.
  - intros E. do 2 f_equal.
    rewrite <- (Nat2N.id k), <- (Nat2N.id k') in E.
    change 10 with (N.to_nat 10) in E. rewrite <- !N2Nat.inj_mod in E.
    now apply N2Nat.inj in E.
Qed.

(** X2.  Two iterations of the download loop ask for the same labels file,
    and for the same features file, exactly when their numbers differ by a
    multiple of ten; a labels URL is never a features URL. *)
Theorem batch_urls_repeat_every_ten `{Host} (k k' : nat) :
  (urlLabel (batchIndex k) = urlLabel (batchIndex k') <-> k mod 10 = k' mod 10) /\
  (urlFeature (batchIndex k) = urlFeature (batchIndex k') <-> k mod 10 = k' mod 10) /\
  urlLabel (batchIndex k) <> urlFeature (batchIndex k').
Proof.
  unfold urlLabel, urlFeature. rewrite !app_assoc_str.
  split; [|split].
  - rewrite <- batchSuffix_same. split; [|now intros ->].
    intros E. do 3 apply String.app_inj in E.
    rewrite !batchSuffix_batch in *. rewrite !app_String in E.
    now injection E as ->.
  - rewrite <- batchSuffix_same. split; [|now intros ->].
    intros E. do 3 apply String.app_inj in E.
    rewrite !batchSuffix_batch in *. rewrite !app_String in E.
    now injection E as ->.
  - intros E. do 3 apply String.app_inj in E.
    rewrite !batchSuffix_batch in E. rewrite !app_String in E.
    discriminate E.
Qed.
(** ** The storage requests of do_get.gs *)

(** X3.  authFetch reads the global [storageService] before it sends
    anything.  In a project that binds no such global every call raises a
    ReferenceError without sending a request, and downloadLabels of
    do_get.gs raises it at the first fetch, with no request sent, nothing
    logged and no sheet touched. *)
Theorem authFetch_needs_storageService `{Host} :
  storageService = None ->
  (forall u objectSource w,
      authFetch u objectSource w = (Raise ReferenceError, w)) /\
  (forall fuel w, downloadLabels (S fuel) w = (Raise ReferenceError, w)).
Proof.
  intros Hnone. split.
  - intros u objectSource w. unfold authFetch. now rewrite Hnone.
  - intros fuel w. unfold downloadLabels. unfold bind at 1.
    now rewrite (downloadLoop_unbound fuel 1%N "" w Hnone).
Qed.

Lemma authFetch_needs_storageService_witness :
  @downloadLabels (Demo.unbound Demo.twoBatches) 5 Demo.oneSheet =
  (Raise ReferenceError, Demo.oneSheet).
Proof.
  apply (proj2 (@authFetch_needs_storageService (Demo.unbound Demo.twoBatches)
                  eq_refl) 4 Demo.oneSheet).
Defined.
(** ** downloadLabels and the sheets that are there *)

Section DownloadFrame.
Context `{Host}.

(** What the loader returns does not depend on the spreadsheet, nor on what
    was sent or logged before. *)
Lemma downloadLoop_result (fuel : nat) : forall i csv wa wb,
  fst (downloadLoop fuel i csv wa) = fst (downloadLoop fuel i csv wb).
Proof.
  induction fuel as [|fuel IH]; intros i csv wa wb; [reflexivity|].
  destruct storageService as [token|] eqn:Htoken.
  - rewrite !downloadLoop_step by (unfold tokenBound; congruence). cbn zeta.
    destruct (batchPresent i); [apply IH|reflexivity].
  - now rewrite !downloadLoop_unbound.
Qed.

Lemma downloadLoop_sheets (fuel : nat) (i : N) (csv : string) (w : world) :
  sheets (snd (downloadLoop fuel i csv w)) = sheets w.
Proof. now destruct (downloadLoop_requests fuel i csv w) as (n & _ & E). Qed.

Lemma js_downloadLoop_sheets (fuel : nat) : forall i csv w,
  sheets (snd (DoGetJs.downloadLoop fuel i csv w)) = sheets w.
Proof.
  induction fuel as [|fuel IH]; intros i csv w; [reflexivity|].
  rewrite js_downloadLoop_step. cbn zeta.
  destruct (plainFound i); [now rewrite IH|reflexivity].
Qed.

(** downloadLabels, step by step. *)
Lemma downloadLabels_run (fuel : nat) (w : world) :
  downloadLabels fuel w =
  match downloadLoop fuel 1 "" w with
  | (Ret csv, w1) =>
      match parseCsv csv with
      | Some parsed =>
          match addLabelColumn parsed with
          | Ret rows => syncSheet rows w1
          | Raise e => (Raise e, w1)
          | Spin => (Spin, w1)
          end
      | None => (Raise ServiceException, w1)
      end
  | (Raise e, w1) => (Raise e, w1)
  | (Spin, w1) => (Spin, w1)
  end.
Proof.
  unfold downloadLabels, bind, Utilities_parseCsv, liftO.
  destruct (downloadLoop fuel 1 "" w) as [[csv|e|] w1]; try reflexivity.
  destruct (parseCsv csv) as [parsed|]; [|reflexivity]. cbn [ret].
  now destruct (addLabelColumn parsed).
Qed.

Lemma js_downloadLabels_run (fuel : nat) (w : world) :
  DoGetJs.downloadLabels fuel w =
  match DoGetJs.downloadLoop fuel 1 "" w with
  | (Ret csv, w1) =>
      match parseCsv csv with
      | Some rows => syncSheet rows w1
      | None => (Raise ServiceException, w1)
      end
  | (Raise e, w1) => (Raise e, w1)
  | (Spin, w1) => (Spin, w1)
  end.
Proof.
  unfold DoGetJs.downloadLabels, bind, Utilities_parseCsv.
  destruct (DoGetJs.downloadLoop fuel 1 "" w) as [[csv|e|] w1]; try reflexivity.
  now destruct (parseCsv csv).
Qed.

(** A run of downloadLabels either ends before the synchronisation step, in
    the world the loader left, or is the synchronisation step on the
    reconciled rows. *)
Lemma downloadLabels_cases (fuel : nat) (w : world) :
  (snd (downloadLabels fuel w) = snd (downloadLoop fuel 1 "" w) /\
   fst (downloadLabels fuel w) <> Ret tt) \/
  exists csv parsed rows,
    fst (downloadLoop fuel 1 "" w) = Ret csv /\
    parseCsv csv = Some parsed /\
    addLabelColumn parsed = Ret rows /\
    downloadLabels fuel w = syncSheet rows (snd (downloadLoop fuel 1 "" w)).
Proof.
  rewrite downloadLabels_run.
  destruct (downloadLoop fuel 1 "" w) as [[csv|e|] w1]; cbn [fst snd];
    [|left; split; [reflexivity|discriminate]..].
  destruct (parseCsv csv) as [parsed|] eqn:Ecsv;
    [|left; split; [reflexivity|discriminate]].
  destruct (addLabelColumn parsed) as [rows|e|] eqn:Eadd;
    [|left; split; [reflexivity|discriminate]..].
  right. now exists csv, parsed, rows.
Qed.

Lemma js_downloadLabels_cases (fuel : nat) (w : world) :
  (snd (DoGetJs.downloadLabels fuel w) = snd (DoGetJs.downloadLoop fuel 1 "" w) /\
   fst (DoGetJs.downloadLabels fuel w) <> Ret tt) \/
  exists csv rows,
    fst (DoGetJs.downloadLoop fuel 1 "" w) = Ret csv /\
    parseCsv csv = Some rows /\
    DoGetJs.downloadLabels fuel w =
    syncSheet rows (snd (DoGetJs.downloadLoop fuel 1 "" w)).
Proof.
  rewrite js_downloadLabels_run.
  destruct (DoGetJs.downloadLoop fuel 1 "" w) as [[csv|e|] w1]; cbn [fst snd];
    [|left; split; [reflexivity|discriminate]..].
  destruct (parseCsv csv) as [rows|] eqn:Ecsv;
    [|left; split; [reflexivity|discriminate]].
  right. now exists csv, rows.
Qed.

Lemma syncSheet_length (rows : list (list string)) (w : world) :
  length (sheets (snd (syncSheet rows w))) <= S (length (sheets w)).
Proof.
  unfold syncSheet. unfold bind at 1.
  destruct (archiveOldSheet w) as [[[]|e|] w1] eqn:Earch; cbn [snd].
  - destruct (fillNewSheet_adds rows w1) as [[x ->] _].
    rewrite length_app. cbn [length].
    rewrite archiveOldSheet_run in Earch.
    destruct (findIndex _ _) as [h|]; [|inversion Earch; subst; lia].
    destruct (_ !! _) as [old|]; [|discriminate]. cbn zeta in Earch.
    destruct (findIndex _ _); [discriminate|].
    inversion Earch. cbn [sheets]. rewrite length_alter. lia.
  - rewrite archiveOldSheet_run in Earch.
    destruct (findIndex _ _) as [h|]; [|discriminate].
    destruct (_ !! _) as [old|]; [|inversion Earch; subst; lia].
    cbn zeta in Earch. destruct (findIndex _ _); inversion Earch. subst. lia.
  - rewrite archiveOldSheet_run in Earch.
    destruct (findIndex _ _) as [h|]; [|discriminate].
    destruct (_ !! _) as [old|]; [|discriminate].
    cbn zeta in Earch. destruct (findIndex _ _); discriminate.
Qed.
End DownloadFrame.
(** X4.  Whatever its outcome, a run of downloadLabels (of do_get.gs and of
    do_get.js) removes no sheet and changes no cell and no background of a
    sheet that was there: each keeps its place, and its name or its name
    with the archival ending; and the run adds one sheet at most. *)
Theorem downloadLabels_keeps_existing_sheets `{Host} (fuel : nat) (w : world) :
  (forall i s, sheets w !! i = Some s ->
      (exists s', sheets (snd (downloadLabels fuel w)) !! i = Some s' /\
                  keptAs s s') /\
      (exists s', sheets (snd (DoGetJs.downloadLabels fuel w)) !! i = Some s' /\
                  keptAs s s')) /\
  length (sheets (snd (downloadLabels fuel w))) <= S (length (sheets w)) /\
  length (sheets (snd (DoGetJs.downloadLabels fuel w))) <= S (length (sheets w)).
Proof.
  pose proof (downloadLoop_sheets fuel 1 "" w) as Hgs.
  pose proof (js_downloadLoop_sheets fuel 1%N "" w) as Hjs.
  assert (Hsame : forall s : sheet, keptAs s s) by (intros s; red; auto).
  split; [intros i s Hs; split|split].
  - destruct (downloadLabels_cases fuel w) as [[-> _]|(csv & parsed & rows & _ & _ & _ & ->)].
    + exists s. rewrite Hgs. auto.
    + apply syncSheet_keeps_sheets. now rewrite Hgs.
  - destruct (js_downloadLabels_cases fuel w) as [[-> _]|(csv & rows & _ & _ & ->)].
    + exists s. rewrite Hjs. auto.
    + apply syncSheet_keeps_sheets. now rewrite Hjs.
  - destruct (downloadLabels_cases fuel w) as [[-> _]|(csv & parsed & rows & _ & _ & _ & ->)].
    + rewrite Hgs. lia.
    + rewrite <- Hgs. apply syncSheet_length.
  - destruct (js_downloadLabels_cases fuel w) as [[-> _]|(csv & rows & _ & _ & ->)].
    + rewrite Hjs. lia.
    + rewrite <- Hjs. apply syncSheet_length.
Qed.

Lemma downloadLabels_keeps_existing_sheets_witness :
  exists s',
    sheets (snd (@downloadLabels (Demo.host Demo.twoBatches) 5 Demo.oneSheet)) !! 0 =
      Some s' /\
    @keptAs (Demo.host Demo.twoBatches) Demo.currentSheet s'.
Proof.
  apply (proj1 (@downloadLabels_keeps_existing_sheets (Demo.host Demo.twoBatches)
                  5 Demo.oneSheet) 0 Demo.currentSheet eq_refl).
Defined.

(** X5.  do_get.gs touches the spreadsheet only after the download, the
    parsing and the reconciliation have all completed: a run after which
    the sheets are not what they were has loaded a text, parsed it and
    reconciled the rows.  do_get.js has no reconciliation: it touches the
    spreadsheet once the text is parsed. *)
Theorem downloadLabels_touches_sheets_after_reconciliation `{Host}
  (fuel : nat) (w : world) :
  (sheets (snd (downloadLabels fuel w)) <> sheets w ->
   exists csv parsed rows,
     fst (downloadLoop fuel 1 "" w) = Ret csv /\
     parseCsv csv = Some parsed /\
     addLabelColumn parsed = Ret rows) /\
  (sheets (snd (DoGetJs.downloadLabels fuel w)) <> sheets w ->
   exists csv rows,
     fst (DoGetJs.downloadLoop fuel 1 "" w) = Ret csv /\
     parseCsv csv = Some rows).
Proof.
  split; intros Hchanged.
  - destruct (downloadLabels_cases fuel w)
      as [[E _]|(csv & parsed & rows & Hloop & Hcsv & Hadd & _)].
    + rewrite E, downloadLoop_sheets in Hchanged. contradiction.
    + now exists csv, parsed, rows.
  - destruct (js_downloadLabels_cases fuel w) as [[E _]|(csv & rows & Hloop & Hcsv & _)].
    + rewrite E, js_downloadLoop_sheets in Hchanged. contradiction.
    + now exists csv, rows.
Qed.

Lemma downloadLabels_touches_sheets_after_reconciliation_witness :
  exists csv parsed rows,
    fst (@downloadLoop (Demo.host Demo.twoBatches) 5 1 "" Demo.oneSheet) = Ret csv /\
    @parseCsv (Demo.host Demo.twoBatches) csv = Some parsed /\
    addLabelColumn parsed = Ret rows.
Proof.
  apply (proj1 (@downloadLabels_touches_sheets_after_reconciliation
                  (Demo.host Demo.twoBatches) 5 Demo.oneSheet)).
  vm_compute. discriminate.
Defined.
Lemma findIndex_is_Some {A} (p : A -> bool) (l : list A) (i : nat) (x : A) :
  l !! i = Some x -> p x = true -> exists j, findIndex p l = Some j.
Proof.
  intros Hx Hp. destruct (findIndex p l) as [j|] eqn:E; [now exists j|].
  rewrite findIndex_None in E. rewrite E in Hp; [discriminate|].
  apply list_elem_of_lookup. now exists i.
Qed.

Section DownloadAgain.
Context `{Host}.

(** The sheets after a completed run of do_get.gs on a spreadsheet that
    has a sheet named like the document. *)
Lemma downloadLabels_archived (fuel : nat) (w w' : world) (h : nat) :
  findIndex (isNamed pdfId) (sheets w) = Some h ->
  downloadLabels fuel w = (Ret tt, w') ->
  exists csv parsed rows,
    fst (downloadLoop fuel 1 "" w) = Ret csv /\
    parseCsv csv = Some parsed /\
    addLabelColumn parsed = Ret rows /\
    sheets w' = alter (setSheetName archivalName) h (sheets w) ++ [newSheet rows] /\
    findIndex (isNamed pdfId) (alter (setSheetName archivalName) h (sheets w)) = None.
Proof.
  intros Hfind Hrun.
  destruct (downloadLabels_completed fuel w w' Hrun)
    as (csv & parsed & rows & w1 & w2 & Hloop & Hcsv & Hadd & Harch & Hfree & _ & ->).
  exists csv, parsed, rows. rewrite Hloop. split; [reflexivity|].
  split; [exact Hcsv|]. split; [exact Hadd|].
  pose proof (downloadLoop_sheets fuel 1 "" w) as Hs. rewrite Hloop in Hs.
  cbn [snd] in Hs.
  rewrite archiveOldSheet_run, Hs, Hfind in Harch.
  destruct (findIndex_Some _ _ _ Hfind) as (old & Hold & Hname & _).
  apply isNamed_true in Hname.
  rewrite Hold in Harch. cbn zeta in Harch. rewrite Hname in Harch.
  fold archivalName in Harch.
  destruct (findIndex (isNamed archivalName) (delete h (sheets w))); [discriminate|].
  inversion Harch. subst w2. cbn [sheets] in *. auto.
Qed.
End DownloadAgain.

(** X6.  The archival name is made of the time of day.  When a run of
    downloadLabels (do_get.gs) has archived a sheet and completed, a second
    run at the same time of day loads and reconciles the same rows, then
    raises on renaming the sheet the first run created, because the
    archival name is taken; the sheets stay as the first run left them. *)
Theorem downloadLabels_again_at_the_same_time `{Host}
  (fuel : nat) (w w' : world) (h : nat) :
  findIndex (isNamed pdfId) (sheets w) = Some h ->
  downloadLabels fuel w = (Ret tt, w') ->
  fst (downloadLabels fuel w') = Raise ServiceException /\
  sheets (snd (downloadLabels fuel w')) = sheets w'.
Proof.
  intros Hfind Hrun.
  destruct (downloadLabels_archived fuel w w' h Hfind Hrun)
    as (csv & parsed & rows & Hloop & Hcsv & Hadd & Hsheets & Hfree).
  set (ss := alter (setSheetName archivalName) h (sheets w)) in *.
  destruct (findIndex_Some _ _ _ Hfind) as (old & Hold & Hname & _).
  apply isNamed_true in Hname.
  assert (Hh : ss !! h = Some (setSheetName archivalName old)).
  { subst ss. now rewrite list_lookup_alter_eq, Hold. }
  assert (Hnew : sheets w' !! length ss = Some (newSheet rows)).
  { rewrite Hsheets. now rewrite list_lookup_middle. }
  assert (Hfind' : findIndex (isNamed pdfId) (sheets w') = Some (length ss)).
  { apply (findIndex_unique _ _ _ _ Hnew); [apply String.eqb_refl|].
    intros j y Hy Hnamed. rewrite Hsheets in Hy.
    destruct (Nat.lt_ge_cases j (length ss)) as [Hlt|Hge].
    - rewrite lookup_app_l in Hy by assumption.
      rewrite findIndex_None in Hfree. rewrite Hfree in Hnamed; [discriminate|].
      apply list_elem_of_lookup. now exists j.
    - apply lookup_lt_Some in Hy. rewrite length_app in Hy. cbn in Hy. lia. }
  destruct (findIndex_is_Some (isNamed archivalName) ss h _ Hh) as [j Hj];
    [apply String.eqb_refl|].
  set (w1 := snd (downloadLoop fuel 1 "" w')).
  assert (Hs1 : sheets w1 = sheets w') by apply downloadLoop_sheets.
  assert (E : downloadLabels fuel w' = (Raise ServiceException, w1)).
  { rewrite downloadLabels_run.
    pose proof (downloadLoop_result fuel 1%N "" w' w) as Hres. rewrite Hloop in Hres.
    fold w1. destruct (downloadLoop fuel 1 "" w') as [o w1'] eqn:E1.
    cbn [fst snd] in *. subst o w1. rewrite Hcsv, Hadd.
    unfold syncSheet. unfold bind at 1.
    rewrite archiveOldSheet_run, Hs1, Hfind', Hnew. cbn zeta.
    change (getName (newSheet rows)) with pdfId. fold archivalName.
    rewrite Hsheets, delete_last, Hj. reflexivity. }
  rewrite E. auto.
Qed.

Lemma downloadLabels_again_at_the_same_time_witness :
  fst (@downloadLabels (Demo.host Demo.twoBatches) 5
         (snd (@downloadLabels (Demo.host Demo.twoBatches) 5 Demo.oneSheet))) =
  Raise ServiceException /\
  sheets (snd (@downloadLabels (Demo.host Demo.twoBatches) 5
                 (snd (@downloadLabels (Demo.host Demo.twoBatches) 5 Demo.oneSheet)))) =
  sheets (snd (@downloadLabels (Demo.host Demo.twoBatches) 5 Demo.oneSheet)).
Proof.
  apply (@downloadLabels_again_at_the_same_time (Demo.host Demo.twoBatches)
           5 Demo.oneSheet _ 0).
  - reflexivity.
  - vm_compute. reflexivity.
Defined.
(** ** Reading the sheet *)

Lemma lastIndex_zero {A} (p : A -> bool) (l : list A) :
  lastIndex p l = 0 <-> (forall x, x ∈ l -> p x = false).
Proof.
  induction l as [|a l IH]; cbn.
  - split; [|reflexivity]. intros _ x Hin. now apply elem_of_nil in Hin.
  - destruct (lastIndex p l) as [|k] eqn:E.
    + destruct (p a) eqn:Ha.
      * split; [discriminate|]. intros Hall.
        rewrite (Hall a) in Ha; [discriminate|]. apply elem_of_cons. now left.
      * split; [|reflexivity]. intros _ x Hin.
        apply elem_of_cons in Hin as [->|Hin]; [assumption|].
        now apply IH.
    + split; [discriminate|]. intros Hall.
      assert (Hz : S k = 0); [|discriminate Hz].
      apply IH. intros x Hin. apply Hall. apply elem_of_cons. now right.
Qed.

Lemma max_list_zero (l : list nat) :
  max_list l = 0 <-> (forall x, x ∈ l -> x = 0).
Proof.
  induction l as [|a l IH]; cbn.
  - split; [|reflexivity]. intros _ x Hin. now apply elem_of_nil in Hin.
  - split.
    + intros E x Hin. apply elem_of_cons in Hin as [->|Hin]; [lia|].
      apply IH; [lia|assumption].
    + intros Hall.
      assert (Ha : a = 0) by (apply Hall, elem_of_cons; now left).
      assert (Hl : max_list l = 0).
      { apply IH. intros x Hin. apply Hall, elem_of_cons. now right. }
      lia.
Qed.

(** A sheet has no last row exactly when it has no last column: when it is
    blank. *)
Lemma gridLastRow_zero (g : list (list value)) :
  gridLastRow g = 0 <-> gridLastColumn g = 0.
Proof.
  unfold gridLastRow, gridLastColumn. rewrite lastIndex_zero, max_list_zero.
  split.
  - intros Hall x Hin. apply list_elem_of_In, in_map_iff in Hin as (row & <- & Hin).
    apply list_elem_of_In in Hin. specialize (Hall row Hin).
    apply Nat.ltb_ge in Hall. lia.
  - intros Hall row Hin. apply Nat.ltb_ge.
    rewrite (Hall (rowWidth row)); [lia|].
    apply list_elem_of_In, in_map, list_elem_of_In. exact Hin.
Qed.

Section ReadingTheSheet.
Context `{Host}.

Lemma getHeaderList_no_sheet (w : world) :
  findIndex (isNamed pdfId) (sheets w) = None ->
  getHeaderList w = (Raise TypeError, w).
Proof.
  intros Hnone. unfold getHeaderList, bind, getSheet, getSheetByName.
  fold (isNamed pdfId). now rewrite Hnone.
Qed.

Lemma getHeaderList_run (w : world) (h : nat) (s : sheet) :
  findIndex (isNamed pdfId) (sheets w) = Some h ->
  sheets w !! h = Some s ->
  getHeaderList w =
  if 1 <=? gridLastColumn (grid s) then (Ret (sheetHeader s), w)
  else (Raise ServiceException, w).
Proof.
  intros Hfind Hs. unfold getHeaderList, bind, getSheet, getSheetByName.
  fold (isNamed pdfId). rewrite Hfind.
  unfold sheet_getLastColumn, bind, theSheet. rewrite Hs. cbn [ret].
  unfold sheet_getRange.
  destruct (1 <=? gridLastColumn (grid s)); cbn [Nat.leb andb]; [|reflexivity].
  cbn [ret]. unfold range_getValues, bind, theSheet. cbn [rangeSheet].
  now rewrite Hs.
Qed.

Lemma buildParaDictFromSheet_no_sheet (w : world) :
  findIndex (isNamed pdfId) (sheets w) = None ->
  buildParaDictFromSheet w = (Raise TypeError, w).
Proof.
  intros Hnone. unfold buildParaDictFromSheet. unfold bind at 1.
  unfold getSheet at 1, getSheetByName. fold (isNamed pdfId). rewrite Hnone.
  unfold bind at 1. now rewrite getHeaderList_no_sheet.
Qed.

(** The builder on any sheet: a blank sheet makes reading the header
    raise; a sheet with content is read and the row loop run. *)
Lemma buildParaDictFromSheet_on_sheet (w : world) (h : nat) (s : sheet) :
  findIndex (isNamed pdfId) (sheets w) = Some h ->
  sheets w !! h = Some s ->
  buildParaDictFromSheet w =
  if 1 <=? gridLastColumn (grid s) then
    match forEachRow (sheetHeader s) (sheetVals s) emptyBuild with
    | Ret st => (Ret (paraDict st), logged (builtMessage st) w)
    | Raise e => (Raise e, w)
    | Spin => (Spin, w)
    end
  else (Raise ServiceException, w).
Proof.
  intros Hfind Hs.
  destruct (Nat.leb_spec 1 (gridLastColumn (grid s))) as [Hlc|Hlc].
  - apply (buildParaDictFromSheet_run w h s); try assumption.
    destruct (gridLastRow (grid s)) eqn:E; [|lia].
    apply gridLastRow_zero in E. lia.
  - unfold buildParaDictFromSheet. unfold bind at 1.
    unfold getSheet at 1, getSheetByName. fold (isNamed pdfId). rewrite Hfind.
    unfold bind at 1. rewrite (getHeaderList_run w h s Hfind Hs).
    now replace (1 <=? gridLastColumn (grid s)) with false
      by (symmetry; apply Nat.leb_gt; lia).
Qed.
End ReadingTheSheet.
(** X7.  getHeaderList reads row 1 of the sheet named like the document,
    as wide as the sheet: without such a sheet it raises a TypeError, on a
    blank sheet the range has no column and the service raises, and
    otherwise it returns one cell for every column up to the last column
    that has content anywhere in the sheet.  It changes nothing. *)
Theorem getHeaderList_reads_row_one `{Host} (w : world) :
  (findIndex (isNamed pdfId) (sheets w) = None ->
   getHeaderList w = (Raise TypeError, w)) /\
  (forall h s,
      findIndex (isNamed pdfId) (sheets w) = Some h -> sheets w !! h = Some s ->
      (gridLastColumn (grid s) = 0 ->
       getHeaderList w = (Raise ServiceException, w)) /\
      (1 <= gridLastColumn (grid s) ->
       exists headerList,
         getHeaderList w = (Ret headerList, w) /\
         length headerList = gridLastColumn (grid s) /\
         forall j, j < gridLastColumn (grid s) ->
                   headerList !! j = Some (cellAt (grid s) 1 (S j)))) /\
  snd (getHeaderList w) = w.
Proof.
  split; [apply getHeaderList_no_sheet|]. split.
  - intros h s Hfind Hs. rewrite (getHeaderList_run w h s Hfind Hs). split.
    + now intros ->.
    + intros Hlc.
      replace (1 <=? gridLastColumn (grid s)) with true
        by (symmetry; apply Nat.leb_le; lia).
      exists (sheetHeader s). split; [reflexivity|].
      split; [apply sheetHeader_length|].
      intros j Hj. unfold sheetHeader.
      change (map ?f ?l) with (f <$> l). rewrite list_lookup_fmap.
      now rewrite lookup_seq_lt by assumption.
  - destruct (findIndex (isNamed pdfId) (sheets w)) as [h|] eqn:Hfind.
    + destruct (findIndex_Some _ _ _ Hfind) as (s & Hs & _).
      rewrite (getHeaderList_run w h s Hfind Hs).
      now destruct (1 <=? gridLastColumn (grid s)).
    + now rewrite getHeaderList_no_sheet.
Qed.

Lemma getHeaderList_reads_row_one_witness :
  exists headerList,
    @getHeaderList (Demo.host Demo.emptyBucket) Demo.threeRecords =
      (Ret headerList, Demo.threeRecords) /\
    length headerList = 2 /\
    forall j, j < 2 ->
      headerList !! j =
      Some (cellAt [[Str "id"; Str "area"]; [Str "doc-3-1"; Num 50];
                    [Str "doc-3-2"; Num 200]; [Str "doc-4-1"; Num 10]] 1 (S j)).
Proof.
  apply (proj2 (proj1 (proj2 (@getHeaderList_reads_row_one
                                (Demo.host Demo.emptyBucket) Demo.threeRecords))
                  0 _ eq_refl eq_refl)).
  vm_compute. lia.
Defined.
Section BlankSheet.
Context `{Host}.

(** Filling a new sheet with no rows at all: the sheet is created and
    named, then the run raises. *)
Lemma fillNewSheet_no_rows (w : world) :
  findIndex (isNamed pdfId) (sheets w) = None ->
  exists e,
    fillNewSheet [] w =
    (Raise e, mkWorld (sheets w ++ [mkSheet pdfId [] []]) (requests w) (logs w)).
Proof.
  intros Hfree. exists ServiceException.
  unfold fillNewSheet. unfold bind at 1. rewrite insertSheet_run.
  unfold bind at 1. rewrite sheet_setName_run. cbn [sheets requests logs].
  now rewrite delete_last, Hfree, alter_last.
Qed.

Lemma findIndex_last (ss : list sheet) (s : sheet) :
  findIndex (isNamed pdfId) ss = None -> getName s = pdfId ->
  findIndex (isNamed pdfId) (ss ++ [s]) = Some (length ss).
Proof.
  intros Hfree Hname.
  apply (findIndex_unique _ _ _ s).
  - now rewrite list_lookup_middle.
  - now apply isNamed_true.
  - intros j y Hy Hnamed.
    destruct (Nat.lt_ge_cases j (length ss)) as [Hlt|Hge].
    + rewrite lookup_app_l in Hy by assumption.
      rewrite findIndex_None in Hfree. rewrite Hfree in Hnamed; [discriminate|].
      apply list_elem_of_lookup. now exists j.
    + apply lookup_lt_Some in Hy. rewrite length_app in Hy. cbn in Hy. lia.
Qed.

(** On a blank sheet named like the document getParaDict raises. *)
Lemma getParaDict_blank (w : world) (h : nat) (s : sheet) :
  findIndex (isNamed pdfId) (sheets w) = Some h ->
  sheets w !! h = Some s ->
  gridLastColumn (grid s) = 0 ->
  buildParaDictFromSheet w = (Raise ServiceException, w) /\
  getParaDict w = (Raise ServiceException, w).
Proof.
  intros Hfind Hs Hlc.
  assert (E : buildParaDictFromSheet w = (Raise ServiceException, w)).
  { rewrite (buildParaDictFromSheet_on_sheet w h s Hfind Hs). now rewrite Hlc. }
  split; [exact E|]. now rewrite getParaDict_run, Hfind, E.
Qed.
End BlankSheet.

(** X8.  do_get.js, when no labels file of batch 1 is found and the
    spreadsheet has no sheet for the document yet: downloadLabels raises,
    but only after it has created a sheet and named it like the document.
    The sheet stays, blank; getParaDict, which answered null before the
    run, raises after it. *)
Theorem js_downloadLabels_leaves_blank_sheet `{Host} (fuel : nat) (w : world) :
  parseCsv "" = Some [] -> plainFound 1 = false -> 0 < fuel ->
  findIndex (isNamed pdfId) (sheets w) = None ->
  let w' := mkWorld (sheets w ++ [mkSheet pdfId [] []])
              (requests w ++ [plainRequest 1]) (logs w) in
  (exists e, DoGetJs.downloadLabels fuel w = (Raise e, w')) /\
  fst (getParaDict w) = Ret None /\
  getParaDict w' = (Raise ServiceException, w').
Proof.
  intros Hcsv Hmissing Hfuel Hfree w'. split; [|split].
  - pose proof (js_downloadLoop_runs 0 fuel 1%N "" w) as Hrun.
    change (1 + 100 * N.of_nat 0)%N with 1%N in Hrun.
    change ("" +:+ plainText 1 0) with "" in Hrun.
    specialize (Hrun ltac:(intros j Hj; lia) Hmissing Hfuel).
    rewrite js_downloadLabels_run, Hrun, Hcsv.
    unfold syncSheet. unfold bind at 1. rewrite archiveOldSheet_run.
    cbn [sheets]. rewrite Hfree.
    destruct (fillNewSheet_no_rows
                (mkWorld (sheets w) (requests w ++ plainRequests 1 1) (logs w)) Hfree)
      as [e ->].
    now exists e.
  - now rewrite getParaDict_run, Hfree.
  - apply (getParaDict_blank w' (length (sheets w)) (mkSheet pdfId [] [])).
    + now apply findIndex_last.
    + subst w'. cbn [sheets]. now rewrite list_lookup_middle.
    + reflexivity.
Qed.

Lemma js_downloadLabels_leaves_blank_sheet_witness :
  (exists e,
      @DoGetJs.downloadLabels (Demo.host Demo.emptyBucket) 5 Demo.noSheets =
      (Raise e,
       mkWorld [mkSheet "abcd" [] []]
         [mkRequest "https://storage.googleapis.com/bucket/abcd-001-labels.csv"
            "GET" []] [])) /\
  fst (@getParaDict (Demo.host Demo.emptyBucket) Demo.noSheets) = Ret None /\
  @getParaDict (Demo.host Demo.emptyBucket)
    (mkWorld [mkSheet "abcd" [] []]
       [mkRequest "https://storage.googleapis.com/bucket/abcd-001-labels.csv"
          "GET" []] []) =
  (Raise ServiceException,
   mkWorld [mkSheet "abcd" [] []]
     [mkRequest "https://storage.googleapis.com/bucket/abcd-001-labels.csv"
        "GET" []] []).
Proof.
  apply (@js_downloadLabels_leaves_blank_sheet (Demo.host Demo.emptyBucket)
           5 Demo.noSheets); [reflexivity|reflexivity|lia|reflexivity].
Defined.
(** ** The records of the builder *)

Section Records.
Context `{Host}.

Lemma fillFeatures_other (headerList : list value) (k : string)
  (row : list value) : forall i o,
  (forall j, i <= j < i + length row -> keyAt headerList j <> k) ->
  getProp k (fillFeatures headerList i row o) = getProp k o.
Proof.
  induction row as [|v row IH]; intros i o Hk; [reflexivity|].
  rewrite fillFeatures_keyAt. rewrite IH.
  - apply getProp_assignProp_ne. intros E. apply (Hk i); [cbn; lia|congruence].
  - intros j Hj. apply Hk. cbn. lia.
Qed.

Lemma fillFeatures_at (headerList : list value) (row : list value) :
  forall i o j v,
  row !! j = Some v ->
  keyAt headerList (i + j) <> "__proto__" ->
  (forall j', j < j' < length row ->
              keyAt headerList (i + j') <> keyAt headerList (i + j)) ->
  getProp (keyAt headerList (i + j)) (fillFeatures headerList i row o) = Some v.
Proof.
  induction row as [|x row IH]; intros i o j v Hv Hproto Hlast; [discriminate|].
  rewrite fillFeatures_keyAt. destruct j as [|j]; cbn in Hv.
  - inversion Hv. subst x. rewrite Nat.add_0_r in *.
    rewrite fillFeatures_other; [now apply getProp_assignProp_eq|].
    intros j' Hj'. replace j' with (i + (j' - i)) by lia.
    apply Hlast. cbn. lia.
  - replace (i + S j) with (S i + j) by lia. apply IH; [assumption| |].
    { now replace (S i + j) with (i + S j) by lia. }
    intros j' Hj'. replace (S i + j') with (i + S j') by lia.
    replace (S i + j) with (i + S j) by lia. apply Hlast. cbn. lia.
Qed.

Lemma featuresOf_none (headerList row : list value) (k : string) :
  (forall j, j < length row -> keyAt headerList j <> k) ->
  getProp k (featuresOf headerList row) = None.
Proof.
  intros Hk. unfold featuresOf. rewrite fillFeatures_other; [reflexivity|].
  intros j Hj. apply Hk. lia.
Qed.

(** No row gives a property named __proto__. *)
Lemma fillFeatures_proto (headerList row : list value) : forall i o,
  getProp "__proto__" (fillFeatures headerList i row o) = getProp "__proto__" o.
Proof.
  induction row as [|v row IH]; intros i o; [reflexivity|].
  rewrite fillFeatures_keyAt, IH. unfold assignProp.
  destruct (String.eqb_spec (keyAt headerList i) "__proto__") as [E|Hne];
    [reflexivity|].
  apply getProp_setProp_ne. congruence.
Qed.

Lemma featuresOf_proto (headerList row : list value) :
  getProp "__proto__" (featuresOf headerList row) = None.
Proof. unfold featuresOf. now rewrite fillFeatures_proto. Qed.
End Records.

(** X9.  The record of a row has one property for every column name other
    than __proto__: the value of column j is the value of the property named
    by the header of column j unless a column further right has the same
    name, so of two columns with one name the right one is kept.  A name
    that no column of the row has is not a property of the record, and
    neither is __proto__, whatever the header: the assignment to that key
    creates no property. *)
Theorem featuresOf_rightmost_column_wins `{Host} (headerList row : list value) :
  (forall j v,
      row !! j = Some v ->
      keyAt headerList j <> "__proto__" ->
      (forall j', j < j' < length row -> keyAt headerList j' <> keyAt headerList j) ->
      getProp (keyAt headerList j) (featuresOf headerList row) = Some v) /\
  (forall k,
      (forall j, j < length row -> keyAt headerList j <> k) ->
      getProp k (featuresOf headerList row) = None) /\
  getProp "__proto__" (featuresOf headerList row) = None.
Proof.
  split; [|split].
  - intros j v Hv Hproto Hlast.
    apply (fillFeatures_at headerList row 0 [] j v Hv Hproto Hlast).
  - intros k. apply featuresOf_none.
  - apply featuresOf_proto.
Qed.

Lemma featuresOf_rightmost_column_wins_witness :
  getProp "text"
    (@featuresOf (Demo.host Demo.emptyBucket)
       [Str "id"; Str "text"; Str "text"]
       [Str "abcd-1-1"; Str "first"; Str "second"]) = Some (Str "second").
Proof.
  apply (proj1 (@featuresOf_rightmost_column_wins (Demo.host Demo.emptyBucket)
                  [Str "id"; Str "text"; Str "text"]
                  [Str "abcd-1-1"; Str "first"; Str "second"]) 2 (Str "second")).
  - reflexivity.
  - discriminate.
  - cbn. intros j' Hj'. lia.
Defined.
(** ** The ids the pattern accepts *)

Lemma spanDigits_spec (s : string) :
  allChars isDigit (spanDigits s).1 = true /\
  startsWithDigit (spanDigits s).2 = false.
Proof.
  induction s as [|c s IH]; [auto|].
  cbn. destruct (isDigit c) eqn:Hc.
  - destruct (spanDigits s) as [d r]. cbn in *. now rewrite Hc.
  - cbn. auto.
Qed.

Lemma spanDigits_numeral (c : ascii) (d b : string) :
  allChars isDigit (String c d) = true ->
  exists d' r, spanDigits (String c d +:+ b) = (String c d', r).
Proof.
  cbn. intros Hd. apply andb_true_iff in Hd as [Hc _].
  rewrite app_String. cbn. rewrite Hc.
  destruct (spanDigits (d +:+ b)) as [d' r]. eauto.
Qed.

(** The part of the pattern after its first group, read off a match. *)
Lemma matchTail_sound (s page para : string) :
  matchTail s = Some (page, para) ->
  exists rest,
    s = "-" +:+ page +:+ "-" +:+ para +:+ rest /\
    isNumeral page = true /\ isNumeral para = true /\
    startsWithDigit rest = false.
Proof.
  unfold matchTail. destruct s as [|c s1]; [discriminate|].
  destruct (Ascii.eqb_spec c "-") as [->|Hc].
  2:{ destruct c as [[] [] [] [] [] [] [] []]; try discriminate. now contradiction Hc. }
  pose proof (spanDigits_eq s1) as Heq1.
  destruct (spanDigits_spec s1) as [Hd1 _].
  destruct (spanDigits s1) as [d1 r1]. cbn [fst snd] in *.
  destruct d1 as [|c1 d1]; [discriminate|].
  destruct r1 as [|c2 s2]; [discriminate|].
  destruct (Ascii.eqb_spec c2 "-") as [->|Hc2].
  2:{ destruct c2 as [[] [] [] [] [] [] [] []]; try discriminate. now contradiction Hc2. }
  pose proof (spanDigits_eq s2) as Heq2.
  destruct (spanDigits_spec s2) as [Hd2 Hr2].
  destruct (spanDigits s2) as [d2 r2]. cbn [fst snd] in *.
  destruct d2 as [|c3 d2]; [discriminate|].
  intros E. inversion E. subst page para. exists r2.
  split; [|unfold isNumeral; rewrite Hd1, Hd2; auto].
  rewrite <- Heq1, <- Heq2. reflexivity.
Qed.

Lemma matchHere_sound (s : string) : forall name page para,
  matchHere s = Some (name, page, para) ->
  exists rest,
    s = name +:+ "-" +:+ page +:+ "-" +:+ para +:+ rest /\
    noLineBreak name = true /\
    isNumeral page = true /\ isNumeral para = true /\
    startsWithDigit rest = false.
Proof.
  assert (Hstop : forall t name page para,
    match matchTail t with
    | Some (pg, pa) => Some (EmptyString, pg, pa)
    | None => None
    end = Some (name, page, para) ->
    exists rest,
      t = name +:+ "-" +:+ page +:+ "-" +:+ para +:+ rest /\
      noLineBreak name = true /\
      isNumeral page = true /\ isNumeral para = true /\
      startsWithDigit rest = false).
  { intros t name page para.
    destruct (matchTail t) as [[pg pa]|] eqn:E; [|discriminate].
    intros E'. inversion E'. subst name pg pa.
    destruct (matchTail_sound t page para E) as (rest & -> & Hpg & Hpa & Hrest).
    exists rest. rewrite app_empty_l. auto. }
  induction s as [|c s IH]; intros name page para.
  - cbn [matchHere]. apply Hstop.
  - cbn [matchHere]. destruct (isLineTerminator c) eqn:Hc; [apply Hstop|].
    destruct (matchHere s) as [[[g1 pg] pa]|] eqn:E; [|apply Hstop].
    intros E'. inversion E'. subst name pg pa.
    destruct (IH g1 page para eq_refl) as (rest & -> & Hg & Hpg & Hpa & Hrest).
    exists rest. rewrite app_String. split; [reflexivity|].
    split; [|auto]. cbn. now rewrite Hc.
Qed.

Lemma matchId_start (s : string) : forall m,
  matchId s = Some m -> exists pre t, s = pre +:+ t /\ matchHere t = Some m.
Proof.
  induction s as [|c s IH]; intros m; cbn [matchId].
  - destruct (matchHere "") eqn:E; [|discriminate].
    intros E'. inversion E'. subst. now exists "", "".
  - destruct (matchHere (String c s)) eqn:E.
    + intros E'. inversion E'. subst. now exists "", (String c s).
    + intros E'. destruct (IH m E') as (pre & t & -> & Ht).
      now exists (String c pre), t.
Qed.

Lemma matchTail_accepts (page para b : string) :
  isNumeral page = true -> isNumeral para = true ->
  matchTail ("-" +:+ page +:+ "-" +:+ para +:+ b) <> None.
Proof.
  intros Hpage Hpara.
  apply isNumeral_inv in Hpage as (Hpage & c1 & d1 & E1).
  apply isNumeral_inv in Hpara as (Hpara & c2 & d2 & E2).
  change ("-" +:+ page +:+ "-" +:+ para +:+ b)
    with (String "-" (page +:+ String "-" (para +:+ b))).
  cbn [matchTail]. rewrite (spanDigits_dash page _ Hpage).
  rewrite E1 at 1. subst para.
  destruct (spanDigits_numeral c2 d2 b Hpara) as (d' & r & ->). discriminate.
Qed.

Lemma matchHere_accepts (t : string) : matchTail t <> None -> matchHere t <> None.
Proof.
  intros Ht. destruct t as [|c t]; cbn [matchHere].
  - now destruct (matchTail "") as [[pg pa]|].
  - destruct (isLineTerminator c).
    + now destruct (matchTail (String c t)) as [[pg pa]|].
    + destruct (matchHere t) as [[[g1 pg] pa]|]; [discriminate|].
      now destruct (matchTail (String c t)) as [[pg pa]|].
Qed.

Lemma matchId_accepts (a t : string) : matchHere t <> None -> matchId (a +:+ t) <> None.
Proof.
  intros Ht. induction a as [|c a IH].
  - rewrite app_empty_l. destruct t; cbn [matchId];
      now destruct (matchHere _).
  - rewrite app_String. cbn [matchId].
    now destruct (matchHere (String c (a +:+ t))).
Qed.

(** X10.  The pattern of the builder is not anchored: an id is accepted
    exactly when it contains, anywhere, a dash, one digit or more, a dash
    and one digit or more.  The groups of a match are what stands around
    the two dashes: in front a name without line break, then the page
    digits, then all the paragraph digits there are. *)
Theorem matchId_accepts_dash_digits_dash_digits :
  (forall s,
      matchId s <> None <->
      exists a page para b,
        s = a +:+ "-" +:+ page +:+ "-" +:+ para +:+ b /\
        isNumeral page = true /\ isNumeral para = true) /\
  (forall s name page para,
      matchId s = Some (name, page, para) ->
      exists pre rest,
        s = pre +:+ name +:+ "-" +:+ page +:+ "-" +:+ para +:+ rest /\
        noLineBreak name = true /\
        isNumeral page = true /\ isNumeral para = true /\
        startsWithDigit rest = false).
Proof.
  assert (Hsound : forall s name page para,
    matchId s = Some (name, page, para) ->
    exists pre rest,
      s = pre +:+ name +:+ "-" +:+ page +:+ "-" +:+ para +:+ rest /\
      noLineBreak name = true /\
      isNumeral page = true /\ isNumeral para = true /\
      startsWithDigit rest = false).
  { intros s name page para E.
    destruct (matchId_start s _ E) as (pre & t & -> & Ht).
    destruct (matchHere_sound t name page para Ht) as (rest & -> & Hprops).
    now exists pre, rest. }
  split; [|exact Hsound].
  intros s. split.
  - destruct (matchId s) as [[[name page] para]|] eqn:E; [intros _|congruence].
    destruct (Hsound s name page para E) as (pre & rest & -> & _ & Hpg & Hpa & _).
    exists (pre +:+ name), page, para, rest. rewrite app_assoc_str. auto.
  - intros (a & page & para & b & -> & Hpg & Hpa).
    apply matchId_accepts, matchHere_accepts. now apply matchTail_accepts.
Qed.

Lemma matchId_accepts_dash_digits_dash_digits_witness :
  exists pre rest,
    "doc-3-12 (draft)" = pre +:+ "doc" +:+ "-" +:+ "3" +:+ "-" +:+ "12" +:+ rest /\
    noLineBreak "doc" = true /\
    isNumeral "3" = true /\ isNumeral "12" = true /\
    startsWithDigit rest = false.
Proof.
  apply (proj2 matchId_accepts_dash_digits_dash_digits "doc-3-12 (draft)").
  reflexivity.
Defined.
(** ** The builder on sheets of any content *)

Section BuilderEdges.
Context `{Host}.

Lemma sheetVals_first (s : sheet) :
  1 <= gridLastColumn (grid s) ->
  exists row rest, sheetVals s = row :: rest /\
                   length row = gridLastColumn (grid s).
Proof.
  intros Hlc. unfold sheetVals, readRange.
  destruct (gridLastRow (grid s)) as [|lr] eqn:E.
  { apply gridLastRow_zero in E. lia. }
  cbn [seq map]. eexists _, _. split; [reflexivity|].
  now rewrite length_map, length_seq.
Qed.

Lemma keyAt_header (s : sheet) (j : nat) :
  j < gridLastColumn (grid s) ->
  exists c, c ∈ sheetHeader s /\ keyAt (sheetHeader s) j = propertyKey c.
Proof.
  intros Hj. rewrite <- sheetHeader_length in Hj.
  destruct (lookup_lt_is_Some_2 _ _ Hj) as [c Hc].
  exists c. split; [apply list_elem_of_lookup; now exists j|].
  unfold keyAt. now rewrite Hc.
Qed.
End BuilderEdges.

(** X11.  On a sheet that has content but no column named id the builder
    raises a TypeError, whatever the rows are, and also when the sheet has
    a header row only: the builder always reads one row at least, and the
    record of that row has no id to match.  getParaDict raises with it. *)
Theorem buildParaDictFromSheet_needs_id_column `{Host}
  (w : world) (h : nat) (s : sheet) :
  findIndex (isNamed pdfId) (sheets w) = Some h ->
  sheets w !! h = Some s ->
  1 <= gridLastColumn (grid s) ->
  (forall c, c ∈ sheetHeader s -> propertyKey c <> "id") ->
  buildParaDictFromSheet w = (Raise TypeError, w) /\
  getParaDict w = (Raise TypeError, w).
Proof.
  intros Hfind Hs Hlc Hnoid.
  assert (E : buildParaDictFromSheet w = (Raise TypeError, w)).
  { rewrite (buildParaDictFromSheet_on_sheet w h s Hfind Hs).
    replace (1 <=? gridLastColumn (grid s)) with true
      by (symmetry; apply Nat.leb_le; lia).
    destruct (sheetVals_first s Hlc) as (row & rest & -> & Hlen).
    cbn [forEachRow]. unfold addRow. fold (featuresOf (sheetHeader s) row).
    rewrite (featuresOf_none (sheetHeader s) row "id"); [reflexivity|].
    intros j Hj. rewrite Hlen in Hj.
    destruct (keyAt_header s j Hj) as (c & Hc & ->). now apply Hnoid. }
  split; [exact E|]. now rewrite getParaDict_run, Hfind, E.
Qed.

Lemma buildParaDictFromSheet_needs_id_column_witness :
  @buildParaDictFromSheet (Demo.host Demo.emptyBucket) Demo.noIdColumn =
    (Raise TypeError, Demo.noIdColumn) /\
  @getParaDict (Demo.host Demo.emptyBucket) Demo.noIdColumn =
    (Raise TypeError, Demo.noIdColumn).
Proof.
  apply (@buildParaDictFromSheet_needs_id_column (Demo.host Demo.emptyBucket)
           Demo.noIdColumn 0 _ eq_refl eq_refl).
  - vm_compute. lia.
  - intros c Hin.
    change (c ∈ [Str "name"; Str "area"]) in Hin.
    repeat (apply elem_of_cons in Hin as [->|Hin]; [discriminate|]).
    now apply elem_of_nil in Hin.
Defined.

(** X12.  A sheet without data rows.  On a blank sheet the header range
    has no column: the builder and getParaDict raise the exception of the
    service.  On a sheet that has a header row with an id column and
    nothing below it, the builder returns the empty dictionary and logs 0
    pages and 0 paragraphs, and getParaDict returns the JSON text of the
    empty dictionary, not null. *)
Theorem buildParaDictFromSheet_without_data_rows `{Host}
  (w : world) (h : nat) (s : sheet) :
  findIndex (isNamed pdfId) (sheets w) = Some h ->
  sheets w !! h = Some s ->
  (gridLastRow (grid s) = 0 ->
   buildParaDictFromSheet w = (Raise ServiceException, w) /\
   getParaDict w = (Raise ServiceException, w)) /\
  (gridLastRow (grid s) = 1 -> headerHasId (sheetHeader s) ->
   buildParaDictFromSheet w =
     (Ret [], logged "Built paraDict with 0 pages, 0 paragraphs." w) /\
   getParaDict w =
     (Ret (Some (JSON_stringify [])),
      logged "paraDict returned."
        (logged "Built paraDict with 0 pages, 0 paragraphs." w))).
Proof.
  intros Hfind Hs. split.
  - intros Hlr. apply (getParaDict_blank w h s Hfind Hs).
    now apply gridLastRow_zero.
  - intros Hlr Hid.
    assert (E : buildParaDictFromSheet w =
                (Ret [], logged "Built paraDict with 0 pages, 0 paragraphs." w)).
    { destruct (headerHasId_content s Hid) as [Hlr' Hlc].
      rewrite (buildParaDictFromSheet_run w h s Hfind Hs Hlr' Hlc).
      rewrite (forEachRow_sheetVals s emptyBuild Hid).
      unfold sheetDataRows. rewrite Hlr. reflexivity. }
    split; [exact E|]. now rewrite getParaDict_run, Hfind, E.
Qed.

Lemma buildParaDictFromSheet_without_data_rows_witness :
  @buildParaDictFromSheet (Demo.host Demo.emptyBucket) Demo.headerOnly =
    (Ret [], logged "Built paraDict with 0 pages, 0 paragraphs." Demo.headerOnly) /\
  @getParaDict (Demo.host Demo.emptyBucket) Demo.headerOnly =
    (Ret (Some "{}"),
     logged "paraDict returned."
       (logged "Built paraDict with 0 pages, 0 paragraphs." Demo.headerOnly)).
Proof.
  apply (proj2 (@buildParaDictFromSheet_without_data_rows
                  (Demo.host Demo.emptyBucket) Demo.headerOnly 0 _ eq_refl eq_refl)).
  - reflexivity.
  - exists (Str "id"). split; [|reflexivity]. vm_compute. apply elem_of_cons. now left.
Defined.
(** ** The counts of the builder *)

Lemma setProp_absent {V} (k : string) (v : V) (o : obj V) :
  getProp k o = None -> setProp k v o = o ++ [(k, v)] /\ k ∉ map fst o.
Proof.
  induction o as [|[k' v'] o IH]; cbn.
  - intros _. split; [reflexivity|apply not_elem_of_nil].
  - destruct (String.eqb_spec k k') as [->|Hne]; [discriminate|].
    intros Hnone. destruct (IH Hnone) as [-> Hnotin]. split; [reflexivity|].
    intros Hin. apply elem_of_cons in Hin as [Hin|Hin]; [congruence|contradiction].
Qed.

Lemma setProp_present {V} (k : string) (v v0 : V) (o : obj V) :
  getProp k o = Some v0 ->
  exists pre post, o = pre ++ (k, v0) :: post /\
                   setProp k v o = pre ++ (k, v) :: post.
Proof.
  induction o as [|[k' v'] o IH]; cbn; [discriminate|].
  destruct (String.eqb_spec k k') as [->|Hne].
  - intros E. inversion E. subst. now exists [], o.
  - intros E. destruct (IH E) as (pre & post & -> & ->).
    now exists ((k', v') :: pre), post.
Qed.

Lemma setProp_setProp {V} (k : string) (v v0 : V) (o : obj V) :
  setProp k v (setProp k v0 o) = setProp k v o.
Proof.
  induction o as [|[k' v'] o IH]; cbn.
  - now rewrite String.eqb_refl.
  - destruct (String.eqb k k') eqn:E; cbn; rewrite E; [reflexivity|].
    now rewrite IH.
Qed.

Lemma totalRecords_app (a b : obj (list (obj value))) :
  totalRecords (a ++ b) = totalRecords a + totalRecords b.
Proof. unfold totalRecords. rewrite map_app. apply sum_list_with_app. Qed.

Section Counts.
Context `{Host}.

Lemma matchId_page_numeral (id name page para : string) :
  matchId id = Some (name, page, para) -> isNumeral page = true.
Proof.
  intros E. destruct (matchId_start id _ E) as (pre & t & _ & Ht).
  now destruct (matchHere_sound t name page para Ht) as (rest & _ & _ & Hpg & _).
Qed.

Lemma sort_length (l : list (obj value)) :
  length (sort byArea l) = length l.
Proof. apply Permutation_length, sort_perm. Qed.

(** Handling a row keeps the counts in step with the dictionary. *)
Lemma addRow_countsAgree (headerList row : list value) (st st' : buildState) :
  countsAgree st -> addRow headerList st row = Ret st' -> countsAgree st'.
Proof.
  intros (Hpages & Hparas & Hnodup & Hall). unfold addRow.
  set (features := fillFeatures headerList 0 row []).
  destruct (getProp "id" features) as [[q|ident]|]; try discriminate.
  destruct (matchId ident) as [[[name page] para]|] eqn:Hm.
  2:{ intros E. inversion E. subst st'. repeat split; assumption. }
  pose proof (matchId_page_numeral ident name page para Hm) as Hpage.
  destruct (getProp page (paraDict st)) as [l|] eqn:Hl;
    cbn [paraDict pageCount paraCount].
  - rewrite Hl. cbn [default from_option]. unfold id.
    destruct (setProp_present page (sort byArea (l ++ [features])) l _ Hl)
      as (pre & post & Hd & ->).
    intros E. inversion E. subst st'. clear E. unfold countsAgree.
    cbn [paraDict pageCount paraCount]. rewrite Hd in *.
    assert (Hlen : length (sort byArea (l ++ [features])) = S (length l)).
    { rewrite sort_length, length_app. cbn. lia. }
    split; [|split; [|split]].
    + rewrite Hpages, !length_app. reflexivity.
    + rewrite Hparas, !totalRecords_app. unfold totalRecords. cbn.
      rewrite Hlen. lia.
    + now rewrite map_app in *.
    + apply Forall_app in Hall as [Hpre Hpost]. apply Forall_app.
      split; [exact Hpre|]. apply Forall_cons in Hpost as [[Hk _] Hpost].
      constructor; [|exact Hpost]. split; [exact Hk|].
      cbn [snd]. intros Hnil. rewrite Hnil in Hlen. discriminate Hlen.
  - rewrite getProp_setProp_eq. cbn [default from_option app]. unfold id.
    rewrite setProp_setProp. change ([] ++ [features]) with [features].
    destruct (setProp_absent page (sort byArea [features]) _ Hl) as [-> Hnotin].
    intros E. inversion E. subst st'. clear E. unfold countsAgree.
    cbn [paraDict pageCount paraCount].
    split; [|split; [|split]].
    + rewrite Hpages, length_app. cbn. lia.
    + rewrite Hparas, totalRecords_app. unfold totalRecords. cbn. lia.
    + rewrite map_app. cbn. apply NoDup_app. split; [exact Hnodup|].
      split; [|apply NoDup_singleton].
      intros x Hx Hin. apply list_elem_of_singleton in Hin. now subst x.
    + apply Forall_app. split; [exact Hall|].
      constructor; [|constructor]. split; [exact Hpage|discriminate].
Qed.

Lemma forEachRow_countsAgree (headerList : list value) (vals : list (list value)) :
  forall st st',
  countsAgree st -> forEachRow headerList vals st = Ret st' -> countsAgree st'.
Proof.
  induction vals as [|row vals IH]; intros st st' Hst; cbn [forEachRow].
  - intros E. now inversion E; subst.
  - destruct (addRow headerList st row) as [st1|e|] eqn:E1; cbn [obind];
      try discriminate.
    apply IH. exact (addRow_countsAgree headerList row st st1 Hst E1).
Qed.

(** What a completed build went through. *)
Lemma buildParaDictFromSheet_completed (w w' : world) d :
  buildParaDictFromSheet w = (Ret d, w') ->
  exists h s st,
    findIndex (isNamed pdfId) (sheets w) = Some h /\
    sheets w !! h = Some s /\
    forEachRow (sheetHeader s) (sheetVals s) emptyBuild = Ret st /\
    d = paraDict st /\ w' = logged (builtMessage st) w.
Proof.
  destruct (findIndex (isNamed pdfId) (sheets w)) as [h|] eqn:Hfind.
  2:{ now rewrite buildParaDictFromSheet_no_sheet. }
  destruct (findIndex_Some _ _ _ Hfind) as (s & Hs & _).
  rewrite (buildParaDictFromSheet_on_sheet w h s Hfind Hs).
  destruct (1 <=? gridLastColumn (grid s)); [|discriminate].
  destruct (forEachRow (sheetHeader s) (sheetVals s) emptyBuild) as [st|e|] eqn:E;
    try discriminate.
  intros E'. inversion E'. exists h, s, st. auto.
Qed.
End Counts.

(** X13.  The counts the builder logs are those of the dictionary it
    returns: the number of pages is the number of its entries and the number
    of paragraphs the number of records in all its buckets.  The entries
    have distinct page numbers, each page number is a numeral, and no bucket
    is empty.  A completed build has logged that one line and changed
    nothing else. *)
Theorem buildParaDictFromSheet_logs_its_counts `{Host} (w w' : world)
  (d : obj (list (obj value))) :
  buildParaDictFromSheet w = (Ret d, w') ->
  w' = logged ("Built paraDict with " +:+ decimal (N.of_nat (length d)) +:+
               " pages, " +:+ decimal (N.of_nat (totalRecords d)) +:+
               " paragraphs.") w /\
  NoDup (map fst d) /\
  Forall (fun kv => isNumeral kv.1 = true /\ kv.2 <> []) d.
Proof.
  intros Hrun.
  destruct (buildParaDictFromSheet_completed w w' d Hrun)
    as (h & s & st & _ & _ & Hrows & -> & ->).
  assert (Hempty : countsAgree emptyBuild).
  { repeat split; [apply NoDup_nil_2|constructor]. }
  destruct (forEachRow_countsAgree _ _ _ _ Hempty Hrows)
    as (Hpages & Hparas & Hnodup & Hall).
  split; [|split; assumption].
  unfold builtMessage. now rewrite Hpages, Hparas.
Qed.

Lemma buildParaDictFromSheet_logs_its_counts_witness :
  logged "Built paraDict with 2 pages, 3 paragraphs." Demo.threeRecords =
  logged "Built paraDict with 2 pages, 3 paragraphs." Demo.threeRecords /\
  NoDup ["3"; "4"] /\
  Forall (fun kv : string * list (obj value) => isNumeral kv.1 = true /\ kv.2 <> [])
    [("3", [Demo.record "doc-3-2" 200; Demo.record "doc-3-1" 50]);
     ("4", [Demo.record "doc-4-1" 10])].
Proof.
  apply (@buildParaDictFromSheet_logs_its_counts (Demo.host Demo.emptyBucket)
           Demo.threeRecords
           (logged "Built paraDict with 2 pages, 3 paragraphs." Demo.threeRecords)
           [("3", [Demo.record "doc-3-2" 200; Demo.record "doc-3-1" 50]);
            ("4", [Demo.record "doc-4-1" 10])]).
  vm_compute. reflexivity.
Defined.
(** ** What the reading calls leave alone *)

Lemma onlyLogs_refl (w : world) : onlyLogs w w.
Proof. repeat split. exists []. now rewrite app_nil_r. Qed.

Lemma onlyLogs_logged (msg : string) (w w' : world) :
  onlyLogs w w' -> onlyLogs w (logged msg w').
Proof.
  intros (Hs & Hr & l & Hl). repeat split; cbn; try assumption.
  exists (l ++ [msg]). now rewrite Hl, app_assoc.
Qed.

Section ReadOnly.
Context `{Host}.

Lemma buildParaDictFromSheet_onlyLogs (w : world) :
  onlyLogs w (snd (buildParaDictFromSheet w)).
Proof.
  destruct (findIndex (isNamed pdfId) (sheets w)) as [h|] eqn:Hfind.
  2:{ rewrite buildParaDictFromSheet_no_sheet by assumption. apply onlyLogs_refl. }
  destruct (findIndex_Some _ _ _ Hfind) as (s & Hs & _).
  rewrite (buildParaDictFromSheet_on_sheet w h s Hfind Hs).
  destruct (1 <=? gridLastColumn (grid s)); [|apply onlyLogs_refl].
  destruct (forEachRow _ _ _); cbn [snd];
    [apply onlyLogs_logged| |]; apply onlyLogs_refl.
Qed.
End ReadOnly.

(** X14.  The reading calls leave the spreadsheet and the storage alone:
    whatever their outcome, buildParaDictFromSheet and getParaDict change
    no sheet and send no request, they only add lines to the log; and
    getImageUrl returns the image URL of the document, with the page
    placeholder in it, after logging one line. *)
Theorem getParaDict_only_logs `{Host} (w : world) :
  onlyLogs w (snd (buildParaDictFromSheet w)) /\
  onlyLogs w (snd (getParaDict w)) /\
  getImageUrl w =
    (Ret ("https://storage.googleapis.com/" +:+ BUCKET_NAME +:+ "/" +:+ pdfId +:+
          "-images/%%page%%.png"),
     logged "Image URL returned." w).
Proof.
  pose proof (buildParaDictFromSheet_onlyLogs w) as Hbuild.
  split; [exact Hbuild|]. split.
  - rewrite getParaDict_run.
    destruct (findIndex (isNamed pdfId) (sheets w)).
    + destruct (buildParaDictFromSheet w) as [[d|e|] w1]; cbn [snd] in *;
        [now apply onlyLogs_logged|assumption|assumption].
    + apply onlyLogs_logged, onlyLogs_refl.
  - unfold getImageUrl, bind, Logger_log, ret, imageUrl, bucketUrl, logged.
    now rewrite !app_assoc_str.
Qed.
(** ** updateLabel on any sheet *)

Lemma strictEqStr_true (s : string) (v : value) :
  strictEqStr s v = true <-> v = Str s.
Proof.
  destruct v as [q|t]; cbn; [split; discriminate|].
  rewrite String.eqb_eq. split; [now intros ->|]. intros E. now inversion E.
Qed.

(** [indexOf]: the place of the first element that is the string, or -1
    when no element is. *)
Lemma indexOfFrom_spec (s : string) (l : list value) : forall i,
  ((Str s ∉ l) /\ indexOfFrom s l i = (-1)%Z) \/
  exists j, indexOfFrom s l i = (i + Z.of_nat j)%Z /\
            l !! j = Some (Str s) /\
            forall j', j' < j -> l !! j' <> Some (Str s).
Proof.
  induction l as [|v l IH]; intros i; cbn.
  - left. split; [apply not_elem_of_nil|reflexivity].
  - destruct (strictEqStr s v) eqn:Hv.
    + apply strictEqStr_true in Hv. subst v. right. exists 0.
      split; [lia|]. split; [reflexivity|]. intros j' Hj'. lia.
    + assert (Hne : v <> Str s).
      { intros E. apply strictEqStr_true in E. congruence. }
      destruct (IH (i + 1)%Z) as [[Hnotin E]|(j & E & Hj & Hfirst)].
      * left. split; [|exact E]. intros Hin.
        apply elem_of_cons in Hin as [Hin|Hin]; [congruence|contradiction].
      * right. exists (S j). split; [lia|]. split; [exact Hj|].
        intros [|j'] Hj'; cbn; [congruence|]. apply Hfirst. lia.
Qed.

Lemma findCell_spec (p : value -> bool) (g : list (list value)) : forall r0 r c,
  findCell p g r0 = Some (r, c) ->
  r0 <= r /\ 1 <= c /\
  (exists row v, g !! (r - r0) = Some row /\ row !! (c - 1) = Some v /\ p v = true) /\
  (forall i row v, i < r - r0 -> g !! i = Some row -> v ∈ row -> p v = false).
Proof.
  induction g as [|row g IH]; intros r0 r c E; cbn in E; [discriminate|].
  destruct (findIndex p row) as [j|] eqn:Hj.
  - inversion E. subst r c. clear E.
    destruct (findIndex_Some _ _ _ Hj) as (v & Hv & Hp & _).
    split; [lia|]. split; [lia|]. split.
    + exists row, v. replace (r0 - r0) with 0 by lia. cbn.
      replace (j - 0) with j by lia. auto.
    + intros i row' v' Hi. lia.
  - destruct (IH _ _ _ E) as (Hr & Hc & (row' & v & Hrow' & Hv & Hp) & Hbefore).
    split; [lia|]. split; [exact Hc|]. split.
    + exists row', v. replace (r - r0) with (S (r - S r0)) by lia. cbn. auto.
    + intros [|i] row'' v' Hi Hrow'' Hin; cbn in Hrow''.
      * inversion Hrow''. subst row''. rewrite findIndex_None in Hj. now apply Hj.
      * apply (Hbefore i row'' v'); [lia|assumption|assumption].
Qed.

Section UpdateLabelRuns.
Context `{Host}.

Lemma labelColumnOf_spec (s : sheet) :
  ((Str "label" ∉ sheetHeader s) /\ labelColumnOf s = 0) \/
  (1 <= labelColumnOf s /\
   sheetHeader s !! (labelColumnOf s - 1) = Some (Str "label") /\
   forall j, j < labelColumnOf s - 1 -> sheetHeader s !! j <> Some (Str "label")).
Proof.
  unfold labelColumnOf, indexOf.
  destruct (indexOfFrom_spec "label" (sheetHeader s) 0)
    as [[Hnotin ->]|(j & -> & Hj & Hfirst)].
  - left. auto.
  - right. replace (Z.to_nat (0 + Z.of_nat j + 1)) with (S j) by lia.
    replace (S j - 1) with j by lia. split; [lia|]. auto.
Qed.

Lemma labelColumnOf_found (s : sheet) :
  1 <= labelColumnOf s <-> Str "label" ∈ sheetHeader s.
Proof.
  destruct (labelColumnOf_spec s) as [[Hnotin E]|(Hge & Hat & _)].
  - rewrite E. split; [lia|contradiction].
  - split; [intros _|intros _; exact Hge].
    apply list_elem_of_lookup. eauto.
Qed.

Lemma label_in_header (s : sheet) :
  Str "label" ∈ sheetHeader s \/ (Str "label" ∉ sheetHeader s).
Proof.
  destruct (labelColumnOf_spec s) as [[Hnotin _]|(Hge & _)]; [now right|left].
  now apply labelColumnOf_found.
Qed.

Lemma updateLabel_no_sheet (id label : string) (w : world) :
  findIndex (isNamed pdfId) (sheets w) = None ->
  updateLabel id label w = (Raise TypeError, w).
Proof.
  intros Hnone. unfold updateLabel. unfold bind at 1.
  unfold getSheet at 1, getSheetByName. fold (isNamed pdfId). now rewrite Hnone.
Qed.

(** updateLabel on a spreadsheet that has the sheet of the document. *)
Lemma updateLabel_run (id label : string) (w : world) (h : nat) (s : sheet) :
  findIndex (isNamed pdfId) (sheets w) = Some h ->
  sheets w !! h = Some s ->
  updateLabel id label w =
  match findCell (containsText id) (grid s) 1 with
  | None => (Raise TypeError, w)
  | Some (r, c) =>
      if (1 <=? gridLastColumn (grid s)) && (1 <=? labelColumnOf s)
      then (Ret tt, mkWorld (<[h := labelled s r label]> (sheets w))
                      (requests w) (logs w))
      else (Raise ServiceException, w)
  end.
Proof.
  intros Hfind Hs. unfold updateLabel. unfold bind at 1.
  unfold getSheet at 1, getSheetByName. fold (isNamed pdfId). rewrite Hfind.
  unfold bind at 1. unfold textFinder_findNext, bind, theSheet.
  rewrite Hs. cbn [ret]. fold (containsText id).
  destruct (findCell (containsText id) (grid s) 1) as [[r c]|] eqn:Hcell;
    cbn [option_map]; [|reflexivity].
  cbn [fst snd getRow]. rewrite (getHeaderList_run w h s Hfind Hs).
  destruct (1 <=? gridLastColumn (grid s)); cbn [andb]; [|reflexivity].
  unfold getSheet, getSheetByName. fold (isNamed pdfId). rewrite Hfind.
  fold (labelColumnOf s). unfold sheet_getRange.
  destruct (findCell_from _ _ _ _ _ Hcell) as [Hr Hc].
  replace (1 <=? r) with true by (symmetry; apply Nat.leb_le; lia).
  destruct (1 <=? labelColumnOf s); cbn [Nat.leb andb]; [|reflexivity].
  cbn [ret]. unfold range_setValue, range_setBackground.
  cbn [rangeSheet getRow getColumn]. rewrite !modifySheet_run.
  cbn [sheets requests logs]. do 2 f_equal.
  apply list_eq. intros i. destruct (Nat.eq_dec i h) as [->|Hne].
  - rewrite !list_lookup_alter_eq, Hs.
    rewrite list_lookup_insert_eq by (eapply lookup_lt_Some; eassumption).
    reflexivity.
  - now rewrite !list_lookup_alter_ne, list_lookup_insert_ne by congruence.
Qed.

(** A cell that contains a text is not blank, so its sheet has a last
    column. *)
Lemma findCell_content (text : string) (g : list (list value)) (r c : nat) :
  findCell (containsText text) g 1 = Some (r, c) -> 1 <= gridLastColumn g.
Proof.
  intros E.
  destruct (findCell_spec _ _ _ _ _ E) as (_ & _ & (row & v & Hrow & Hv & Hp) & _).
  unfold containsText in Hp. apply andb_true_iff in Hp as [Hnb _].
  apply negb_true_iff in Hnb.
  pose proof (gridLastColumn_lookup g _ _ row v Hrow Hv Hnb). lia.
Qed.
End UpdateLabelRuns.
(** X15.  updateLabel completes exactly when the spreadsheet has the sheet
    of the document, some cell of that sheet contains the id, and the
    header row has a cell "label".  Without the sheet, and with the sheet
    but no cell that contains the id, it raises a TypeError; with such a
    cell but no label column, the range it asks for has column 0 and the
    service raises.  A call that does not complete has changed nothing. *)
Theorem updateLabel_completes_iff `{Host} (id label : string) (w : world) :
  (fst (updateLabel id label w) = Ret tt <->
   exists h s r c,
     findIndex (isNamed pdfId) (sheets w) = Some h /\
     sheets w !! h = Some s /\
     findCell (containsText id) (grid s) 1 = Some (r, c) /\
     Str "label" ∈ sheetHeader s) /\
  (fst (updateLabel id label w) <> Ret tt -> snd (updateLabel id label w) = w) /\
  (findIndex (isNamed pdfId) (sheets w) = None ->
   updateLabel id label w = (Raise TypeError, w)) /\
  (forall h s,
      findIndex (isNamed pdfId) (sheets w) = Some h -> sheets w !! h = Some s ->
      (findCell (containsText id) (grid s) 1 = None ->
       updateLabel id label w = (Raise TypeError, w)) /\
      (forall r c,
          findCell (containsText id) (grid s) 1 = Some (r, c) ->
          Str "label" ∉ sheetHeader s ->
          updateLabel id label w = (Raise ServiceException, w))).
Proof.
  assert (Hcases : forall h s,
    findIndex (isNamed pdfId) (sheets w) = Some h -> sheets w !! h = Some s ->
    (findCell (containsText id) (grid s) 1 = None ->
     updateLabel id label w = (Raise TypeError, w)) /\
    (forall r c,
        findCell (containsText id) (grid s) 1 = Some (r, c) ->
        (Str "label" ∉ sheetHeader s ->
         updateLabel id label w = (Raise ServiceException, w)) /\
        (Str "label" ∈ sheetHeader s ->
         fst (updateLabel id label w) = Ret tt))).
  { intros h s Hfind Hs. rewrite (updateLabel_run id label w h s Hfind Hs).
    split; [now intros ->|]. intros r c Hcell. rewrite Hcell.
    pose proof (findCell_content id _ _ _ Hcell) as Hlc.
    replace (1 <=? gridLastColumn (grid s)) with true
      by (symmetry; apply Nat.leb_le; lia).
    cbn [andb]. split; intros Hlabel.
    - rewrite <- labelColumnOf_found in Hlabel.
      now replace (1 <=? labelColumnOf s) with false
        by (symmetry; apply Nat.leb_gt; lia).
    - rewrite <- labelColumnOf_found in Hlabel.
      now replace (1 <=? labelColumnOf s) with true
        by (symmetry; apply Nat.leb_le; lia). }
  destruct (findIndex (isNamed pdfId) (sheets w)) as [h|] eqn:Hfind.
  - destruct (findIndex_Some _ _ _ Hfind) as (s & Hs & _).
    destruct (Hcases h s eq_refl Hs) as [Hnone Hsome].
    split; [|split; [|split]].
    + split.
      * intros Hret. exists h, s.
        destruct (findCell (containsText id) (grid s) 1) as [[r c]|] eqn:Hcell.
        -- exists r, c. split; [reflexivity|]. split; [exact Hs|].
           split; [reflexivity|].
           destruct (label_in_header s) as [Hin|Hnotin]; [exact Hin|].
           rewrite (proj1 (Hsome r c eq_refl) Hnotin) in Hret. discriminate Hret.
        -- rewrite (Hnone eq_refl) in Hret. discriminate Hret.
      * intros (h' & s' & r & c & Hh & Hs' & Hcell & Hlabel).
        inversion Hh. subst h'. rewrite Hs in Hs'. inversion Hs'. subst s'.
        exact (proj2 (Hsome r c Hcell) Hlabel).
    + intros Hfail.
      destruct (findCell (containsText id) (grid s) 1) as [[r c]|] eqn:Hcell.
      * destruct (label_in_header s) as [Hin|Hnotin].
        -- now rewrite (proj2 (Hsome r c eq_refl) Hin) in Hfail.
        -- now rewrite (proj1 (Hsome r c eq_refl) Hnotin).
      * now rewrite (Hnone eq_refl).
    + discriminate.
    + intros h' s' Hh Hs'. inversion Hh. subst h'.
      rewrite Hs in Hs'. inversion Hs'. subst s'.
      split; [exact Hnone|]. intros r c Hcell. exact (proj1 (Hsome r c Hcell)).
  - pose proof (updateLabel_no_sheet id label w Hfind) as Hno.
    split; [|split; [|split]].
    + split; [rewrite Hno; discriminate|].
      intros (h & _ & _ & _ & Hh & _). discriminate Hh.
    + intros _. now rewrite Hno.
    + intros _. exact Hno.
    + intros h s Hh. discriminate Hh.
Qed.

Lemma updateLabel_completes_iff_witness :
  @updateLabel (Demo.host Demo.emptyBucket) "abcd-9-9" "body" Demo.sortedByArea =
    (Raise TypeError, Demo.sortedByArea) /\
  @updateLabel (Demo.host Demo.emptyBucket) "doc-3-1" "body" Demo.threeRecords =
    (Raise ServiceException, Demo.threeRecords).
Proof.
  split.
  - apply (proj1 (proj2 (proj2 (proj2 (@updateLabel_completes_iff
             (Demo.host Demo.emptyBucket) "abcd-9-9" "body" Demo.sortedByArea)))
             0 _ eq_refl eq_refl)).
    reflexivity.
  - apply (proj2 (proj2 (proj2 (proj2 (@updateLabel_completes_iff
             (Demo.host Demo.emptyBucket) "doc-3-1" "body" Demo.threeRecords)))
             0 _ eq_refl eq_refl) 2 1).
    + reflexivity.
    + intros Hin. change (Str "label" ∈ [Str "id"; Str "area"]) in Hin.
      repeat (apply elem_of_cons in Hin as [Hin|Hin]; [discriminate Hin|]).
      now apply elem_of_nil in Hin.
Defined.
(** X16.  What a call of updateLabel that completes does, on every sheet.
    The row it takes is the first row, from the top, that has a cell
    containing the id; the column is the first whose header is "label".  The
    call writes the label into that one cell and gives it the wheat
    background; every other cell and every other background of the sheet
    stays as it was, and so do the name of the sheet, the other sheets, the
    requests and the log. *)
Theorem updateLabel_writes_label_cell `{Host}
  (id label : string) (w : world) (h : nat) (s : sheet) (r c : nat) :
  findIndex (isNamed pdfId) (sheets w) = Some h ->
  sheets w !! h = Some s ->
  findCell (containsText id) (grid s) 1 = Some (r, c) ->
  Str "label" ∈ sheetHeader s ->
  let column := labelColumnOf s in
  let s' := labelled s r label in
  updateLabel id label w =
    (Ret tt, mkWorld (<[h := s']> (sheets w)) (requests w) (logs w)) /\
  (containsText id (cellAt (grid s) r c) = true /\
   forall r' c', 1 <= r' < r -> containsText id (cellAt (grid s) r' c') = false) /\
  (1 <= column /\
   sheetHeader s !! (column - 1) = Some (Str "label") /\
   forall j, j < column - 1 -> sheetHeader s !! j <> Some (Str "label")) /\
  getName s' = getName s /\
  (forall r' c', 1 <= r' -> 1 <= c' ->
      cellAt (grid s') r' c' =
      if (r' =? r) && (c' =? column) then cellOfString label
      else cellAt (grid s) r' c') /\
  (forall r' c' colour,
      (r', c', colour) ∈ backgrounds s' <->
      (r' = r /\ c' = column /\ colour = "wheat") \/
      ((r', c') <> (r, column) /\ (r', c', colour) ∈ backgrounds s)).
Proof.
  intros Hfind Hs Hcell Hlabel column s'.
  pose proof (findCell_content id _ _ _ Hcell) as Hlc.
  destruct (findCell_spec _ _ _ _ _ Hcell)
    as (Hr & Hc & (row & v & Hrow & Hv & Hp) & Hbefore).
  destruct (labelColumnOf_spec s) as [[Hnotin _]|(Hcol & Hat & Hfirst)];
    [contradiction|].
  split; [|split; [|split; [|split; [|split]]]].
  - rewrite (updateLabel_run id label w h s Hfind Hs), Hcell.
    replace (1 <=? gridLastColumn (grid s)) with true
      by (symmetry; apply Nat.leb_le; lia).
    now replace (1 <=? labelColumnOf s) with true
      by (symmetry; apply Nat.leb_le; lia).
  - split.
    + unfold cellAt. now rewrite Hrow, Hv.
    + intros r' c' Hr'. unfold cellAt.
      destruct (grid s !! (r' - 1)) as [row'|] eqn:Hrow'; [|reflexivity].
      destruct (row' !! (c' - 1)) as [v'|] eqn:Hv'; [|reflexivity].
      cbn. apply (Hbefore (r' - 1) row' v'); [lia|assumption|].
      apply list_elem_of_lookup. eauto.
  - auto.
  - reflexivity.
  - intros r' c' Hr' Hc'. subst s'. unfold labelled. cbn [grid].
    apply cellAt_setCell; lia.
  - intros r' c' colour. subst s' column. unfold labelled. cbn [backgrounds].
    rewrite elem_of_cons, list_elem_of_filter. cbn [fst snd].
    split.
    + intros [E|[Hne Hin]].
      * inversion E. auto.
      * right. split; [|exact Hin]. intros E. inversion E. subst r' c'.
        rewrite !Nat.eqb_refl in Hne. exact Hne.
    + intros [(-> & -> & ->)|[Hne Hin]]; [now left|right].
      split; [|exact Hin].
      destruct (Nat.eqb_spec r' r) as [->|]; [|exact I].
      destruct (Nat.eqb_spec c' (labelColumnOf s)) as [->|]; [|exact I].
      now contradiction Hne.
Qed.

Lemma updateLabel_writes_label_cell_witness :
  @updateLabel (Demo.host Demo.emptyBucket) "ABCD-3-1" "other" Demo.oneSheet =
  (Ret tt,
   mkWorld
     [mkSheet "abcd"
        [[Str "id"; Str "text"; Str "area"; Str "label"];
         [Str "abcd-3-1"; Str "Chapter one"; Num 50; Str "other"]]
        [(2, 4, "wheat")]]
     [] []).
Proof.
  apply (@updateLabel_writes_label_cell (Demo.host Demo.emptyBucket)
           "ABCD-3-1" "other" Demo.oneSheet 0 Demo.currentSheet 2 1);
    try reflexivity.
  vm_compute. apply elem_of_cons. right. apply elem_of_cons. right.
  apply elem_of_cons. right. apply elem_of_cons. now left.
Defined.

(** ** The reconciliation step, once more *)

Lemma withLabel_length (x : list string) : length (withLabel x) = S (length x).
Proof. unfold withLabel. rewrite length_app. cbn. lia. Qed.

Lemma forallb_withLabel (n : nat) (rows : list (list string)) :
  forallb (fun row => length row =? S n) (map withLabel rows) =
  forallb (fun row => length row =? n) rows.
Proof.
  induction rows as [|x rows IH]; [reflexivity|].
  cbn. now rewrite withLabel_length, IH.
Qed.

(** X17.  The reconciliation step is idempotent: run on the rows it has
    returned it returns them unchanged.  It keeps the number of rows, and it
    neither makes nor breaks a rectangle: the rows it returns all have the
    length of their header row exactly when the rows it was given had.  So a
    run of downloadLabels (do_get.gs) that completes has parsed rows that
    were of one length already. *)
Theorem addLabelColumn_is_idempotent `{Host} :
  (forall rows rows' : list (list string),
      addLabelColumn rows = Ret rows' ->
      addLabelColumn rows' = Ret rows' /\
      length rows' = length rows /\
      rectangular rows' = rectangular rows) /\
  (forall (fuel : nat) (w : world),
      fst (downloadLabels fuel w) = Ret tt ->
      exists csv parsed,
        fst (downloadLoop fuel 1 "" w) = Ret csv /\
        parseCsv csv = Some parsed /\
        rectangular parsed = true).
Proof.
  assert (Hstep : forall rows rows' : list (list string),
      addLabelColumn rows = Ret rows' ->
      addLabelColumn rows' = Ret rows' /\
      length rows' = length rows /\
      rectangular rows' = rectangular rows).
  { intros rows rows' E.
    destruct (addLabelColumn_has_label rows rows' E)
      as (header' & rest' & -> & Hin & Hlen).
    split; [|split; [exact Hlen|]].
    - unfold addLabelColumn.
      now replace (includes "label" header') with true
        by (symmetry; now apply includes_true).
    - destruct rows as [|header rest]; [discriminate E|].
      destruct (includes "label" header) eqn:Hinc.
      + unfold addLabelColumn in E. rewrite Hinc in E. now inversion E.
      + destruct (addLabelColumn_adds header rest _ Hinc E) as [E' Hhd].
        inversion E'. subst header' rest'. cbn [rectangular forallb].
        rewrite !length_app, !Nat.eqb_refl. cbn [length andb].
        replace (length header + 1) with (S (length header)) by lia.
        rewrite forallb_withLabel.
        now replace (1 <=? length header) with true
          by (symmetry; apply Nat.leb_le; lia). }
  split; [exact Hstep|].
  intros fuel w Hret.
  destruct (downloadLabels fuel w) as [o w'] eqn:Hrun. cbn in Hret. subst o.
  destruct (downloadLabels_completed fuel w w' Hrun)
    as (csv & parsed & rows & w1 & w2 & Hloop & Hcsv & Hadd & _ & _ & Hrect & _).
  exists csv, parsed. rewrite Hloop. split; [reflexivity|]. split; [exact Hcsv|].
  destruct (Hstep parsed rows Hadd) as (_ & _ & <-). exact Hrect.
Qed.

Lemma addLabelColumn_is_idempotent_witness :
  addLabelColumn [["id"; "text"; "label"]; ["abcd-1-1"; "Chapter one"; "other"]] =
    Ret [["id"; "text"; "label"]; ["abcd-1-1"; "Chapter one"; "other"]] /\
  length [["id"; "text"; "label"]; ["abcd-1-1"; "Chapter one"; "other"]] = 2 /\
  rectangular [["id"; "text"; "label"]; ["abcd-1-1"; "Chapter one"; "other"]] =
    rectangular [["id"; "text"]; ["abcd-1-1"; "Chapter one"]].
Proof.
  apply (proj1 (@addLabelColumn_is_idempotent (Demo.host Demo.emptyBucket))
           [["id"; "text"]; ["abcd-1-1"; "Chapter one"]]).
  reflexivity.
Defined.
(** ** The comparator of the sort *)

(** X18.  On two records whose areas are numbers the comparator of the
    builder is consistent: it answers 1, 0 or -1 as the first area is
    smaller than, equal to or greater than the second, and the answer for
    the records swapped is the opposite.  When one record has no area, or a
    text that is not a number, and the other a number, it answers -1 both
    ways round: each record is to come before the other, and the order the
    sort leaves them in is up to the engine. *)
Theorem byArea_consistent_on_numbers `{Host} (a b : obj value) :
  (forall qa qb,
      getProp "area" a = Some (Num qa) -> getProp "area" b = Some (Num qb) ->
      (byArea a b = 1%Z <-> (qa < qb)%Q) /\
      (byArea a b = 0%Z <-> (qa == qb)%Q) /\
      (byArea a b = (-1)%Z <-> (qb < qa)%Q) /\
      byArea b a = (- byArea a b)%Z) /\
  (forall qb,
      getProp "area" a = None -> getProp "area" b = Some (Num qb) ->
      byArea a b = (-1)%Z /\ byArea b a = (-1)%Z) /\
  (forall s qb,
      getProp "area" a = Some (Str s) -> StringToNumber s = None ->
      getProp "area" b = Some (Num qb) ->
      byArea a b = (-1)%Z /\ byArea b a = (-1)%Z).
Proof.
  split; [|split].
  - intros qa qb Ha Hb. unfold byArea. rewrite Ha, Hb. cbn. unfold Qltb.
    destruct (Qle_bool qb qa) eqn:E1; destruct (Qle_bool qa qb) eqn:E2; cbn.
    + apply Qle_bool_iff in E1, E2.
      assert (Heq : (qa == qb)%Q) by lra.
      rewrite (proj2 (Qeq_bool_iff qa qb) Heq).
      rewrite (proj2 (Qeq_bool_iff qb qa) (Qeq_sym _ _ Heq)).
      repeat split; try discriminate; try reflexivity; intros; lra.
    + apply Qle_bool_iff in E1.
      assert (Hlt : (qb < qa)%Q).
      { destruct (Qlt_le_dec qb qa) as [Hlt|Hle]; [exact Hlt|].
        apply Qle_bool_iff in Hle. congruence. }
      destruct (Qeq_bool qa qb) eqn:E3.
      { apply Qeq_bool_iff in E3. lra. }
      repeat split; try discriminate; try reflexivity; intros; lra.
    + apply Qle_bool_iff in E2.
      assert (Hlt : (qa < qb)%Q).
      { destruct (Qlt_le_dec qa qb) as [Hlt|Hle]; [exact Hlt|].
        apply Qle_bool_iff in Hle. congruence. }
      destruct (Qeq_bool qb qa) eqn:E3.
      { apply Qeq_bool_iff in E3. lra. }
      repeat split; try discriminate; try reflexivity; intros; lra.
    + exfalso. destruct (Qlt_le_dec qa qb) as [Hlt|Hle].
      * assert (Hle : (qa <= qb)%Q) by lra.
        apply Qle_bool_iff in Hle. congruence.
      * apply Qle_bool_iff in Hle. congruence.
  - intros qb Ha Hb. unfold byArea. rewrite Ha, Hb. now cbn.
  - intros s qb Ha Hs Hb. unfold byArea. rewrite Ha, Hb. cbn. now rewrite Hs.
Qed.

Lemma byArea_consistent_on_numbers_witness :
  (@byArea (Demo.host Demo.emptyBucket)
     (Demo.record "doc-3-1" 50) (Demo.record "doc-3-2" 200) = 1%Z <->
   (inject_Z 50 < inject_Z 200)%Q) /\
  (@byArea (Demo.host Demo.emptyBucket)
     (Demo.record "doc-3-1" 50) (Demo.record "doc-3-2" 200) = 0%Z <->
   (inject_Z 50 == inject_Z 200)%Q) /\
  (@byArea (Demo.host Demo.emptyBucket)
     (Demo.record "doc-3-1" 50) (Demo.record "doc-3-2" 200) = (-1)%Z <->
   (inject_Z 200 < inject_Z 50)%Q) /\
  @byArea (Demo.host Demo.emptyBucket)
    (Demo.record "doc-3-2" 200) (Demo.record "doc-3-1" 50) =
  (- @byArea (Demo.host Demo.emptyBucket)
       (Demo.record "doc-3-1" 50) (Demo.record "doc-3-2" 200))%Z.
Proof.
  apply (proj1 (@byArea_consistent_on_numbers (Demo.host Demo.emptyBucket)
                  (Demo.record "doc-3-1" 50) (Demo.record "doc-3-2" 200)));
    reflexivity.
Defined.
(** ** downloadLabels from end to end *)

Lemma addLabelColumn_reconciled (parsed : list (list string)) :
  rectangular parsed = true -> labelledOrWide parsed = true ->
  addLabelColumn parsed = Ret (reconciled parsed) /\
  rectangular (reconciled parsed) = true.
Proof.
  destruct parsed as [|header rest]; [discriminate|].
  intros Hrect Hwide. cbn [labelledOrWide reconciled] in *.
  unfold addLabelColumn.
  destruct (includes "label" header) eqn:Hinc; cbn [negb orb] in *; [auto|].
  apply Nat.leb_le in Hwide.
  cbn [rectangular] in Hrect. apply andb_true_iff in Hrect as [_ Hall].
  assert (Hlen : Forall (fun x : list string => 2 <= length x) (header :: rest)).
  { apply Forall_forall. intros x Hin. rewrite forallb_forall in Hall.
    apply list_elem_of_In, Hall, Nat.eqb_eq in Hin. lia. }
  rewrite (mapRows_pushLabel _ Hlen). cbn [obind map].
  unfold withLabel at 1 2. rewrite insert_last. split.
  - reflexivity.
  - cbn [rectangular forallb] in *. apply andb_true_iff in Hall as [_ Hall].
    rewrite !length_app, !Nat.eqb_refl. cbn [length andb].
    replace (length header + 1) with (S (length header)) by lia.
    now rewrite forallb_withLabel, Hall.
Qed.

Section EndToEnd.
Context `{Host}.

(** The synchronisation step on a spreadsheet whose archival name is
    free. *)
Lemma syncSheet_completes (w : world) (rows : list (list string)) :
  NoDup (map getName (sheets w)) ->
  (forall s, s ∈ sheets w -> getName s <> archivalName) ->
  rectangular rows = true ->
  syncSheet rows w =
  (Ret tt,
   mkWorld (archived (sheets w) ++ [newSheet rows])
     (requests w) (logs w ++ ["Labels CSV downloaded."])).
Proof.
  intros Hnodup Hfree Hrect. unfold archived.
  destruct (findIndex (isNamed pdfId) (sheets w)) as [h|] eqn:Hfind.
  - destruct (findIndex_Some _ _ _ Hfind) as (old & Hold & _).
    now destruct (syncSheet_ok w rows h old Hnodup Hfind Hold Hfree Hrect).
  - unfold syncSheet. unfold bind at 1. rewrite archiveOldSheet_run, Hfind.
    now apply fillNewSheet_ok.
Qed.
End EndToEnd.

(** X19.  downloadLabels from end to end.  do_get.gs, in a project that
    binds the global [storageService] that authFetch reads (the script files
    bind none, and without it the run raises at the first fetch): when the
    batches before batch k are present and batch k is missing, the text of
    those batches parses into rows of one length whose header has a label
    column or, failing that, a second column, and no sheet has the archival
    name yet, the run completes.  It has sent the requests of k + 1
    iterations, logged the two bodies of the failed fetches and then
    "Labels CSV downloaded.", given the old sheet of the document, if there
    was one, its archival name, and added one sheet, named like the
    document, that holds the reconciled rows.  do_get.js, which needs no
    [storageService], does the same with the labels files and the rows as
    parsed, and logs the one line. *)
Theorem downloadLabels_completes `{Host} (k fuel : nat) (w : world)
  (parsed : list (list string)) :
  k < fuel ->
  rectangular parsed = true ->
  NoDup (map getName (sheets w)) ->
  (forall s, s ∈ sheets w -> getName s <> archivalName) ->
  (tokenBound ->
   (forall j, j < k -> batchPresent (batchIndex j) = true) ->
   batchPresent (batchIndex k) = false ->
   parseCsv (loadedText 1 k) = Some parsed ->
   labelledOrWide parsed = true ->
   downloadLabels fuel w =
   (Ret tt,
    mkWorld (archived (sheets w) ++ [newSheet (reconciled parsed)])
      (requests w ++ sentRequests 1 (S k))
      (logs w ++
       [getContentText (UrlFetchApp_fetch (labelRequest (batchIndex k)));
        getContentText (UrlFetchApp_fetch (featureRequest (batchIndex k)));
        "Labels CSV downloaded."]))) /\
  ((forall j, j < k -> plainFound (batchIndex j) = true) ->
   plainFound (batchIndex k) = false ->
   parseCsv (plainText 1 k) = Some parsed ->
   DoGetJs.downloadLabels fuel w =
   (Ret tt,
    mkWorld (archived (sheets w) ++ [newSheet parsed])
      (requests w ++ plainRequests 1 (S k))
      (logs w ++ ["Labels CSV downloaded."]))).
Proof.
  intros Hfuel Hrect Hnodup Hfree. split.
  - intros Hbound Hpresent Hmissing Hcsv Hwide.
    destruct (addLabelColumn_reconciled parsed Hrect Hwide) as [Hadd Hrect'].
    rewrite downloadLabels_run.
    rewrite (downloadLoop_runs k fuel 1%N "" w Hbound Hpresent Hmissing Hfuel).
    rewrite app_empty_l, Hcsv, Hadd.
    rewrite syncSheet_completes by assumption.
    cbn [sheets requests logs]. now rewrite <- app_assoc.
  - intros Hpresent Hmissing Hcsv.
    rewrite js_downloadLabels_run.
    rewrite (js_downloadLoop_runs k fuel 1%N "" w Hpresent Hmissing Hfuel).
    rewrite app_empty_l, Hcsv.
    now rewrite syncSheet_completes by assumption.
Qed.

Lemma downloadLabels_completes_witness :
  @downloadLabels (Demo.host Demo.twoBatches) 5 Demo.oneSheet =
  (Ret tt,
   mkWorld
     [mkSheet "abcd.old.10:15:30 AM" (grid Demo.currentSheet)
        (backgrounds Demo.currentSheet);
      mkSheet "abcd"
        [[Str "id"; Str "text"; Str "area"; Str "label"];
         [Str "abcd-3-1"; Str "Chapter one"; Num 50; Str "other"];
         [Str "abcd-3-2"; Str "It was a dark night"; Num 200; Str "body"]] []]
     (@sentRequests (Demo.host Demo.twoBatches) 1 3)
     ["NoSuchKey"; "NoSuchKey"; "Labels CSV downloaded."]).
Proof.
  apply (proj1 (@downloadLabels_completes (Demo.host Demo.twoBatches)
                  2 5 Demo.oneSheet
                  [["id"; "text"; "area"; "label"];
                   ["abcd-3-1"; "Chapter one"; "50"; "other"];
                   ["abcd-3-2"; "It was a dark night"; "200"; "body"]]
                  ltac:(lia) eq_refl
                  ltac:(apply NoDup_singleton)
                  ltac:(intros s Hin; apply list_elem_of_singleton in Hin;
                        subst s; vm_compute; discriminate))).
  - discriminate.
  - intros [|[|j]] Hj; [reflexivity|reflexivity|lia].
  - reflexivity.
  - vm_compute. reflexivity.
  - reflexivity.
Defined.
Section AfterDownload.
Context `{Host}.

(** What getParaDict answers depends on the sheet of the document only. *)
Lemma getParaDict_of_sheet (w1 w2 : world) (h1 h2 : nat) (s : sheet) :
  findIndex (isNamed pdfId) (sheets w1) = Some h1 -> sheets w1 !! h1 = Some s ->
  findIndex (isNamed pdfId) (sheets w2) = Some h2 -> sheets w2 !! h2 = Some s ->
  fst (getParaDict w1) = fst (getParaDict w2) /\ fst (getParaDict w1) <> Ret None.
Proof.
  intros Hf1 Hs1 Hf2 Hs2.
  rewrite !getParaDict_run, Hf1, Hf2.
  rewrite (buildParaDictFromSheet_on_sheet w1 h1 s Hf1 Hs1).
  rewrite (buildParaDictFromSheet_on_sheet w2 h2 s Hf2 Hs2).
  destruct (1 <=? gridLastColumn (grid s)); [|split; [reflexivity|discriminate]].
  destruct (forEachRow _ _ _); split; try reflexivity; discriminate.
Qed.

(** The spreadsheet after a completed run: the sheet of the document is
    the last one, the sheet the run created. *)
Lemma downloadLabels_new_sheet (fuel : nat) (w w' : world) :
  downloadLabels fuel w = (Ret tt, w') ->
  exists csv parsed rows,
    fst (downloadLoop fuel 1 "" w) = Ret csv /\
    parseCsv csv = Some parsed /\
    addLabelColumn parsed = Ret rows /\
    length (sheets w') = S (length (sheets w)) /\
    findIndex (isNamed pdfId) (sheets w') = Some (length (sheets w)) /\
    sheets w' !! length (sheets w) = Some (newSheet rows).
Proof.
  intros Hrun.
  destruct (downloadLabels_completed fuel w w' Hrun)
    as (csv & parsed & rows & w1 & w2 & Hloop & Hcsv & Hadd & Harch & Hfree & _ & ->).
  exists csv, parsed, rows. rewrite Hloop. split; [reflexivity|].
  split; [exact Hcsv|]. split; [exact Hadd|].
  pose proof (downloadLoop_sheets fuel 1 "" w) as Hs. rewrite Hloop in Hs.
  cbn [snd] in Hs.
  assert (Hlen : length (sheets w2) = length (sheets w)).
  { rewrite archiveOldSheet_run in Harch.
    destruct (findIndex _ _) as [h|]; [|inversion Harch; subst; now rewrite Hs].
    destruct (_ !! _) as [old|]; [|discriminate]. cbn zeta in Harch.
    destruct (findIndex _ _); [discriminate|].
    inversion Harch. cbn [sheets]. now rewrite length_alter, Hs. }
  cbn [sheets]. rewrite <- Hlen. split; [|split].
  - rewrite length_app. cbn. lia.
  - now apply findIndex_last.
  - now rewrite list_lookup_middle.
Qed.
End AfterDownload.

(** X20.  After a completed run of downloadLabels (do_get.gs) getParaDict
    does not answer null, and what it answers does not depend on what the
    spreadsheet held before the run: two completed runs, on any two
    spreadsheets, create the same sheet, and getParaDict answers the same
    after both.  Labels written into the old sheet are not carried over. *)
Theorem downloadLabels_then_getParaDict `{Host}
  (fuel : nat) (wa wb wa' wb' : world) :
  downloadLabels fuel wa = (Ret tt, wa') ->
  downloadLabels fuel wb = (Ret tt, wb') ->
  fst (getParaDict wa') = fst (getParaDict wb') /\
  fst (getParaDict wa') <> Ret None /\
  exists rows,
    sheets wa' !! length (sheets wa) = Some (newSheet rows) /\
    sheets wb' !! length (sheets wb) = Some (newSheet rows).
Proof.
  intros Ha Hb.
  destruct (downloadLabels_new_sheet fuel wa wa' Ha)
    as (csv & parsed & rows & Hloop & Hcsv & Hadd & _ & Hfa & Hsa).
  destruct (downloadLabels_new_sheet fuel wb wb' Hb)
    as (csv' & parsed' & rows' & Hloop' & Hcsv' & Hadd' & _ & Hfb & Hsb).
  rewrite (downloadLoop_result fuel 1%N "" wb wa), Hloop in Hloop'.
  inversion Hloop'. subst csv'. rewrite Hcsv in Hcsv'. inversion Hcsv'. subst parsed'.
  rewrite Hadd in Hadd'. inversion Hadd'. subst rows'.
  destruct (getParaDict_of_sheet wa' wb' _ _ _ Hfa Hsa Hfb Hsb) as [Hsame Hnot].
  split; [exact Hsame|]. split; [exact Hnot|]. now exists rows.
Qed.

Lemma downloadLabels_then_getParaDict_witness :
  fst (@getParaDict (Demo.host Demo.twoBatches)
         (snd (@downloadLabels (Demo.host Demo.twoBatches) 5 Demo.oneSheet))) =
  fst (@getParaDict (Demo.host Demo.twoBatches)
         (snd (@downloadLabels (Demo.host Demo.twoBatches) 5 Demo.noSheets))) /\
  fst (@getParaDict (Demo.host Demo.twoBatches)
         (snd (@downloadLabels (Demo.host Demo.twoBatches) 5 Demo.oneSheet))) <>
  Ret None /\
  exists rows,
    sheets (snd (@downloadLabels (Demo.host Demo.twoBatches) 5 Demo.oneSheet)) !! 1 =
      Some (@newSheet (Demo.host Demo.twoBatches) rows) /\
    sheets (snd (@downloadLabels (Demo.host Demo.twoBatches) 5 Demo.noSheets)) !! 0 =
      Some (@newSheet (Demo.host Demo.twoBatches) rows).
Proof.
  apply (@downloadLabels_then_getParaDict (Demo.host Demo.twoBatches) 5
           Demo.oneSheet Demo.noSheets); vm_compute; reflexivity.
Defined.
(** ** The last row and the last column of a grid, by its cells *)

Lemma lastIndex_attained {A} (p : A -> bool) (l : list A) : forall k,
  lastIndex p l = S k -> exists x, l !! k = Some x /\ p x = true.
Proof.
  induction l as [|a l IH]; intros k E; cbn in E; [discriminate|].
  destruct (lastIndex p l) as [|k'] eqn:El.
  - destruct (p a) eqn:Ha; [|discriminate]. inversion E. subst k.
    exists a. auto.
  - inversion E. subst k. destruct (IH k' eq_refl) as (x & Hx & Hp).
    exists x. auto.
Qed.

Lemma max_list_attained (l : list nat) : 1 <= max_list l -> max_list l ∈ l.
Proof.
  induction l as [|a l IH]; cbn; [lia|]. intros Hge.
  destruct (Nat.max_spec a (max_list l)) as [[Hlt ->]|[Hle ->]].
  - apply elem_of_cons. right. apply IH. lia.
  - apply elem_of_cons. now left.
Qed.

Lemma isBlank_blank : isBlank blank = true.
Proof. reflexivity. Qed.

Lemma cellAt_content (g : list (list value)) (r c : nat) :
  isBlank (cellAt g r c) = false ->
  exists row, g !! (r - 1) = Some row /\ row !! (c - 1) = Some (cellAt g r c).
Proof.
  unfold cellAt. destruct (g !! (r - 1)) as [row|]; [|discriminate].
  destruct (row !! (c - 1)) as [v|] eqn:Hv; [|discriminate].
  intros _. exists row. now rewrite Hv.
Qed.

(** No content to the right of the last column; content in the last
    column, and in the last row. *)
Lemma cellAt_beyond (g : list (list value)) (r c : nat) :
  1 <= c -> gridLastColumn g < c -> cellAt g r c = blank.
Proof.
  intros Hc Hlt. destruct (isBlank (cellAt g r c)) eqn:Hb; [now apply isBlank_true|].
  destruct (cellAt_content g r c Hb) as (row & Hrow & Hv).
  pose proof (gridLastColumn_lookup g _ _ row _ Hrow Hv Hb). lia.
Qed.

Lemma gridLastColumn_attained (g : list (list value)) :
  1 <= gridLastColumn g ->
  exists r, 1 <= r /\ isBlank (cellAt g r (gridLastColumn g)) = false.
Proof.
  intros Hge. unfold gridLastColumn in *.
  pose proof (max_list_attained _ Hge) as Hmax.
  apply list_elem_of_In, in_map_iff in Hmax as (row & Hw & Hin).
  apply list_elem_of_In, list_elem_of_lookup in Hin as [i Hi].
  destruct (max_list (map rowWidth g)) as [|k] eqn:E; [lia|].
  destruct (lastIndex_attained _ row k Hw) as (v & Hv & Hnb).
  exists (S i). split; [lia|]. unfold cellAt.
  replace (S i - 1) with i by lia. rewrite Hi.
  replace (S k - 1) with k by lia. rewrite Hv. cbn.
  now apply negb_true_iff in Hnb.
Qed.

Lemma gridLastRow_attained (g : list (list value)) :
  1 <= gridLastRow g ->
  exists c, 1 <= c /\ isBlank (cellAt g (gridLastRow g) c) = false.
Proof.
  unfold gridLastRow. destruct (lastIndex _ g) as [|k] eqn:E; [lia|]. intros _.
  destruct (lastIndex_attained _ g k E) as (row & Hrow & Hw).
  apply Nat.ltb_lt in Hw. unfold rowWidth in Hw.
  destruct (lastIndex _ row) as [|j] eqn:Ej; [lia|].
  destruct (lastIndex_attained _ row j Ej) as (v & Hv & Hnb).
  exists (S j). split; [lia|]. unfold cellAt.
  replace (S k - 1) with k by lia. rewrite Hrow.
  replace (S j - 1) with j by lia. rewrite Hv. cbn.
  now apply negb_true_iff in Hnb.
Qed.

Lemma cellAt_below_or_beyond (g : list (list value)) (r c : nat) :
  1 <= r -> 1 <= c -> isBlank (cellAt g r c) = false ->
  r <= gridLastRow g /\ c <= gridLastColumn g.
Proof.
  intros Hr Hc Hnb. split.
  - destruct (Nat.le_gt_cases r (gridLastRow g)) as [|Hgt]; [assumption|].
    rewrite (cellAt_below g r c Hgt) in Hnb. discriminate.
  - destruct (Nat.le_gt_cases c (gridLastColumn g)) as [|Hgt]; [assumption|].
    rewrite (cellAt_beyond g r c Hc Hgt) in Hnb. discriminate.
Qed.

(** Two grids with content in the same cells, but for one cell that is
    neither the only content of the last row nor of the last column, have
    the same last row and the same last column. *)
Lemma gridLast_same (g g' : list (list value)) (r c : nat) :
  1 <= r <= gridLastRow g -> 1 <= c <= gridLastColumn g ->
  (forall r' c', 1 <= r' -> 1 <= c' -> (r', c') <> (r, c) ->
                 cellAt g' r' c' = cellAt g r' c') ->
  (exists c0, 1 <= c0 /\ (gridLastRow g, c0) <> (r, c) /\
              isBlank (cellAt g (gridLastRow g) c0) = false) ->
  (exists r0, 1 <= r0 /\ (r0, gridLastColumn g) <> (r, c) /\
              isBlank (cellAt g r0 (gridLastColumn g)) = false) ->
  gridLastRow g' = gridLastRow g /\ gridLastColumn g' = gridLastColumn g.
Proof.
  intros Hr Hc Hsame (c0 & Hc0 & Hne0 & Hnb0) (r0 & Hr0 & Hne1 & Hnb1).
  assert (Hrow : gridLastRow g <= gridLastRow g').
  { rewrite <- (Hsame (gridLastRow g) c0 ltac:(lia) Hc0 Hne0) in Hnb0.
    apply cellAt_below_or_beyond in Hnb0; lia. }
  assert (Hcol : gridLastColumn g <= gridLastColumn g').
  { rewrite <- (Hsame r0 (gridLastColumn g) Hr0 ltac:(lia) Hne1) in Hnb1.
    apply cellAt_below_or_beyond in Hnb1; lia. }
  split.
  - destruct (gridLastRow_attained g' ltac:(lia)) as (c1 & Hc1 & Hnb).
    destruct (decide ((gridLastRow g', c1) = (r, c))) as [E|Hne].
    + inversion E. lia.
    + rewrite (Hsame (gridLastRow g') c1 ltac:(lia) Hc1 Hne) in Hnb.
      apply cellAt_below_or_beyond in Hnb; lia.
  - destruct (gridLastColumn_attained g' ltac:(lia)) as (r1 & Hr1 & Hnb).
    destruct (decide ((r1, gridLastColumn g') = (r, c))) as [E|Hne].
    + inversion E. lia.
    + rewrite (Hsame r1 (gridLastColumn g') Hr1 ltac:(lia) Hne) in Hnb.
      apply cellAt_below_or_beyond in Hnb; lia.
Qed.
(** ** Writing a cell twice, and finding a cell again *)

Lemma padTo_long {A} (n : nat) (d : A) (l : list A) :
  n <= length l -> padTo n d l = l.
Proof.
  intros Hn. unfold padTo. replace (n - length l) with 0 by lia.
  apply app_nil_r.
Qed.

Lemma padTo_length {A} (n : nat) (d : A) (l : list A) : n <= length (padTo n d l).
Proof. unfold padTo. rewrite length_app, length_replicate. lia. Qed.

Lemma setCell_run (r c : nat) (v : value) (g : list (list value)) :
  1 <= r ->
  setCell r c v g =
  <[r - 1 := <[c - 1 := v]> (padTo c blank (default [] (g !! (r - 1))))]>
    (padTo r [] g).
Proof.
  intros Hr. unfold setCell.
  assert (Hlen : r - 1 < length (padTo r [] g)).
  { pose proof (padTo_length r ([] : list value) g). lia. }
  destruct (lookup_lt_is_Some_2 _ _ Hlen) as [row Hrow]. rewrite Hrow.
  do 3 f_equal. rewrite <- (lookup_padTo r [] g (r - 1)). now rewrite Hrow.
Qed.

(** The second value written into a cell is the one that stays. *)
Lemma setCell_setCell (r c : nat) (v1 v2 : value) (g : list (list value)) :
  1 <= r -> 1 <= c ->
  setCell r c v2 (setCell r c v1 g) = setCell r c v2 g.
Proof.
  intros Hr Hc. rewrite !(setCell_run r c _ g Hr).
  set (gp := padTo r [] g). set (row0 := padTo c blank (default [] (g !! (r - 1)))).
  assert (Hlen : r - 1 < length gp).
  { subst gp. pose proof (padTo_length r ([] : list value) g). lia. }
  assert (Hlen0 : c - 1 < length row0).
  { subst row0. pose proof (padTo_length c blank (default [] (g !! (r - 1)))). lia. }
  set (row1 := <[c - 1 := v1]> row0). set (g1 := <[r - 1 := row1]> gp).
  rewrite (setCell_run r c v2 g1 Hr).
  assert (Hg1 : padTo r [] g1 = g1).
  { apply padTo_long. subst g1. rewrite length_insert. lia. }
  assert (Hrow1 : g1 !! (r - 1) = Some row1).
  { subst g1. now apply list_lookup_insert_eq. }
  assert (Hpad1 : padTo c blank row1 = row1).
  { apply padTo_long. subst row1. rewrite length_insert. lia. }
  rewrite Hg1, Hrow1. cbn [default from_option]. unfold id. rewrite Hpad1.
  subst g1 row1. now rewrite !list_insert_insert_eq.
Qed.

Lemma findIndex_insert_same {A} (p : A -> bool) (l : list A) (h : nat) (x y : A) :
  l !! h = Some x -> p y = p x -> findIndex p (<[h := y]> l) = findIndex p l.
Proof.
  revert h. induction l as [|a l IH]; intros h Hx Hp; [discriminate|].
  destruct h as [|h]; cbn in Hx.
  - inversion Hx. subst a. cbn. now rewrite Hp.
  - change (<[S h := y]> (a :: l)) with (a :: <[h := y]> l).
    cbn [findIndex]. now rewrite (IH h Hx Hp).
Qed.

Lemma findCell_exists (p : value -> bool) (g : list (list value)) :
  forall r0 i row j v,
  g !! i = Some row -> row !! j = Some v -> p v = true ->
  exists r1 c1, findCell p g r0 = Some (r1, c1) /\ r1 <= r0 + i.
Proof.
  induction g as [|row0 g IH]; intros r0 i row j v Hrow Hv Hp; [discriminate|].
  cbn [findCell]. destruct (findIndex p row0) as [k|] eqn:Hk.
  - exists r0, (S k). split; [reflexivity|lia].
  - destruct i as [|i]; cbn in Hrow.
    + inversion Hrow. subst row0. rewrite findIndex_None in Hk.
      rewrite Hk in Hp; [discriminate|]. apply list_elem_of_lookup. eauto.
    + destruct (IH (S r0) i row j v Hrow Hv Hp) as (r1 & c1 & E & Hle).
      exists r1, c1. split; [exact E|lia].
Qed.

Lemma insert_map_seq {A} (f : nat -> A) (k n : nat) (v : A) :
  <[k := v]> (map f (seq 0 n)) =
  map (fun j => if j =? k then v else f j) (seq 0 n).
Proof.
  apply list_eq. intros i.
  change (map ?f ?l) with (f <$> l). rewrite list_lookup_fmap.
  destruct (Nat.lt_ge_cases i n) as [Hlt|Hge].
  - rewrite lookup_seq_lt by assumption. cbn.
    destruct (Nat.eqb_spec i k) as [->|Hne].
    + rewrite list_lookup_insert_eq; [reflexivity|]. now rewrite length_fmap, length_seq.
    + rewrite list_lookup_insert_ne by congruence.
      rewrite list_lookup_fmap, lookup_seq_lt by assumption. reflexivity.
  - rewrite lookup_seq_ge by assumption. cbn.
    apply lookup_ge_None. rewrite length_insert, length_fmap, length_seq. lia.
Qed.

Lemma filter_filter_same {A} (P : A -> Prop) `{forall x, Decision (P x)}
  (l : list A) : filter P (filter P l) = filter P l.
Proof.
  induction l as [|a l IH]; [reflexivity|].
  rewrite filter_cons. destruct (decide (P a)) as [Ha|Ha]; [|exact IH].
  rewrite filter_cons. destruct (decide (P a)); [|contradiction]. now rewrite IH.
Qed.
(** ** The sheet after a label was written *)

Section Relabel.
Context `{Host}.
Variables (id : string) (s : sheet) (r c : nat).
Hypothesis Hcell : findCell (containsText id) (grid s) 1 = Some (r, c).
Hypothesis Hlabel : Str "label" ∈ sheetHeader s.
Hypothesis Hrow : 2 <= r.
Hypothesis Hcol : c <> labelColumnOf s.

Let column := labelColumnOf s.

Lemma found_cell :
  1 <= c /\ containsText id (cellAt (grid s) r c) = true /\
  isBlank (cellAt (grid s) r c) = false /\
  forall r' c', 1 <= r' < r -> containsText id (cellAt (grid s) r' c') = false.
Proof.
  clear Hlabel Hrow Hcol.
  destruct (findCell_spec _ _ _ _ _ Hcell)
    as (_ & Hc & (row & v & Hr & Hv & Hp) & Hbefore).
  assert (E : cellAt (grid s) r c = v) by (unfold cellAt; now rewrite Hr, Hv).
  rewrite E. split; [exact Hc|]. split; [exact Hp|]. split.
  - unfold containsText in Hp. apply andb_true_iff in Hp as [Hnb _].
    now apply negb_true_iff in Hnb.
  - intros r' c' Hr'. unfold cellAt.
    destruct (grid s !! (r' - 1)) as [row'|] eqn:Hrow'; [|reflexivity].
    destruct (row' !! (c' - 1)) as [v'|] eqn:Hv'; [|reflexivity].
    cbn. apply (Hbefore (r' - 1) row' v'); [lia|assumption|].
    apply list_elem_of_lookup. eauto.
Qed.

Lemma label_column :
  1 <= column <= gridLastColumn (grid s) /\
  cellAt (grid s) 1 column = Str "label".
Proof.
  clear Hcell Hrow Hcol.
  destruct (labelColumnOf_spec s) as [[Hnotin _]|(Hge & Hat & _)];
    [contradiction|].
  fold column in Hge, Hat.
  pose proof (lookup_lt_Some _ _ _ Hat) as Hlt. rewrite sheetHeader_length in Hlt.
  split; [lia|].
  unfold sheetHeader in Hat. change (map ?f ?l) with (f <$> l) in Hat.
  rewrite list_lookup_fmap, lookup_seq_lt in Hat by assumption. cbn in Hat.
  injection Hat as E. rewrite <- E. f_equal. lia.
Qed.

Lemma labelled_cellAt (label : string) (r' c' : nat) :
  1 <= r' -> 1 <= c' ->
  cellAt (grid (labelled s r label)) r' c' =
  if (r' =? r) && (c' =? column) then cellOfString label
  else cellAt (grid s) r' c'.
Proof.
  intros Hr' Hc'. destruct label_column as [Hcolumn _].
  unfold labelled. cbn [grid]. apply cellAt_setCell; lia.
Qed.

Lemma labelled_last (label : string) :
  gridLastRow (grid (labelled s r label)) = gridLastRow (grid s) /\
  gridLastColumn (grid (labelled s r label)) = gridLastColumn (grid s).
Proof.
  destruct found_cell as (Hc & _ & Hnb & _).
  destruct label_column as [Hcolumn Hhead].
  destruct (cellAt_below_or_beyond (grid s) r c ltac:(lia) Hc Hnb) as [Hr _].
  apply (gridLast_same (grid s) _ r column); [lia|lia| | |].
  - intros r' c' Hr' Hc' Hne. rewrite labelled_cellAt by assumption.
    destruct (Nat.eqb_spec r' r) as [->|]; [|reflexivity].
    destruct (Nat.eqb_spec c' column) as [->|]; [|reflexivity].
    now contradiction Hne.
  - destruct (Nat.eq_dec (gridLastRow (grid s)) r) as [E|Hne].
    + exists c. rewrite E. split; [exact Hc|]. split; [|exact Hnb].
      intros E'. inversion E'. now apply Hcol.
    + destruct (gridLastRow_attained (grid s) ltac:(lia)) as (c0 & Hc0 & Hnb0).
      exists c0. split; [exact Hc0|]. split; [|exact Hnb0].
      intros E'. inversion E'. contradiction.
  - destruct (Nat.eq_dec (gridLastColumn (grid s)) column) as [E|Hne].
    + exists 1. rewrite E. split; [lia|]. split; [|now rewrite Hhead].
      intros E'. inversion E'. lia.
    + destruct (gridLastColumn_attained (grid s) ltac:(lia)) as (r0 & Hr0 & Hnb0).
      exists r0. split; [exact Hr0|]. split; [|exact Hnb0].
      intros E'. inversion E'. contradiction.
Qed.

(** The header, and so the label column, are what they were. *)
Lemma labelled_header (label : string) :
  sheetHeader (labelled s r label) = sheetHeader s.
Proof.
  unfold sheetHeader. rewrite (proj2 (labelled_last label)).
  apply map_ext_in. intros j _. rewrite labelled_cellAt by lia.
  now replace (1 =? r) with false by (symmetry; apply Nat.eqb_neq; lia).
Qed.

Lemma labelled_column (label : string) :
  labelColumnOf (labelled s r label) = column.
Proof. unfold labelColumnOf. now rewrite labelled_header. Qed.

(** The finder stops in the same row again. *)
Lemma labelled_findCell (label : string) :
  exists c1, findCell (containsText id) (grid (labelled s r label)) 1 = Some (r, c1).
Proof.
  destruct found_cell as (Hc & Hp & Hnb & Hbefore).
  assert (Hp' : containsText id (cellAt (grid (labelled s r label)) r c) = true).
  { rewrite labelled_cellAt by lia.
    replace (c =? column) with false by (symmetry; now apply Nat.eqb_neq).
    now rewrite andb_false_r. }
  assert (Hnb' : isBlank (cellAt (grid (labelled s r label)) r c) = false).
  { unfold containsText in Hp'. apply andb_true_iff in Hp' as [Hn _].
    now apply negb_true_iff in Hn. }
  destruct (cellAt_content _ _ _ Hnb') as (row & Hr & Hv).
  destruct (findCell_exists (containsText id) _ 1 _ _ _ _ Hr Hv Hp')
    as (r1 & c1 & E & Hle).
  exists c1. rewrite E. do 2 f_equal.
  destruct (findCell_spec _ _ _ _ _ E) as (Hr1 & Hc1 & (row1 & v1 & Hrow1 & Hv1 & Hp1) & _).
  destruct (Nat.lt_ge_cases r1 r) as [Hlt|Hge]; [|lia].
  exfalso.
  assert (E1 : cellAt (grid (labelled s r label)) r1 c1 = v1).
  { unfold cellAt. now rewrite Hrow1, Hv1. }
  rewrite labelled_cellAt in E1 by lia.
  replace (r1 =? r) with false in E1 by (symmetry; apply Nat.eqb_neq; lia).
  cbn [andb] in E1. rewrite <- E1 in Hp1.
  rewrite (Hbefore r1 c1) in Hp1; [discriminate|lia].
Qed.

(** Writing a second label over the first. *)
Lemma labelled_again (first last : string) :
  labelled (labelled s r first) r last = labelled s r last.
Proof.
  destruct label_column as [Hcolumn _].
  unfold labelled at 1. rewrite labelled_column. fold column.
  unfold labelled. cbn [getName grid backgrounds]. fold column. f_equal.
  - apply setCell_setCell; lia.
  - f_equal. rewrite filter_cons.
    destruct (decide _) as [Hyes|_].
    + cbn [fst snd] in Hyes. rewrite !Nat.eqb_refl in Hyes. contradiction.
    + apply filter_filter_same.
Qed.

(** The rows the builder reads after the label was written. *)
Lemma labelled_sheetVals (label : string) :
  sheetVals (labelled s r label) =
  alter (fun row => <[column - 1 := cellOfString label]> row) (r - 2) (sheetVals s).
Proof.
  destruct label_column as [Hcolumn _].
  unfold sheetVals, readRange.
  destruct (labelled_last label) as [-> ->].
  apply list_eq. intros i.
  change (map ?f ?l) with (f <$> l).
  destruct (Nat.eq_dec i (r - 2)) as [->|Hne].
  - rewrite list_lookup_alter_eq, !list_lookup_fmap.
    destruct (seq 0 (gridLastRow (grid s)) !! (r - 2)) as [i'|] eqn:Hi; [|reflexivity].
    apply lookup_seq in Hi as [-> _]. cbn [fmap option_fmap option_map]. f_equal.
    rewrite insert_map_seq.
    apply map_ext_in. intros j _. rewrite labelled_cellAt by lia.
    replace (2 + (0 + (r - 2)) =? r) with true by (symmetry; apply Nat.eqb_eq; lia).
    cbn [andb]. replace (1 + j =? column) with (j =? column - 1); [reflexivity|].
    destruct (Nat.eqb_spec j (column - 1)); destruct (Nat.eqb_spec (1 + j) column);
      try reflexivity; lia.
  - rewrite list_lookup_alter_ne by congruence. rewrite !list_lookup_fmap.
    destruct (seq 0 (gridLastRow (grid s)) !! i) as [i'|] eqn:Hi; [|reflexivity].
    apply lookup_seq in Hi as [-> _]. cbn [fmap option_fmap option_map]. f_equal.
    apply map_ext_in. intros j _. rewrite labelled_cellAt by lia.
    now replace (2 + (0 + i) =? r) with false by (symmetry; apply Nat.eqb_neq; lia).
Qed.
End Relabel.
Section RecordOfRow.
Context `{Host}.

(** What a record has under a name depends on the object it was started
    from only through what that object had under the name. *)
Lemma fillFeatures_ext (headerList : list value) (k : string) (row : list value) :
  forall i o1 o2,
  getProp k o1 = getProp k o2 ->
  getProp k (fillFeatures headerList i row o1) =
  getProp k (fillFeatures headerList i row o2).
Proof.
  induction row as [|v row IH]; intros i o1 o2 E; [exact E|].
  rewrite !fillFeatures_keyAt. apply IH.
  now apply getProp_assignProp_ext.
Qed.

(** A row with one cell replaced gives the same record but for the
    property named by the header of that cell. *)
Lemma fillFeatures_insert (headerList : list value) (k : string) (v : value)
  (row : list value) : forall i j o,
  keyAt headerList (i + j) <> k ->
  getProp k (fillFeatures headerList i (<[j := v]> row) o) =
  getProp k (fillFeatures headerList i row o).
Proof.
  induction row as [|x row IH]; intros i j o Hk; [reflexivity|].
  destruct j as [|j].
  - change (<[0 := v]> (x :: row)) with (v :: row).
    rewrite !fillFeatures_keyAt. apply fillFeatures_ext.
    rewrite Nat.add_0_r in Hk. now rewrite !getProp_assignProp_ne by congruence.
  - change (<[S j := v]> (x :: row)) with (x :: <[j := v]> row).
    rewrite !fillFeatures_keyAt. apply IH.
    now replace (S i + j) with (i + S j) by lia.
Qed.
End RecordOfRow.

(** X21.  Relabelling.  When the id is found in a data row, outside the
    label column, a second updateLabel for the same id finds the same row
    again, and the label it writes is the one that stays: two calls in a row
    leave the state that the second call alone would have left. *)
Theorem updateLabel_last_label_wins `{Host}
  (id first last : string) (w : world) (h : nat) (s : sheet) (r c : nat) :
  findIndex (isNamed pdfId) (sheets w) = Some h ->
  sheets w !! h = Some s ->
  findCell (containsText id) (grid s) 1 = Some (r, c) ->
  Str "label" ∈ sheetHeader s ->
  2 <= r -> c <> labelColumnOf s ->
  updateLabel id first w =
    (Ret tt, mkWorld (<[h := labelled s r first]> (sheets w)) (requests w) (logs w)) /\
  updateLabel id last (snd (updateLabel id first w)) = updateLabel id last w.
Proof.
  intros Hfind Hs Hcell Hlabel Hrow Hcol.
  pose proof (findCell_content id _ _ _ Hcell) as Hlc.
  assert (Hcolumn : 1 <= labelColumnOf s) by now apply labelColumnOf_found.
  assert (Hrun : forall label,
    updateLabel id label w =
    (Ret tt, mkWorld (<[h := labelled s r label]> (sheets w)) (requests w) (logs w))).
  { intros label. rewrite (updateLabel_run id label w h s Hfind Hs), Hcell.
    replace (1 <=? gridLastColumn (grid s)) with true
      by (symmetry; apply Nat.leb_le; lia).
    now replace (1 <=? labelColumnOf s) with true
      by (symmetry; apply Nat.leb_le; lia). }
  split; [apply Hrun|]. rewrite (Hrun first), (Hrun last). cbn [snd].
  set (s1 := labelled s r first).
  set (w1 := mkWorld (<[h := s1]> (sheets w)) (requests w) (logs w)).
  assert (Hlt : h < length (sheets w)) by (eapply lookup_lt_Some; eassumption).
  assert (Hfind1 : findIndex (isNamed pdfId) (sheets w1) = Some h).
  { subst w1. cbn [sheets]. now rewrite (findIndex_insert_same _ _ h s s1 Hs). }
  assert (Hs1 : sheets w1 !! h = Some s1).
  { subst w1. cbn [sheets]. now apply list_lookup_insert_eq. }
  rewrite (updateLabel_run id last w1 h s1 Hfind1 Hs1).
  subst s1.
  destruct (labelled_findCell id s r c Hcell Hlabel Hrow Hcol first) as [c1 ->].
  rewrite (proj2 (labelled_last id s r c Hcell Hlabel Hrow Hcol first)).
  rewrite (labelled_column id s r c Hcell Hlabel Hrow Hcol first).
  replace (1 <=? gridLastColumn (grid s)) with true
    by (symmetry; apply Nat.leb_le; lia).
  replace (1 <=? labelColumnOf s) with true
    by (symmetry; apply Nat.leb_le; lia).
  cbn [andb]. subst w1. cbn [sheets requests logs].
  rewrite list_insert_insert_eq.
  now rewrite (labelled_again id s r c Hcell Hlabel Hrow Hcol first last).
Qed.

Lemma updateLabel_last_label_wins_witness :
  @updateLabel (Demo.host Demo.emptyBucket) "abcd-3-1" "other"
    (snd (@updateLabel (Demo.host Demo.emptyBucket) "abcd-3-1" "body" Demo.oneSheet)) =
  @updateLabel (Demo.host Demo.emptyBucket) "abcd-3-1" "other" Demo.oneSheet.
Proof.
  apply (@updateLabel_last_label_wins (Demo.host Demo.emptyBucket)
           "abcd-3-1" "body" "other" Demo.oneSheet 0 Demo.currentSheet 2 1);
    try reflexivity; try (vm_compute; lia).
  vm_compute. apply elem_of_cons. right. apply elem_of_cons. right.
  apply elem_of_cons. right. apply elem_of_cons. now left.
Defined.
Lemma alter_as_insert {A} (f : A -> A) (l : list A) (i : nat) (x : A) :
  l !! i = Some x -> alter f i l = <[i := f x]> l.
Proof.
  intros Hx. apply list_eq. intros j. destruct (Nat.eq_dec j i) as [->|Hne].
  - rewrite list_lookup_alter_eq, Hx.
    rewrite list_lookup_insert_eq by (eapply lookup_lt_Some; eassumption).
    reflexivity.
  - now rewrite list_lookup_alter_ne, list_lookup_insert_ne by congruence.
Qed.

Lemma sheetVals_lookup (s : sheet) (i : nat) :
  i < gridLastRow (grid s) ->
  exists row, sheetVals s !! i = Some row /\
              length row = gridLastColumn (grid s).
Proof.
  intros Hi. unfold sheetVals, readRange.
  change (map ?f ?l) with (f <$> l).
  rewrite list_lookup_fmap, lookup_seq_lt by assumption. cbn.
  eexists. split; [reflexivity|]. now rewrite length_fmap, length_seq.
Qed.

(** X22.  From updateLabel to the paragraph dictionary.  When the id is
    found in a data row, outside the label column, and one column only is
    named label, the builder reads after the call the header and the rows it
    would have read before it, but for the row found: the record of that row
    now has the label written under "label", and under every other name
    what it had. *)
Theorem updateLabel_then_build `{Host}
  (id label : string) (w : world) (h : nat) (s : sheet) (r c : nat) :
  findIndex (isNamed pdfId) (sheets w) = Some h ->
  sheets w !! h = Some s ->
  findCell (containsText id) (grid s) 1 = Some (r, c) ->
  Str "label" ∈ sheetHeader s ->
  2 <= r -> c <> labelColumnOf s ->
  (forall j, keyAt (sheetHeader s) j = "label" -> j = labelColumnOf s - 1) ->
  let w' := snd (updateLabel id label w) in
  let write := fun row : list value =>
                 <[labelColumnOf s - 1 := cellOfString label]> row in
  exists row,
    sheetVals s !! (r - 2) = Some row /\
    buildParaDictFromSheet w' =
      match forEachRow (sheetHeader s) (<[r - 2 := write row]> (sheetVals s))
              emptyBuild with
      | Ret st => (Ret (paraDict st), logged (builtMessage st) w')
      | Raise e => (Raise e, w')
      | Spin => (Spin, w')
      end /\
    getProp "label" (featuresOf (sheetHeader s) (write row)) =
      Some (cellOfString label) /\
    forall k, k <> "label" ->
      getProp k (featuresOf (sheetHeader s) (write row)) =
      getProp k (featuresOf (sheetHeader s) row).
Proof.
  intros Hfind Hs Hcell Hlabel Hrow Hcol Hone w' write.
  pose proof (findCell_content id _ _ _ Hcell) as Hlc.
  destruct (found_cell id s r c Hcell) as (Hc & _ & Hnb & _).
  destruct (cellAt_below_or_beyond (grid s) r c ltac:(lia) Hc Hnb) as [Hr _].
  destruct (labelColumnOf_spec s) as [[Hnotin _]|(Hcolumn & Hat & _)];
    [contradiction|].
  pose proof (lookup_lt_Some _ _ _ Hat) as Hlt. rewrite sheetHeader_length in Hlt.
  assert (Hkey : keyAt (sheetHeader s) (labelColumnOf s - 1) = "label").
  { unfold keyAt. now rewrite Hat. }
  destruct (sheetVals_lookup s (r - 2) ltac:(lia)) as (row & Hrw & Hlen).
  exists row. split; [exact Hrw|]. split; [|split].
  - assert (Hw' : w' = mkWorld (<[h := labelled s r label]> (sheets w))
                         (requests w) (logs w)).
    { subst w'. rewrite (updateLabel_run id label w h s Hfind Hs), Hcell.
      replace (1 <=? gridLastColumn (grid s)) with true
        by (symmetry; apply Nat.leb_le; lia).
      now replace (1 <=? labelColumnOf s) with true
        by (symmetry; apply Nat.leb_le; lia). }
    assert (Hfind' : findIndex (isNamed pdfId) (sheets w') = Some h).
    { rewrite Hw'. cbn [sheets].
      now rewrite (findIndex_insert_same _ _ h s (labelled s r label) Hs). }
    assert (Hs' : sheets w' !! h = Some (labelled s r label)).
    { rewrite Hw'. cbn [sheets]. apply list_lookup_insert_eq.
      eapply lookup_lt_Some; eassumption. }
    rewrite (buildParaDictFromSheet_on_sheet w' h _ Hfind' Hs').
    rewrite (proj2 (labelled_last id s r c Hcell Hlabel Hrow Hcol label)).
    replace (1 <=? gridLastColumn (grid s)) with true
      by (symmetry; apply Nat.leb_le; lia).
    rewrite (labelled_header id s r c Hcell Hlabel Hrow Hcol label).
    rewrite (labelled_sheetVals id s r c Hcell Hlabel Hrow Hcol label).
    now rewrite (alter_as_insert _ _ _ row Hrw).
  - rewrite <- Hkey at 1.
    apply (fillFeatures_at (sheetHeader s) (write row) 0 []
             (labelColumnOf s - 1) (cellOfString label)).
    + subst write. cbn beta. apply list_lookup_insert_eq. lia.
    + cbn [Nat.add]. rewrite Hkey. discriminate.
    + intros j' Hj' E. cbn [Nat.add] in E. rewrite Hkey in E.
      apply Hone in E. lia.
  - intros k Hk. subst write. unfold featuresOf.
    apply fillFeatures_insert. cbn [Nat.add]. congruence.
Qed.

Lemma updateLabel_then_build_witness :
  exists row,
    sheetVals Demo.currentSheet !! 0 = Some row /\
    @buildParaDictFromSheet (Demo.host Demo.emptyBucket)
      (snd (@updateLabel (Demo.host Demo.emptyBucket) "abcd-3-1" "other" Demo.oneSheet)) =
      match @forEachRow (Demo.host Demo.emptyBucket)
              [Str "id"; Str "text"; Str "area"; Str "label"]
              (<[0 := <[3 := Str "other"]> row]>
                 (sheetVals Demo.currentSheet))
              emptyBuild with
      | Ret st =>
          (Ret (paraDict st),
           logged (builtMessage st)
             (snd (@updateLabel (Demo.host Demo.emptyBucket)
                     "abcd-3-1" "other" Demo.oneSheet)))
      | Raise e =>
          (Raise e,
           snd (@updateLabel (Demo.host Demo.emptyBucket)
                  "abcd-3-1" "other" Demo.oneSheet))
      | Spin =>
          (Spin,
           snd (@updateLabel (Demo.host Demo.emptyBucket)
                  "abcd-3-1" "other" Demo.oneSheet))
      end /\
    getProp "label"
      (@featuresOf (Demo.host Demo.emptyBucket)
         [Str "id"; Str "text"; Str "area"; Str "label"]
         (<[3 := Str "other"]> row)) = Some (Str "other") /\
    forall k, k <> "label" ->
      getProp k
        (@featuresOf (Demo.host Demo.emptyBucket)
           [Str "id"; Str "text"; Str "area"; Str "label"]
           (<[3 := Str "other"]> row)) =
      getProp k
        (@featuresOf (Demo.host Demo.emptyBucket)
           [Str "id"; Str "text"; Str "area"; Str "label"] row).
Proof.
  apply (@updateLabel_then_build (Demo.host Demo.emptyBucket)
           "abcd-3-1" "other" Demo.oneSheet 0 Demo.currentSheet 2 1);
    try reflexivity; try (vm_compute; lia).
  - vm_compute. apply elem_of_cons. right. apply elem_of_cons. right.
    apply elem_of_cons. right. apply elem_of_cons. now left.
  - intros [|[|[|[|j]]]] E; try discriminate E; reflexivity.
Defined.
(** ** The order of the rows *)

Lemma filter_perm {A} (f : A -> bool) (l l' : list A) :
  Permutation l l' -> Permutation (List.filter f l) (List.filter f l').
Proof.
  induction 1 as [|x l l' _ IH|x y l|l l' l'' _ IH1 _ IH2]; cbn.
  - constructor.
  - destruct (f x); [now constructor|exact IH].
  - destruct (f x), (f y); try reflexivity. apply perm_swap.
  - now transitivity (List.filter f l').
Qed.

Lemma filter_none {A} (f : A -> bool) (l : list A) :
  (forall x, In x l -> f x = false) -> List.filter f l = [].
Proof.
  induction l as [|a l IH]; intros Hall; [reflexivity|].
  cbn. rewrite (Hall a) by now left. apply IH. intros x Hx. apply Hall. now right.
Qed.

(** Among records of distinct areas one at most has a given area. *)
Lemma sameArea_once (q : Q) (l : list (obj value)) :
  distinctAreas l -> length (List.filter (sameArea q) l) <= 1.
Proof.
  induction 1 as [|a l Ha _ IH]; cbn; [lia|].
  destruct (sameArea q a) eqn:Eq; [|exact IH].
  rewrite filter_none; [cbn; lia|].
  intros x Hx. rewrite Forall_forall in Ha.
  specialize (Ha x ltac:(now apply list_elem_of_In)).
  unfold sameArea in *. apply Qeq_bool_iff in Eq.
  destruct (Qeq_bool (areaOf x) q) eqn:Ex; [|reflexivity].
  apply Qeq_bool_iff in Ex. exfalso. apply Ha. now rewrite Eq, Ex.
Qed.

Lemma sameArea_perm (q : Q) (l l' : list (obj value)) :
  distinctAreas l -> Permutation l l' ->
  List.filter (sameArea q) l = List.filter (sameArea q) l'.
Proof.
  intros Hd Hp. pose proof (sameArea_once q l Hd) as Hlen.
  pose proof (filter_perm (sameArea q) l l' Hp) as Hf.
  destruct (List.filter (sameArea q) l) as [|x [|y t]]; cbn in Hlen; [| |lia].
  - now apply Permutation_nil in Hf.
  - now apply Permutation_length_1_inv in Hf.
Qed.

Section AnyOrder.
Context `{Host}.

Lemma wellFormed_pageOf (r : obj value) (page : string) :
  wellFormedRecord r page -> pageOf r = page.
Proof.
  intros [(id & Hid & Hpage) _]. unfold pageOf. rewrite Hid.
  now destruct (matchId_hasPage id page Hpage) as (name & para & ->).
Qed.

Lemma zip_pageOf (headerList : list value) (vals : list (list value))
  (pages : list string) :
  Forall2 (fun row page => wellFormedRecord (featuresOf headerList row) page)
    vals pages ->
  zip (map (featuresOf headerList) vals) pages =
  map (fun row => (featuresOf headerList row, pageOf (featuresOf headerList row)))
    vals.
Proof.
  induction 1 as [|row page vals pages Hrow _ IH]; [reflexivity|].
  cbn. now rewrite IH, (wellFormed_pageOf _ _ Hrow).
Qed.

(** The bucket of a page does not depend on the order of its records when
    their areas are distinct. *)
Lemma bucketOf_perm (page : string) (recs recs' : list (obj value * string)) :
  Forall (fun rp => numericArea rp.1) recs ->
  Permutation recs recs' ->
  distinctAreas (onPage page recs) ->
  bucketOf page recs = bucketOf page recs'.
Proof.
  intros Hnum Hperm Hdist.
  assert (Hp : Permutation (onPage page recs) (onPage page recs')).
  { unfold onPage. apply Permutation_map. now apply filter_perm. }
  assert (Hnum' : Forall (fun rp => numericArea rp.1) recs').
  { apply Forall_forall. intros x Hx. rewrite Forall_forall in Hnum.
    apply Hnum. apply list_elem_of_In. apply list_elem_of_In in Hx.
    eapply Permutation_in; [symmetry; eassumption|assumption]. }
  pose proof (onPage_numeric page recs Hnum) as Hdom.
  pose proof (onPage_numeric page recs' Hnum') as Hdom'.
  unfold bucketOf.
  destruct (onPage page recs) as [|a l] eqn:E.
  - apply Permutation_nil in Hp. now rewrite Hp.
  - destruct (onPage page recs') as [|a' l'] eqn:E'.
    { symmetry in Hp. now apply Permutation_nil in Hp. }
    f_equal.
    apply (sort_is_the_stable_sort byArea areaOf numericArea byArea_numeric).
    + exact Hdom'.
    + apply (sort_sorted byArea areaOf numericArea byArea_numeric _ Hdom).
    + intros q.
      rewrite (sort_stable byArea areaOf numericArea byArea_numeric q _ Hdom).
      now apply (sameArea_perm q).
Qed.
End AnyOrder.

(** X23.  The order of the rows matters for ties only.  On two sequences
    of well-formed rows that are permutations of each other, with no two
    records of one page of the same area, the row loop of the builder
    completes on both and builds the same bucket for every page, and the
    same count of paragraphs. *)
Theorem forEachRow_any_order `{Host} (headerList : list value)
  (vals vals' : list (list value)) (pages pages' : list string) :
  Forall2 (fun row page => wellFormedRecord (featuresOf headerList row) page)
    vals pages ->
  Forall2 (fun row page => wellFormedRecord (featuresOf headerList row) page)
    vals' pages' ->
  Permutation vals vals' ->
  (forall page,
      distinctAreas (onPage page (zip (map (featuresOf headerList) vals) pages))) ->
  exists st st',
    forEachRow headerList vals emptyBuild = Ret st /\
    forEachRow headerList vals' emptyBuild = Ret st' /\
    (forall page, getProp page (paraDict st) = getProp page (paraDict st')) /\
    paraCount st = paraCount st'.
Proof.
  intros Hwf Hwf' Hperm Hdist.
  destruct (forEachRow_buckets headerList vals pages emptyBuild [] Hwf
              ltac:(constructor) ltac:(reflexivity))
    as (st & Hrun & Hinv & Hcount).
  destruct (forEachRow_buckets headerList vals' pages' emptyBuild [] Hwf'
              ltac:(constructor) ltac:(reflexivity))
    as (st' & Hrun' & Hinv' & Hcount').
  exists st, st'. split; [exact Hrun|]. split; [exact Hrun'|]. split.
  - intros page. rewrite Hinv, Hinv'. cbn [app].
    apply bucketOf_perm.
    + now apply wellFormed_numeric.
    + rewrite (zip_pageOf _ _ _ Hwf), (zip_pageOf _ _ _ Hwf').
      now apply Permutation_map.
    + apply Hdist.
  - rewrite Hcount, Hcount'. now rewrite (Permutation_length Hperm).
Qed.

Lemma forEachRow_any_order_witness :
  exists st st',
    @forEachRow (Demo.host Demo.emptyBucket) [Str "id"; Str "area"]
      [[Str "doc-3-1"; Num 50]; [Str "doc-3-2"; Num 200]; [Str "doc-4-1"; Num 10]]
      emptyBuild = Ret st /\
    @forEachRow (Demo.host Demo.emptyBucket) [Str "id"; Str "area"]
      [[Str "doc-4-1"; Num 10]; [Str "doc-3-2"; Num 200]; [Str "doc-3-1"; Num 50]]
      emptyBuild = Ret st' /\
    (forall page, getProp page (paraDict st) = getProp page (paraDict st')) /\
    paraCount st = paraCount st'.
Proof.
  apply (@forEachRow_any_order (Demo.host Demo.emptyBucket) [Str "id"; Str "area"]
           [[Str "doc-3-1"; Num 50]; [Str "doc-3-2"; Num 200]; [Str "doc-4-1"; Num 10]]
           [[Str "doc-4-1"; Num 10]; [Str "doc-3-2"; Num 200]; [Str "doc-3-1"; Num 50]]
           ["3"; "3"; "4"] ["4"; "3"; "3"]).
  - repeat constructor.
    + exists "doc-3-1". split; [reflexivity|]. exists "doc", "1". now vm_compute.
    + now exists (inject_Z 50).
    + exists "doc-3-2". split; [reflexivity|]. exists "doc", "2". now vm_compute.
    + now exists (inject_Z 200).
    + exists "doc-4-1". split; [reflexivity|]. exists "doc", "1". now vm_compute.
    + now exists (inject_Z 10).
  - repeat constructor.
    + exists "doc-4-1". split; [reflexivity|]. exists "doc", "1". now vm_compute.
    + now exists (inject_Z 10).
    + exists "doc-3-2". split; [reflexivity|]. exists "doc", "2". now vm_compute.
    + now exists (inject_Z 200).
    + exists "doc-3-1". split; [reflexivity|]. exists "doc", "1". now vm_compute.
    + now exists (inject_Z 50).
  - apply (perm_trans
             (l' := [[Str "doc-3-2"; Num 200]; [Str "doc-3-1"; Num 50];
                     [Str "doc-4-1"; Num 10]])); [apply perm_swap|].
    apply (perm_trans
             (l' := [[Str "doc-3-2"; Num 200]; [Str "doc-4-1"; Num 10];
                     [Str "doc-3-1"; Num 50]])); [apply perm_skip, perm_swap|].
    apply perm_swap.
  - intros page. unfold distinctAreas, onPage. cbn -[String.eqb].
    destruct (String.eqb "3" page); destruct (String.eqb "4" page);
      cbn -[String.eqb]; repeat constructor; intros E; vm_compute in E;
      discriminate E.
Defined.

(** ** The id in one cell only *)

Lemma prefix_refl (s : string) : String.prefix s s = true.
Proof.
  induction s as [|c s IH]; [reflexivity|].
  cbn. destruct (ascii_dec c c); [exact IH|contradiction].
Qed.

Lemma includesStr_refl (s : string) : includesStr s s = true.
Proof.
  destruct s as [|c s]; [reflexivity|].
  cbn [includesStr]. now rewrite prefix_refl.
Qed.

Lemma containsText_exact `{Host} (id : string) :
  id <> "" -> containsText id (Str id) = true.
Proof.
  intros Hne. unfold containsText. cbn [isBlank displayValue].
  rewrite includesStr_refl, andb_true_r. apply negb_true_iff.
  now apply String.eqb_neq.
Qed.

(** X24.  When one cell of the sheet holds the id and no other cell
    contains it, updateLabel takes the row of that cell: it completes and
    writes the label into the label column of that row. *)
Theorem updateLabel_unique_occurrence `{Host}
  (id label : string) (w : world) (h : nat) (s : sheet) (r c : nat) :
  findIndex (isNamed pdfId) (sheets w) = Some h ->
  sheets w !! h = Some s ->
  1 <= r -> 1 <= c -> id <> "" ->
  cellAt (grid s) r c = Str id ->
  (forall r' c', 1 <= r' -> 1 <= c' ->
      containsText id (cellAt (grid s) r' c') = true -> (r', c') = (r, c)) ->
  Str "label" ∈ sheetHeader s ->
  findCell (containsText id) (grid s) 1 = Some (r, c) /\
  updateLabel id label w =
    (Ret tt, mkWorld (<[h := labelled s r label]> (sheets w)) (requests w) (logs w)) /\
  cellAt (grid (labelled s r label)) r (labelColumnOf s) = cellOfString label.
Proof.
  intros Hfind Hs Hr Hc Hne Hid Honly Hlabel.
  assert (Hp : containsText id (cellAt (grid s) r c) = true).
  { rewrite Hid. now apply containsText_exact. }
  assert (Hnb : isBlank (cellAt (grid s) r c) = false).
  { unfold containsText in Hp. apply andb_true_iff in Hp as [Hn _].
    now apply negb_true_iff in Hn. }
  assert (Hcell : findCell (containsText id) (grid s) 1 = Some (r, c)).
  { destruct (cellAt_content _ _ _ Hnb) as (row & Hrow & Hv).
    destruct (findCell_exists (containsText id) _ 1 _ _ _ _ Hrow Hv Hp)
      as (r1 & c1 & E & _).
    rewrite E. f_equal.
    destruct (findCell_spec _ _ _ _ _ E)
      as (Hr1 & Hc1 & (row1 & v1 & Hrow1 & Hv1 & Hp1) & _).
    apply Honly; try assumption.
    unfold cellAt. now rewrite Hrow1, Hv1. }
  assert (Hcolumn : 1 <= labelColumnOf s) by now apply labelColumnOf_found.
  pose proof (findCell_content id _ _ _ Hcell) as Hlc.
  split; [exact Hcell|]. split.
  - rewrite (updateLabel_run id label w h s Hfind Hs), Hcell.
    replace (1 <=? gridLastColumn (grid s)) with true
      by (symmetry; apply Nat.leb_le; lia).
    now replace (1 <=? labelColumnOf s) with true
      by (symmetry; apply Nat.leb_le; lia).
  - unfold labelled. cbn [grid]. rewrite cellAt_setCell by lia.
    now rewrite !Nat.eqb_refl.
Qed.

Lemma updateLabel_unique_occurrence_witness :
  findCell (@containsText (Demo.host Demo.emptyBucket) "abcd-1-10")
    [[Str "id"; Str "text"; Str "area"; Str "label"];
     [Str "abcd-1-10"; Str "A long paragraph"; Num 900; Str "body"];
     [Str "abcd-1-1"; Str "Page 1"; Num 20; Str "body"]] 1 =
    Some (2, 1) /\
  @updateLabel (Demo.host Demo.emptyBucket) "abcd-1-10" "other" Demo.sortedByArea =
    (Ret tt,
     mkWorld
       [mkSheet "abcd"
          [[Str "id"; Str "text"; Str "area"; Str "label"];
           [Str "abcd-1-10"; Str "A long paragraph"; Num 900; Str "other"];
           [Str "abcd-1-1"; Str "Page 1"; Num 20; Str "body"]]
          [(2, 4, "wheat")]]
       [] []) /\
  cellAt
    [[Str "id"; Str "text"; Str "area"; Str "label"];
     [Str "abcd-1-10"; Str "A long paragraph"; Num 900; Str "other"];
     [Str "abcd-1-1"; Str "Page 1"; Num 20; Str "body"]] 2 4 = Str "other".
Proof.
  apply (@updateLabel_unique_occurrence (Demo.host Demo.emptyBucket)
           "abcd-1-10" "other" Demo.sortedByArea 0 _ 2 1 eq_refl eq_refl);
    try reflexivity; try lia; try discriminate.
  - intros r' c' Hr' Hc' Hp.
    destruct r' as [|[|[|[|r']]]]; try lia;
      destruct c' as [|[|[|[|[|c']]]]]; try lia; try discriminate Hp;
      try reflexivity.
  - vm_compute. apply elem_of_cons. right. apply elem_of_cons. right.
    apply elem_of_cons. right. apply elem_of_cons. now left.
Defined.
(** X25.  An id that is found in the header row.  The finder reads the
    header row first, so an id that a header cell contains (such as "id",
    or a part of a column name) makes updateLabel take row 1: the call
    completes and overwrites the header cell "label" with the label.  When
    that was the only label column and the label is not "label" itself, the
    sheet has no label column any more, and no later call of updateLabel
    completes. *)
Theorem updateLabel_id_in_header `{Host}
  (id label : string) (w : world) (h : nat) (s : sheet) (c : nat) :
  findIndex (isNamed pdfId) (sheets w) = Some h ->
  sheets w !! h = Some s ->
  findCell (containsText id) (grid s) 1 = Some (1, c) ->
  Str "label" ∈ sheetHeader s ->
  (forall j, sheetHeader s !! j = Some (Str "label") -> j = labelColumnOf s - 1) ->
  cellOfString label <> Str "label" ->
  let w' := snd (updateLabel id label w) in
  fst (updateLabel id label w) = Ret tt /\
  (exists s', sheets w' !! h = Some s' /\
              cellAt (grid s) 1 (labelColumnOf s) = Str "label" /\
              cellAt (grid s') 1 (labelColumnOf s) = cellOfString label /\
              (Str "label" ∉ sheetHeader s')) /\
  forall id' label', fst (updateLabel id' label' w') <> Ret tt.
Proof.
  intros Hfind Hs Hcell Hlabel Hone Hother w'.
  pose proof (findCell_content id _ _ _ Hcell) as Hlc.
  destruct (label_column s Hlabel) as [Hcolumn Hhead].
  assert (Hrun : updateLabel id label w =
    (Ret tt, mkWorld (<[h := labelled s 1 label]> (sheets w)) (requests w) (logs w))).
  { rewrite (updateLabel_run id label w h s Hfind Hs), Hcell.
    replace (1 <=? gridLastColumn (grid s)) with true
      by (symmetry; apply Nat.leb_le; lia).
    now replace (1 <=? labelColumnOf s) with true
      by (symmetry; apply Nat.leb_le; lia). }
  set (s' := labelled s 1 label).
  assert (Hcells : forall c', 1 <= c' ->
            cellAt (grid s') 1 c' =
            if c' =? labelColumnOf s then cellOfString label
            else cellAt (grid s) 1 c').
  { intros c' Hc'. subst s'. unfold labelled. cbn [grid].
    rewrite cellAt_setCell by lia. reflexivity. }
  assert (Hgone : Str "label" ∉ sheetHeader s').
  { intros Hin. apply list_elem_of_lookup in Hin as [j Hj].
    pose proof (lookup_lt_Some _ _ _ Hj) as Hlt. rewrite sheetHeader_length in Hlt.
    unfold sheetHeader in Hj. change (map ?f ?l) with (f <$> l) in Hj.
    rewrite list_lookup_fmap, lookup_seq_lt in Hj by assumption. cbn in Hj.
    injection Hj as Hj. rewrite Hcells in Hj by lia.
    destruct (Nat.eqb_spec (S j) (labelColumnOf s)) as [E|Hne]; [contradiction|].
    assert (Hnb : isBlank (cellAt (grid s) 1 (S j)) = false) by now rewrite Hj.
    destruct (cellAt_below_or_beyond (grid s) 1 (S j) ltac:(lia) ltac:(lia) Hnb)
      as [_ Hle].
    assert (Hat : sheetHeader s !! j = Some (Str "label")).
    { unfold sheetHeader. change (map ?f ?l) with (f <$> l).
      rewrite list_lookup_fmap, lookup_seq_lt by lia. cbn. now rewrite Hj. }
    apply Hone in Hat. lia. }
  assert (Hw' : w' = mkWorld (<[h := s']> (sheets w)) (requests w) (logs w)).
  { subst w'. now rewrite Hrun. }
  assert (Hs' : sheets w' !! h = Some s').
  { rewrite Hw'. cbn [sheets]. apply list_lookup_insert_eq.
    eapply lookup_lt_Some; eassumption. }
  split; [now rewrite Hrun|]. split.
  - exists s'. split; [exact Hs'|]. split; [exact Hhead|]. split; [|exact Hgone].
    rewrite Hcells by lia. now rewrite Nat.eqb_refl.
  - intros id' label'.
    assert (Hfind' : findIndex (isNamed pdfId) (sheets w') = Some h).
    { rewrite Hw'. cbn [sheets].
      now rewrite (findIndex_insert_same _ _ h s s' Hs). }
    rewrite (updateLabel_run id' label' w' h s' Hfind' Hs').
    destruct (findCell (containsText id') (grid s') 1) as [[r1 c1]|];
      [|discriminate].
    replace (1 <=? labelColumnOf s') with false; [rewrite andb_false_r; discriminate|].
    symmetry. apply Nat.leb_gt.
    destruct (labelColumnOf_spec s') as [[_ ->]|(Hge & Hat & _)]; [lia|].
    exfalso. apply Hgone. apply list_elem_of_lookup. eauto.
Qed.

Lemma updateLabel_id_in_header_witness :
  fst (@updateLabel (Demo.host Demo.emptyBucket) "id" "body" Demo.oneSheet) = Ret tt /\
  (exists s',
      sheets (snd (@updateLabel (Demo.host Demo.emptyBucket) "id" "body"
                     Demo.oneSheet)) !! 0 = Some s' /\
      cellAt (grid Demo.currentSheet) 1 4 = Str "label" /\
      cellAt (grid s') 1 4 = Str "body" /\
      (Str "label" ∉ sheetHeader s')) /\
  forall id' label',
    fst (@updateLabel (Demo.host Demo.emptyBucket) id' label'
           (snd (@updateLabel (Demo.host Demo.emptyBucket) "id" "body"
                   Demo.oneSheet))) <> Ret tt.
Proof.
  apply (@updateLabel_id_in_header (Demo.host Demo.emptyBucket)
           "id" "body" Demo.oneSheet 0 Demo.currentSheet 1);
    try reflexivity; try discriminate.
  - vm_compute. apply elem_of_cons. right. apply elem_of_cons. right.
    apply elem_of_cons. right. apply elem_of_cons. now left.
  - intros [|[|[|[|j]]]] Hj; try discriminate Hj; reflexivity.
Defined.
(** ** do_get.gs and do_get.js *)

Section TwoVersions.
Context `{Host}.
Hypothesis byUrl : forall rq rq', url rq = url rq' ->
                                  UrlFetchApp_fetch rq = UrlFetchApp_fetch rq'.

Lemma labelRequest_plain (i : N) :
  UrlFetchApp_fetch (labelRequest i) = UrlFetchApp_fetch (plainRequest i).
Proof. now apply byUrl. Qed.

Lemma labelFound_plain (i : N) : labelFound i = plainFound i.
Proof. unfold labelFound, plainFound. now rewrite labelRequest_plain. Qed.

Lemma loadedText_plain (k : nat) : forall i,
  (forall j, j < k -> plainFound (i + 100 * N.of_nat j) = true) ->
  loadedText i k = plainText i k.
Proof.
  induction k as [|k IH]; intros i Hall; [reflexivity|].
  cbn [loadedText plainText].
  assert (H0 : plainFound i = true).
  { specialize (Hall 0 ltac:(lia)).
    now replace (i + 100 * N.of_nat 0)%N with i in Hall by lia. }
  unfold batchBody. rewrite labelFound_plain, H0, labelRequest_plain.
  f_equal. apply IH. intros j Hj. rewrite batchIndex_next. apply Hall. lia.
Qed.
End TwoVersions.

(** X26.  The two versions of the script, in a project that binds the
    global [storageService] that authFetch of do_get.gs reads (the script
    files bind none; without it do_get.gs raises at the first fetch and the
    two versions differ).  On a storage that answers by the URL alone, with
    a labels file for every batch before the first missing one, the loader
    of do_get.gs returns the text the loader of do_get.js returns.  When
    that text parses into rows of one length whose header has a label
    column, both versions of downloadLabels complete and leave the same
    sheets. *)
Theorem downloadLabels_gs_agrees_with_js `{Host} (k fuel : nat) (w : world)
  (parsed : list (list string)) :
  tokenBound ->
  (forall rq rq', url rq = url rq' -> UrlFetchApp_fetch rq = UrlFetchApp_fetch rq') ->
  (forall j, j < k -> plainFound (batchIndex j) = true) ->
  batchPresent (batchIndex k) = false ->
  k < fuel ->
  fst (downloadLoop fuel 1 "" w) = Ret (plainText 1 k) /\
  fst (DoGetJs.downloadLoop fuel 1 "" w) = Ret (plainText 1 k) /\
  (parseCsv (plainText 1 k) = Some parsed ->
   rectangular parsed = true ->
   includes "label" (hd [] parsed) = true ->
   NoDup (map getName (sheets w)) ->
   (forall s, s ∈ sheets w -> getName s <> archivalName) ->
   fst (downloadLabels fuel w) = Ret tt /\
   fst (DoGetJs.downloadLabels fuel w) = Ret tt /\
   sheets (snd (downloadLabels fuel w)) = archived (sheets w) ++ [newSheet parsed] /\
   sheets (snd (DoGetJs.downloadLabels fuel w)) =
     archived (sheets w) ++ [newSheet parsed]).
Proof.
  intros Hbound Hurl Hpresent Hmissing Hfuel.
  assert (Hgs : forall j, j < k -> batchPresent (batchIndex j) = true).
  { intros j Hj. unfold batchPresent.
    now rewrite (labelFound_plain Hurl), (Hpresent j Hj). }
  assert (Hjs : plainFound (batchIndex k) = false).
  { unfold batchPresent in Hmissing. apply orb_false_iff in Hmissing as [Hl _].
    now rewrite <- (labelFound_plain Hurl). }
  pose proof (downloadLoop_runs k fuel 1%N "" w Hbound Hgs Hmissing Hfuel) as Hrun.
  pose proof (js_downloadLoop_runs k fuel 1%N "" w Hpresent Hjs Hfuel) as Hrun'.
  rewrite app_empty_l in Hrun, Hrun'.
  rewrite (loadedText_plain Hurl k 1%N Hpresent) in Hrun.
  split; [now rewrite Hrun|]. split; [now rewrite Hrun'|].
  intros Hcsv Hrect Hinc Hnodup Hfree.
  assert (Hadd : addLabelColumn parsed = Ret parsed).
  { destruct parsed as [|header rest]; [discriminate|].
    cbn [hd] in Hinc. unfold addLabelColumn. now rewrite Hinc. }
  rewrite downloadLabels_run, js_downloadLabels_run, Hrun, Hrun', Hcsv, Hadd.
  rewrite !syncSheet_completes by assumption. cbn [fst snd sheets]. auto.
Qed.

Lemma downloadLabels_gs_agrees_with_js_witness :
  fst (@downloadLoop (Demo.host Demo.labelBatches) 5 1 "" Demo.oneSheet) =
    Ret (@plainText (Demo.host Demo.labelBatches) 1 2) /\
  fst (@DoGetJs.downloadLoop (Demo.host Demo.labelBatches) 5 1 "" Demo.oneSheet) =
    Ret (@plainText (Demo.host Demo.labelBatches) 1 2) /\
  fst (@downloadLabels (Demo.host Demo.labelBatches) 5 Demo.oneSheet) = Ret tt /\
  fst (@DoGetJs.downloadLabels (Demo.host Demo.labelBatches) 5 Demo.oneSheet) = Ret tt /\
  sheets (snd (@downloadLabels (Demo.host Demo.labelBatches) 5 Demo.oneSheet)) =
    [mkSheet "abcd.old.10:15:30 AM" (grid Demo.currentSheet)
       (backgrounds Demo.currentSheet);
     mkSheet "abcd"
       [[Str "id"; Str "text"; Str "area"; Str "label"];
        [Str "abcd-3-1"; Str "Chapter one"; Num 50; Str "other"];
        [Str "abcd-3-2"; Str "It was a dark night"; Num 200; Str "body"]] []] /\
  sheets (snd (@DoGetJs.downloadLabels (Demo.host Demo.labelBatches) 5 Demo.oneSheet)) =
    [mkSheet "abcd.old.10:15:30 AM" (grid Demo.currentSheet)
       (backgrounds Demo.currentSheet);
     mkSheet "abcd"
       [[Str "id"; Str "text"; Str "area"; Str "label"];
        [Str "abcd-3-1"; Str "Chapter one"; Num 50; Str "other"];
        [Str "abcd-3-2"; Str "It was a dark night"; Num 200; Str "body"]] []].
Proof.
  destruct (@downloadLabels_gs_agrees_with_js (Demo.host Demo.labelBatches)
              2 5 Demo.oneSheet
              [["id"; "text"; "area"; "label"];
               ["abcd-3-1"; "Chapter one"; "50"; "other"];
               ["abcd-3-2"; "It was a dark night"; "200"; "body"]]
              ltac:(discriminate)
              ltac:(intros rq rq' E; cbn; now rewrite E)
              ltac:(intros [|[|j]] Hj; [reflexivity|reflexivity|lia])
              eq_refl ltac:(lia))
    as (Hgs & Hjs & Hsheets).
  split; [exact Hgs|]. split; [exact Hjs|].
  apply Hsheets.
  - vm_compute. reflexivity.
  - reflexivity.
  - reflexivity.
  - apply NoDup_singleton.
  - intros s Hin. apply list_elem_of_singleton in Hin. subst s.
    vm_compute. discriminate.
Defined.
